(** * marstek2mqtt: the Modbus poller and the MQTT bridge

    A shallow embedding of [Poller.js] and [MqttClient.js].

    - JavaScript strings are [string]s holding the UTF-8 encoding of the text
      (topics, payloads and keys are compared and split bytewise, which agrees
      with the comparison of code units because ["/"] is ASCII).
    - Telemetry values are IEEE-754 doubles ([float]); the numbers of the
      command path are the doubles that are integers, the infinities and
      [NaN] ([jsint], the range of [parseInt]), kept as the integer they are,
      with 2^1024 for [Infinity]; register addresses, byte offsets and times
      in milliseconds are integers ([Z]).
    - Objects used as tables are association lists in property order.
    - The Modbus client, the clock and the MQTT broker are an external
      environment [Env] with the operations of the record [External]; every
      call to them, every [Logger] call and every emitted snapshot is appended
      to the [trace] of the [World].
    - [async] functions are run to completion one after the other; a thrown
      error is the [inl] result carrying the error's message.
    - The trace has the calls of [Logger], whatever the log level lets
      through.  Of [MqttClient.initialize] the handlers of [connect] and
      [message] are embedded. *)

From Stdlib Require Import ZArith List String Ascii Bool Lia.
From Stdlib Require Import DecimalString DecimalZ DecimalFacts DecimalPos.
From Stdlib Require Import Floats.
Import ListNotations.

Set Warnings "-inexact-float,-register-all".

Open Scope string_scope.
Open Scope list_scope.
Open Scope Z_scope.

Infix "+++" := String.append (at level 60, right associativity).

(* ------------------------------------------------------------------ *)
(** ** Strings *)

(** [s.split(sep)] for a one-character separator. *)
Fixpoint split (sep : ascii) (s : string) : list string :=
  match s with
  | EmptyString => [EmptyString]
  | String c r =>
      if Ascii.eqb c sep then EmptyString :: split sep r
      else match split sep r with
           | h :: t => String c h :: t
           | [] => [String c EmptyString]
           end
  end.

(** [l.join(sep)]. *)
Definition join (sep : string) (l : list string) : string := String.concat sep l.

(** [`${z}`] for an integer [z]. *)
Definition Z_toString (z : Z) : string := NilZero.string_of_int (Z.to_int z).

Definition bytes_string (l : list nat) : string :=
  fold_right (fun n s => String (ascii_of_nat n) s) EmptyString l.

(** The characters [parseInt] skips at the start (WhiteSpace and
    LineTerminator of ECMAScript), in UTF-8. *)
Definition StrWhiteSpaceChar : list string :=
  map bytes_string
    [ [9%nat]; [10%nat]; [11%nat]; [12%nat]; [13%nat]; [32%nat];
      [194; 160]%nat;                       (* U+00A0 *)
      [225; 154; 128]%nat;                  (* U+1680 *)
      [226; 128; 128]%nat; [226; 128; 129]%nat; [226; 128; 130]%nat;
      [226; 128; 131]%nat; [226; 128; 132]%nat; [226; 128; 133]%nat;
      [226; 128; 134]%nat; [226; 128; 135]%nat; [226; 128; 136]%nat;
      [226; 128; 137]%nat; [226; 128; 138]%nat;  (* U+2000 .. U+200A *)
      [226; 128; 168]%nat; [226; 128; 169]%nat;  (* U+2028, U+2029 *)
      [226; 128; 175]%nat;                  (* U+202F *)
      [226; 129; 159]%nat;                  (* U+205F *)
      [227; 128; 128]%nat;                  (* U+3000 *)
      [239; 187; 191]%nat ].                (* U+FEFF *)

(** [s] without the prefix [p], when it starts with it. *)
Fixpoint stripPrefix (p s : string) : option string :=
  match p, s with
  | EmptyString, _ => Some s
  | String a p', String b s' => if Ascii.eqb a b then stripPrefix p' s' else None
  | String _ _, EmptyString => None
  end.

Fixpoint stripAny (ps : list string) (s : string) : option string :=
  match ps with
  | [] => None
  | p :: ps' => match stripPrefix p s with
                | Some r => Some r
                | None => stripAny ps' s
                end
  end.

Fixpoint trimStart_fuel (fuel : nat) (s : string) : string :=
  match fuel with
  | O => s
  | S fuel' => match stripAny StrWhiteSpaceChar s with
               | Some r => trimStart_fuel fuel' r
               | None => s
               end
  end.

(** Every stripped character takes at least one byte, so the length of the
    string is enough fuel. *)
Definition trimStart (s : string) : string := trimStart_fuel (String.length s) s.

(* ------------------------------------------------------------------ *)
(** ** Numbers *)

(** A Number that is [NaN], an integer or an infinity: what [parseInt]
    returns.  [Int z] is the double [toDouble z]: the integer [z] itself up
    to 2^53, the nearest double beyond, and [Infinity] out of range;
    [parseInt] returns it with [z] rounded already. *)
Inductive jsint :=
| NaN
| Int (z : Z).

Definition isNaN (n : jsint) : bool :=
  match n with NaN => true | Int _ => false end.

(** [num / den] rounded to the nearest integer, a tie to the even one
    ([num >= 0], [den > 0]). *)
Definition roundHalfEven (num den : Z) : Z :=
  let q := num / den in
  let r := num mod den in
  if (den <? 2 * r) || ((2 * r =? den) && Z.odd q) then q + 1 else q.

(** What stands for [Infinity] among the integers: 2^1024, the first power
    of two that is no double. *)
Definition Infinity : Z := 2 ^ 1024.

(** The double nearest to the quotient [num / den] of two positive
    integers, as mantissa and exponent: the value is [m * 2^e], with
    [2^52 <= m <= 2^53]. *)
Definition nearestDouble (num den : Z) : Z * Z :=
  let e0 := Z.log2 num - Z.log2 den - 53 in
  let scaled e := if 0 <=? e then (num, den * 2 ^ e) else (num * 2 ^ (- e), den) in
  let e := (let '(n, d) := scaled (e0 + 1) in if 2 ^ 52 <=? n / d then e0 + 1 else e0) in
  let '(n, d) := scaled e in
  (roundHalfEven n d, e).

(** The Number value of an integer: the integer itself up to 2^53, beyond
    that the nearest double (a tie goes to the even mantissa), and
    [Infinity] with its sign when that is out of range. *)
Definition toDouble (z : Z) : Z :=
  let n := Z.abs z in
  if n <? 2 ^ 53 then z else
  let '(m, e) := nearestDouble n 1 in
  let v := m * 2 ^ e in
  Z.sgn z * (if Infinity <=? v then Infinity else v).

(** [Math.ceil(p / d)] for a double [p] that is an integer or an infinity
    and a positive integer [d] below 2^53: the quotient is rounded to a
    double before the ceiling is taken. *)
Definition Math_ceil_div (p d : Z) : Z :=
  if Infinity <=? Z.abs p then p
  else if p =? 0 then 0
  else
    let '(m, e) := nearestDouble (Z.abs p) d in
    if 0 <=? e then Z.sgn p * (m * 2 ^ e)
    else if 0 <? p then - ((- m) / 2 ^ (- e))
    else - (m / 2 ^ (- e)).

(** The decimal with the fewest significant digits, [k] or more, that
    [toDouble] takes to the double [x] of [d] digits; of two such the nearer
    to [x], and of two equally near the even one. *)
Fixpoint shortestDecimal (fuel : nat) (k d x : Z) : Z :=
  match fuel with
  | O => x
  | S fuel' =>
      let unit := 10 ^ (d - k) in
      let lo := x / unit * unit in
      let hi := lo + unit in
      let lo_ok := toDouble lo =? x in
      let hi_ok := toDouble hi =? x in
      if lo_ok && hi_ok then
        (if x - lo <? hi - x then lo
         else if hi - x <? x - lo then hi
         else if Z.even (lo / unit) then lo else hi)
      else if lo_ok then lo
      else if hi_ok then hi
      else shortestDecimal fuel' (k + 1) d x
  end.

Fixpoint dropZeros (l : list ascii) : list ascii :=
  match l with
  | "0"%char :: l' => dropZeros l'
  | _ => l
  end.

(** [`${x}`] for a positive double [x] that is an integer: the digits of
    [x] up to 2^53; beyond, the digits of the shortest decimal that reads
    back as [x], and from 22 digits on in exponent notation. *)
Definition positive_toString (x : Z) : string :=
  if x <? 2 ^ 53 then Z_toString x else
  let d := Z.of_nat (String.length (Z_toString x)) in
  let v := shortestDecimal (Z.to_nat d) 1 d x in
  let digits := Z_toString v in
  let n := Z.of_nat (String.length digits) in
  if n <=? 21 then digits else
  let s := rev (dropZeros (rev (list_ascii_of_string digits))) in
  match s with
  | [] => digits
  | [c] => String c ("e+" +++ Z_toString (n - 1))
  | c :: rest => String c ("." +++ string_of_list_ascii rest +++ "e+" +++ Z_toString (n - 1))
  end.

(** [`${x}`] for the Number an integer stands for. *)
Definition Number_toString (z : Z) : string :=
  let x := toDouble z in
  if Infinity <=? x then "Infinity"
  else if x <=? - Infinity then "-Infinity"
  else if x <? 0 then "-" +++ positive_toString (- x)
  else positive_toString x.

Definition jsint_toString (n : jsint) : string :=
  match n with NaN => "NaN" | Int z => Number_toString z end.

(** The value of a character as a digit: [0-9], then [a-z] or [A-Z] from 10. *)
Definition digitValue (c : ascii) : option Z :=
  let n := Z.of_N (N_of_ascii c) in
  if (48 <=? n) && (n <=? 57) then Some (n - 48)
  else if (97 <=? n) && (n <=? 122) then Some (n - 87)
  else if (65 <=? n) && (n <=? 90) then Some (n - 55)
  else None.

(** The mathematical value of the longest prefix of radix-[R] digits;
    [acc] is [NaN] until a digit was read. *)
Fixpoint parseDigits (R : Z) (s : string) (acc : jsint) : jsint :=
  match s with
  | EmptyString => acc
  | String c r =>
      match digitValue c with
      | Some d =>
          if d <? R
          then parseDigits R r (Int (match acc with Int a => a * R + d | NaN => d end))
          else acc
      | None => acc
      end
  end.

(** [parseInt(s, radix)]; [radix = None] is a call with one argument.  The
    result is the value of the digits as a double. *)
Definition parseInt (s : string) (radix : option Z) : jsint :=
  let S0 := trimStart s in
  let '(negative, S1) :=
    match S0 with
    | String "-" r => (true, r)
    | String "+" r => (false, r)
    | _ => (false, S0)
    end in
  let R0 := match radix with Some r => r | None => 0 end in
  if negb (R0 =? 0) && ((R0 <? 2) || (36 <? R0)) then NaN else
  let R := if R0 =? 0 then 10 else R0 in
  let strip := (R0 =? 0) || (R0 =? 16) in
  let '(R, S2) :=
    if strip then
      match S1 with
      | String "0" (String "x" r) => (16, r)
      | String "0" (String "X" r) => (16, r)
      | _ => (R, S1)
      end
    else (R, S1) in
  match parseDigits R S2 NaN with
  | NaN => NaN
  | Int z => Int (toDouble (if negative then - z else z))
  end.

(** The double holding an integer of at most 63 bits (exact below 2^53:
    every register value is). *)
Definition Z2float (z : Z) : float :=
  if z <? 0 then PrimFloat.opp (PrimFloat.of_uint63 (Uint63.of_Z (- z)))
  else PrimFloat.of_uint63 (Uint63.of_Z z).

(** The integer a double holds, when it holds one. *)
Definition float_integer (f : float) : option Z :=
  match Prim2SF f with
  | S754_zero _ => Some 0
  | S754_finite s m e =>
      let n := if 0 <=? e then Some (Zpos m * 2 ^ e)
               else if (Zpos m) mod (2 ^ (- e)) =? 0 then Some (Zpos m / 2 ^ (- e))
               else None in
      option_map (fun n => if s then - n else n) n
  | S754_infinity _ => None
  | S754_nan => None
  end.

(** The property key [value] of [map[value]] for a number: the rendering
    of an integer below 10^21, which is in decimal digits.  The remaining
    renderings (a fraction, an exponent, [NaN], [Infinity]) are [None]: none
    is a key of a code table. *)
Definition numberKey (f : float) : option string :=
  match float_integer f with
  | Some z => if Z.abs z <? 10 ^ 21 then Some (Number_toString z) else None
  | None => None
  end.

(* ------------------------------------------------------------------ *)
(** ** Errors *)

(** A thrown error, by its [message]. *)
Definition Exn := string.

Definition quote : string := String (ascii_of_nat 34) EmptyString.

(* ------------------------------------------------------------------ *)
(** ** Buffers (Node's [Buffer] reads, big-endian) *)

Definition Buffer := list Byte.byte.

Definition byteAt (b : Buffer) (i : Z) : option Z :=
  if i <? 0 then None
  else option_map (fun x => Z.of_N (Byte.to_N x)) (nth_error b (Z.to_nat i)).

(** [boundsError(value, length)] of Node's buffer module, for an integer
    offset. *)
Definition boundsError (value length : Z) : Exn :=
  if length <? 0 then "Attempt to access memory outside buffer bounds"
  else "The value of " +++ quote +++ "offset" +++ quote
       +++ " is out of range. It must be >= 0 and <= " +++ Z_toString length
       +++ ". Received " +++ Z_toString value.

Definition readUInt16BE (b : Buffer) (offset : Z) : Exn + Z :=
  match byteAt b offset, byteAt b (offset + 1) with
  | Some first, Some last => inr (first * 2 ^ 8 + last)
  | _, _ => inl (boundsError offset (Z.of_nat (List.length b) - 2))
  end.

Definition readInt16BE (b : Buffer) (offset : Z) : Exn + Z :=
  match byteAt b offset, byteAt b (offset + 1) with
  | Some first, Some last =>
      let val := first * 2 ^ 8 + last in
      inr (if val <? 2 ^ 15 then val else val - 2 ^ 16)
  | _, _ => inl (boundsError offset (Z.of_nat (List.length b) - 2))
  end.

Definition readUInt32BE (b : Buffer) (offset : Z) : Exn + Z :=
  match byteAt b offset, byteAt b (offset + 3) with
  | Some first, Some last =>
      match byteAt b (offset + 1), byteAt b (offset + 2) with
      | Some b1, Some b2 => inr (first * 2 ^ 24 + b1 * 2 ^ 16 + b2 * 2 ^ 8 + last)
      | _, _ => inl (boundsError offset (Z.of_nat (List.length b) - 4))
      end
  | _, _ => inl (boundsError offset (Z.of_nat (List.length b) - 4))
  end.

Definition readInt32BE (b : Buffer) (offset : Z) : Exn + Z :=
  match readUInt32BE b offset with
  | inr val => inr (if val <? 2 ^ 31 then val else val - 2 ^ 32)
  | inl e => inl e
  end.

(* ------------------------------------------------------------------ *)
(** ** Objects used as tables *)

(** The own properties of an object, in property order. *)
Definition Obj (A : Type) := list (string * A).

Fixpoint assoc {A : Type} (k : string) (o : Obj A) : option A :=
  match o with
  | [] => None
  | (k', v) :: o' => if String.eqb k k' then Some v else assoc k o'
  end.

Definition Object_keys {A : Type} (o : Obj A) : list string := map fst o.
Definition Object_values {A : Type} (o : Obj A) : list A := map snd o.

(** [o[k] = v]: an existing property keeps its place, a new one goes last. *)
Fixpoint set_prop {A : Type} (k : string) (v : A) (o : Obj A) : Obj A :=
  match o with
  | [] => [(k, v)]
  | (k', v') :: o' =>
      if String.eqb k k' then (k, v) :: o' else (k', v') :: set_prop k v o'
  end.

(** The properties every object literal inherits from [Object.prototype]. *)
Definition Object_prototype : list string :=
  [ "constructor"; "__defineGetter__"; "__defineSetter__"; "hasOwnProperty";
    "__lookupGetter__"; "__lookupSetter__"; "isPrototypeOf";
    "propertyIsEnumerable"; "toString"; "valueOf"; "__proto__";
    "toLocaleString" ].

(** The outcome of [o[k]] on an object literal: an own property, an inherited
    one (truthy, with none of the fields of an entry), or [undefined]. *)
Inductive Lookup (A : Type) :=
| Own (a : A)
| Inherited
| Undefined.
Arguments Own {A} a.
Arguments Inherited {A}.
Arguments Undefined {A}.

Definition js_get {A : Type} (o : Obj A) (k : string) : Lookup A :=
  match assoc k o with
  | Some a => Own a
  | None => if existsb (String.eqb k) Object_prototype then Inherited else Undefined
  end.

(* ------------------------------------------------------------------ *)
(** ** The tables of [Poller] *)

(** A code table: the keys are the decimal codes, the values the labels. *)
Definition CodeMap := Obj string.

(** An entry of [Poller.CONTROLS], by its [type]. *)
Inductive Control :=
| select (register : Z) (map : CodeMap)
| number (register : Z).

Definition CONTROLS : Obj Control :=
  [ ("user_work_mode", select 43000 [("0", "Manual"); ("1", "Anti-Feed"); ("2", "Trade")]);
    ("force_mode", select 42010 [("0", "Stop"); ("1", "Charge"); ("2", "Discharge")]);
    ("backup_function", select 41200 [("0", "Enable"); ("1", "Disable")]);
    ("set_charge_power", number 42020);
    ("set_discharge_power", number 42021);
    ("charge_to_soc", number 42011) ].

Definition READ_ONLY_LOOKUPS : Obj CodeMap :=
  [ ("inverter_state",
     [("0", "Sleep"); ("1", "Standby"); ("2", "Charge"); ("3", "Discharge");
      ("4", "Backup"); ("5", "OTA"); ("6", "Bypass")]) ].

(** [map[value]] for a number [value], as [handleData] reads a label
    (the spec's [labelForCode]). *)
Definition labelForCode (map : CodeMap) (value : float) : option string :=
  match numberKey value with
  | Some k => assoc k map
  | None => None
  end.

(** [Object.keys(map).find(k => map[k] === value)], as [handleCommand] finds
    the key of a label. *)
Definition keyForLabel (map : CodeMap) (value : string) : option string :=
  find (fun k => match assoc k map with
                 | Some l => String.eqb l value
                 | None => false
                 end) (Object_keys map).

(** The code [handleCommand] writes for a label: [parseInt] of the key found
    (the spec's [codeForLabel]). *)
Definition codeForLabel (map : CodeMap) (value : string) : option jsint :=
  option_map (fun intVal => parseInt intVal None) (keyForLabel map value).

Definition MqttClient_TOPIC_PREFIX : string := "marstek2mqtt".

(* ------------------------------------------------------------------ *)
(** ** Snapshots, payloads and the trace *)

(** The [data] object of a poll cycle. *)
Definition Snapshot := Obj float.

Inductive json :=
| JBool (b : bool)
| JNumber (z : Z)
| JString (s : string)
| JArray (l : list json)
| JObject (o : list (string * json)).

(** A template literal with numbers in it: the rendering [`${value}`] of a
    double is not spelled out. *)
Inductive Piece :=
| chars (s : string)
| digits (f : float).

Definition Text := list Piece.

(** What is handed to [client.publish] as the message: a rendered text or
    [JSON.stringify] of an object. *)
Inductive Payload :=
| template (t : Text)
| stringify (j : json).

Inductive LogLevel := INFO | WARN | ERROR.

Inductive Event :=
| Logger_log (level : LogLevel) (args : list string)
| Logger_log_template (level : LogLevel) (message : Text)
| modbus_close
| modbus_connectTCP
| modbus_setID (id : Z)
| modbus_setTimeout (ms : Z)
| modbus_readHoldingRegisters (start length : Z)
| modbus_writeRegister (address : Z) (value : jsint)
| mqtt_subscribe (topic : string)
| mqtt_publish (topic : string) (message : Payload) (retain : bool)
| eventEmitter_emit (data : Snapshot)
| setTimeout (delay : Z).

(** The operations of the outside world on its state [Env]: the clock, the
    Modbus TCP client (host and port are fixed at start) and the broker's
    answer to a subscription. *)
Record External (Env : Type) := {
  Date_now : Env -> Z * Env;
  ModbusRTU_isOpen : Env -> bool;
  ModbusRTU_close : Env -> Env;
  ModbusRTU_connectTCP : Env -> (Exn + unit) * Env;
  ModbusRTU_readHoldingRegisters : Z -> Z -> Env -> (Exn + Buffer) * Env;
  ModbusRTU_writeRegister : Z -> jsint -> Env -> (Exn + unit) * Env;
  mqtt_subscribe_error : string -> Env -> option Exn * Env
}.
Arguments Date_now {Env}.
Arguments ModbusRTU_isOpen {Env}.
Arguments ModbusRTU_close {Env}.
Arguments ModbusRTU_connectTCP {Env}.
Arguments ModbusRTU_readHoldingRegisters {Env}.
Arguments ModbusRTU_writeRegister {Env}.
Arguments mqtt_subscribe_error {Env}.

(** The state of the process: the outside world, [Poller.connected],
    [MqttClient.autoconfTimestamp] and what happened so far. *)
Record World (Env : Type) := mkWorld {
  env : Env;
  connected : bool;
  autoconfTimestamp : Z;
  trace : list Event
}.
Arguments mkWorld {Env}.
Arguments env {Env}.
Arguments connected {Env}.
Arguments autoconfTimestamp {Env}.
Arguments trace {Env}.

(* ------------------------------------------------------------------ *)
(** ** The monad of the process: state and exceptions *)

Definition M (Env A : Type) : Type := World Env -> (Exn + A) * World Env.

Definition ret {Env A} (a : A) : M Env A := fun w => (inr a, w).

Definition bind {Env A B} (m : M Env A) (k : A -> M Env B) : M Env B :=
  fun w => match m w with
           | (inr a, w') => k a w'
           | (inl e, w') => (inl e, w')
           end.

Definition throw {Env A} (e : Exn) : M Env A := fun w => (inl e, w).

(** [try { m } catch (e) { h e }]. *)
Definition try_catch {Env A} (m : M Env A) (h : Exn -> M Env A) : M Env A :=
  fun w => match m w with
           | (inr a, w') => (inr a, w')
           | (inl e, w') => h e w'
           end.

Declare Scope monad_scope.
Delimit Scope monad_scope with monad.
Notation "x <- c ;; k" := (bind c (fun x => k))
  (at level 61, c at next level, right associativity) : monad_scope.
Notation "c ;; k" := (bind c (fun _ => k))
  (at level 61, right associativity) : monad_scope.
Open Scope monad_scope.

Definition lift {Env A} (r : Exn + A) : M Env A := fun w => (r, w).

(** The world after one more event. *)
Definition push {Env} (e : Event) (w : World Env) : World Env :=
  mkWorld (env w) (connected w) (autoconfTimestamp w) (trace w ++ [e]).

(** Appends an event to the trace. *)
Definition record {Env} (e : Event) : M Env unit :=
  fun w => (inr tt, push e w).

(** A call to the outside world that returns a value. *)
Definition ask {Env A} (f : Env -> A * Env) : M Env A :=
  fun w => let '(a, e) := f (env w) in
           (inr a, mkWorld e (connected w) (autoconfTimestamp w) (trace w)).

(** A call to the outside world that returns or throws. *)
Definition call {Env A} (f : Env -> (Exn + A) * Env) : M Env A :=
  fun w => let '(r, e) := f (env w) in
           (r, mkWorld e (connected w) (autoconfTimestamp w) (trace w)).

Definition get_connected {Env} : M Env bool := fun w => (inr (connected w), w).

Definition set_connected {Env} (b : bool) : M Env unit :=
  fun w => (inr tt, mkWorld (env w) b (autoconfTimestamp w) (trace w)).

Definition get_autoconfTimestamp {Env} : M Env Z :=
  fun w => (inr (autoconfTimestamp w), w).

Definition set_autoconfTimestamp {Env} (t : Z) : M Env unit :=
  fun w => (inr tt, mkWorld (env w) (connected w) t (trace w)).

(** [l.forEach(f)]. *)
Fixpoint forEach {Env A} (l : list A) (f : A -> M Env unit) : M Env unit :=
  match l with
  | [] => ret tt
  | a :: l' => f a ;; forEach l' f
  end.

(** [Logger.info], [Logger.warn], [Logger.error]: the call is recorded with
    its arguments, an error argument as its message. *)
Definition Logger_info {Env} (args : list string) : M Env unit := record (Logger_log INFO args).
Definition Logger_warn {Env} (args : list string) : M Env unit := record (Logger_log WARN args).
Definition Logger_error {Env} (args : list string) : M Env unit := record (Logger_log ERROR args).

(* ------------------------------------------------------------------ *)
(** ** Poller *)

Section Poller.

Context {Env : Type} (ext : External Env).

(** [Number(process.env.POLL_INTERVAL) || 5000] and
    [Number(process.env.SLAVE_ID) || 1], as resolved by [initialize]
    (whole numbers). *)
Variables (interval slaveId : Z).

(** The listeners registered with [onData], in registration order. *)
Variable listeners : list (Snapshot -> M Env unit).

Definition connect : M Env unit :=
  try_catch
    (open <- ask (fun e => (ModbusRTU_isOpen ext e, e)) ;;
     (if open : bool
      then record modbus_close ;; ask (fun e => (tt, ModbusRTU_close ext e))
      else ret tt) ;;
     record modbus_connectTCP ;;
     call (ModbusRTU_connectTCP ext) ;;
     record (modbus_setID slaveId) ;;
     record (modbus_setTimeout 2000) ;;
     set_connected true ;;
     Logger_info ["Modbus connected"])
    (fun e =>
       Logger_error ["Modbus connection failed:"; e] ;;
       set_connected false).

Definition readBlock (start length : Z) : M Env Buffer :=
  record (modbus_readHoldingRegisters start length) ;;
  call (ModbusRTU_readHoldingRegisters ext start length).

Definition writeRegister (address : Z) (value : jsint) : M Env unit :=
  c <- get_connected ;;
  if negb c then throw "Not connected" else
  Logger_info ["Writing " +++ jsint_toString value +++ " to register " +++ Z_toString address] ;;
  record (modbus_writeRegister address value) ;;
  call (ModbusRTU_writeRegister ext address value).

Definition emitData (data : Snapshot) : M Env unit :=
  record (eventEmitter_emit data) ;;
  forEach listeners (fun listener => listener data).

(** The reads and decodes of [poll], up to the call of [emitData]. *)
Definition poll_data : M Env Snapshot :=
  let data : Snapshot := [] in

  power <- readBlock 30001 6 ;;
  v <- lift (readInt16BE power 0) ;;
  let data := set_prop "battery_power" (Z2float v) data in
  v <- lift (readInt16BE power 10) ;;
  let data := set_prop "ac_power" (Z2float v) data in

  bat <- readBlock 30100 2 ;;
  v <- lift (readUInt16BE bat 0) ;;
  let data := set_prop "battery_voltage" (Z2float v * 0.01)%float data in
  v <- lift (readInt16BE bat 2) ;;
  let data := set_prop "battery_current" (Z2float v * 0.1)%float data in

  b <- readBlock 32105 1 ;;
  v <- lift (readUInt16BE b 0) ;;
  let data := set_prop "battery_design_capacity" (Z2float v * 0.001)%float data in

  ac <- readBlock 32200 5 ;;
  v <- lift (readUInt16BE ac 0) ;;
  let data := set_prop "ac_voltage" (Z2float v * 0.1)%float data in
  v <- lift (readInt16BE ac 8) ;;
  let data := set_prop "ac_frequency" (Z2float v * 0.1)%float data in

  soc <- readBlock 37004 5 ;;
  v <- lift (readInt16BE soc 0) ;;
  let data := set_prop "ac_current" (Z2float v * 0.004)%float data in
  v <- lift (readUInt16BE soc 2) ;;
  let data := set_prop "soc" (Z2float v) data in
  v <- lift (readUInt16BE soc 6) ;;
  let data := set_prop "max_cell_voltage" (Z2float v * 0.001)%float data in
  v <- lift (readUInt16BE soc 8) ;;
  let data := set_prop "min_cell_voltage" (Z2float v * 0.001)%float data in

  nrg <- readBlock 33000 4 ;;
  v <- lift (readUInt32BE nrg 0) ;;
  let data := set_prop "total_energy_in" (Z2float v * 0.01)%float data in
  v <- lift (readInt32BE nrg 4) ;;
  let data := set_prop "total_energy_out" (Z2float v * 0.01)%float data in

  temp <- readBlock 35000 3 ;;
  v <- lift (readInt16BE temp 0) ;;
  let data := set_prop "internal_temperature" (Z2float v * 0.1)%float data in
  v <- lift (readInt16BE temp 2) ;;
  let data := set_prop "internal_mos1_temperature" (Z2float v * 0.1)%float data in
  v <- lift (readInt16BE temp 4) ;;
  let data := set_prop "internal_mos2_temperature" (Z2float v * 0.1)%float data in

  temp2 <- readBlock 35010 2 ;;
  v <- lift (readInt16BE temp2 0) ;;
  let data := set_prop "max_cell_temperature" (Z2float v * 0.1)%float data in
  v <- lift (readInt16BE temp2 0) ;;
  let data := set_prop "min_cell_temperature" (Z2float v * 0.1)%float data in

  b <- readBlock 35100 1 ;;
  v <- lift (readUInt16BE b 0) ;;
  let data := set_prop "inverter_state" (Z2float v) data in
  b <- readBlock 41200 1 ;;
  v <- lift (readUInt16BE b 0) ;;
  let data := set_prop "backup_function" (Z2float v) data in

  ctrl1 <- readBlock 42010 2 ;;
  v <- lift (readUInt16BE ctrl1 0) ;;
  let data := set_prop "force_mode" (Z2float v) data in
  v <- lift (readUInt16BE ctrl1 2) ;;
  let data := set_prop "charge_to_soc" (Z2float v) data in

  ctrl2 <- readBlock 42020 2 ;;
  v <- lift (readUInt16BE ctrl2 0) ;;
  let data := set_prop "set_charge_power" (Z2float v) data in
  v <- lift (readUInt16BE ctrl2 2) ;;
  let data := set_prop "set_discharge_power" (Z2float v) data in

  b <- readBlock 43000 1 ;;
  v <- lift (readUInt16BE b 0) ;;
  let data := set_prop "user_work_mode" (Z2float v) data in

  ret data.

Definition poll : M Env unit :=
  data <- poll_data ;;
  emitData data.

(** The first statement of [pollingLoop]:
    [if (!this.connected) await connect()]. *)
Definition reconnect : M Env unit :=
  c <- get_connected ;;
  if negb c then connect else ret tt.

(** One run of [pollingLoop]; the result is the delay handed to
    [setTimeout] for the next run.  [%] is the remainder with the sign of the
    dividend, [Z.rem]. *)
Definition pollingLoop : M Env Z :=
  reconnect ;;
  c <- get_connected ;;
  (if c
   then try_catch poll
          (fun err =>
             Logger_warn ["Error during poll cycle"; err] ;;
             set_connected false)
   else ret tt) ;;
  now <- ask (Date_now ext) ;;
  let delay := interval - Z.rem now interval in
  record (setTimeout delay) ;;
  ret delay.

(** The first [n] runs of the loop, each started by the timer of the one
    before. *)
Fixpoint loop (n : nat) : M Env unit :=
  match n with
  | O => ret tt
  | S n' => pollingLoop ;; loop n'
  end.

(** [process.env.POLL_IP], which [initialize] found set, and
    [Number(process.env.POLL_PORT) || 502] (a whole number). *)
Variables (POLL_IP : string) (port : Z).

(** [initialize], after the check of [POLL_IP], for [n] runs of the loop. *)
Definition Poller_initialize (n : nat) : M Env unit :=
  Logger_info ["Initializing Poller: " +++ POLL_IP +++ ":" +++ Number_toString port
               +++ " ID:" +++ Number_toString slaveId
               +++ " Interval:" +++ Number_toString interval +++ "ms"] ;;
  connect ;;
  loop n.

End Poller.

(* ------------------------------------------------------------------ *)
(** ** MqttClient *)

(** The [options] argument of [makeConfig]. *)
Record ConfigOptions := {
  opt_min : option Z;
  opt_max : option Z;
  opt_step : option Z
}.

Definition no_options : ConfigOptions :=
  {| opt_min := None; opt_max := None; opt_step := None |}.

Section MqttClient.

Context {Env : Type} (ext : External Env).

(** [this.identifier], which is [process.env.IDENTIFIER || "One"]. *)
Variable identifier : string.

(** [process.env.POLL_INTERVAL]. *)
Variable POLL_INTERVAL : option string.

(** The handler of the client's [connect] event, set up by [initialize]. *)
Definition on_connect : M Env unit :=
  Logger_info ["Connected to MQTT broker"] ;;
  let commandTopic := MqttClient_TOPIC_PREFIX +++ "/" +++ identifier +++ "/set/#" in
  record (mqtt_subscribe commandTopic) ;;
  err <- ask (mqtt_subscribe_error ext commandTopic) ;;
  match err with
  | Some e => Logger_error ["Failed to subscribe to commands"; e]
  | None => Logger_info ["Subscribed to commands: " +++ commandTopic]
  end.

Definition writeToDevice (register : Z) (value : jsint) : M Env unit :=
  try_catch
    (writeRegister ext register value ;;
     Logger_info ["Successfully wrote " +++ jsint_toString value
                  +++ " to register " +++ Z_toString register])
    (fun err => Logger_error ["Failed to write to register " +++ Z_toString register; err]).

(** The handler of the client's [message] event. *)
Definition handleCommand (topic message : string) : M Env unit :=
  try_catch
    (let parts := split "/" topic in
     if negb (Nat.eqb (List.length parts) 4) || negb (String.eqb (nth 2 parts "") "set")
     then ret tt else
     let key := nth 3 parts "" in
     let value := message in
     Logger_info ["Received command for " +++ key +++ ": " +++ value] ;;
     match js_get CONTROLS key with
     | Undefined =>
         Logger_warn ["Unknown control key: " +++ key]
     | Inherited =>
         (* truthy, and its [type] is neither "select" nor "number" *)
         ret tt
     | Own (select register map) =>
         match keyForLabel map value with
         | Some intVal => writeToDevice register (parseInt intVal None)
         | None =>
             Logger_warn ["Invalid option '" +++ value +++ "' for " +++ key
                          +++ ". Expected: " +++ join ", " (Object_values map)]
         end
     | Own (number register) =>
         let intVal := parseInt value (Some 10) in
         if isNaN intVal
         then Logger_warn ["Invalid number '" +++ value +++ "' for " +++ key]
         else writeToDevice register intVal
     end)
    (fun e => Logger_error ["Error processing command"; e]).

(** [Math.ceil((parseInt(process.env.POLL_INTERVAL) || 5000) / 1000) * 2 + 5],
    in the arithmetic of doubles; [Infinity] when the interval parsed is
    (a number [JSON.stringify] writes as [null]). *)
Definition expire_after : Z :=
  let p := match parseInt (match POLL_INTERVAL with Some s => s | None => "undefined" end) None with
           | Int z => if z =? 0 then 5000 else z
           | NaN => 5000
           end in
  toDouble (toDouble (Math_ceil_div p 1000 * 2) + 5).

Definition truthy (s : option string) : bool :=
  match s with
  | Some s => negb (String.eqb s "")
  | None => false
  end.

Definition set_if (c : bool) (k : string) (v : json) (o : Obj json) : Obj json :=
  if c then set_prop k v o else o.

(** The retained message [makeConfig] publishes for one key. *)
Definition discoveryMessage (device : json) (key name : string)
    (unit devClass stateClass : option string)
    (type : string) (options : ConfigOptions) : Event :=
  let discoveryTopic :=
    "homeassistant/" +++ type +++ "/marstek2mqtt_" +++ identifier +++ "/" +++ key +++ "/config" in
  let str (s : option string) := JString (match s with Some s => s | None => "" end) in
  let num (z : option Z) := JNumber (match z with Some z => z | None => 0 end) in
  let payload : Obj json :=
    [ ("name", JString name);
      ("unique_id", JString ("marstek2mqtt_" +++ identifier +++ "_" +++ key));
      ("state_topic", JString (MqttClient_TOPIC_PREFIX +++ "/" +++ identifier +++ "/" +++ key));
      ("device", device);
      ("enabled_by_default", JBool true) ] in
  let payload :=
    if String.eqb type "sensor" then
      let payload := set_if (truthy unit) "unit_of_measurement" (str unit) payload in
      let payload := set_if (truthy devClass) "device_class" (str devClass) payload in
      let payload := set_if (truthy stateClass) "state_class" (str stateClass) payload in
      set_prop "expire_after" (JNumber expire_after) payload
    else
      let payload :=
        set_prop "command_topic"
          (JString (MqttClient_TOPIC_PREFIX +++ "/" +++ identifier +++ "/set/" +++ key)) payload in
      let payload :=
        set_if (match opt_min options with Some _ => true | None => false end)
          "min" (num (opt_min options)) payload in
      let payload :=
        set_if (match opt_max options with Some _ => true | None => false end)
          "max" (num (opt_max options)) payload in
      let payload :=
        set_if (match opt_step options with Some s => negb (s =? 0) | None => false end)
          "step" (num (opt_step options)) payload in
      let payload :=
        match String.eqb type "select", js_get CONTROLS key with
        | true, Own (select _ map) =>
            set_prop "options" (JArray (List.map JString (Object_values map))) payload
        | _, _ => payload
        end in
      set_if (truthy unit) "unit_of_measurement" (str unit) payload in
  mqtt_publish discoveryTopic (stringify (JObject payload)) true.

Definition makeConfig (device : json) (key name : string)
    (unit devClass stateClass : option string)
    (type : string) (options : ConfigOptions) : M Env Datatypes.unit :=
  record (discoveryMessage device key name unit devClass stateClass type options).

Definition ensureAutoconf : M Env unit :=
  now <- ask (Date_now ext) ;;
  autoconfTimestamp <- get_autoconfTimestamp ;;
  (* Republish every 4 hours *)
  if now - autoconfTimestamp <=? 4 * 60 * 60 * 1000 then ret tt else
  let device :=
    JObject [ ("manufacturer", JString "Marstek");
              ("model", JString "Venus");
              ("name", JString ("Marstek Venus " +++ identifier));
              ("identifiers", JArray [JString ("marstek2mqtt_" +++ identifier)]) ] in
  let makeConfig := makeConfig device in
  let measurement := Some "measurement" in
  makeConfig "ac_power" "AC Power" (Some "W") (Some "power") measurement "sensor" no_options ;;
  makeConfig "battery_power" "Battery Power" (Some "W") (Some "power") measurement "sensor" no_options ;;
  makeConfig "battery_voltage" "Battery Voltage" (Some "V") (Some "voltage") measurement "sensor" no_options ;;
  makeConfig "battery_current" "Battery Current" (Some "A") (Some "current") measurement "sensor" no_options ;;
  makeConfig "ac_voltage" "AC Voltage" (Some "V") (Some "voltage") measurement "sensor" no_options ;;
  makeConfig "ac_current" "AC Current" (Some "A") (Some "current") measurement "sensor" no_options ;;
  makeConfig "ac_frequency" "AC Frequency" (Some "Hz") (Some "frequency") measurement "sensor" no_options ;;
  makeConfig "soc" "State of Charge" (Some "%") (Some "battery") measurement "sensor" no_options ;;

  makeConfig "total_energy_in" "Total Energy In" (Some "kWh") (Some "energy")
    (Some "total_increasing") "sensor" no_options ;;
  makeConfig "total_energy_out" "Total Energy Out" (Some "kWh") (Some "energy")
    (Some "total_increasing") "sensor" no_options ;;
  makeConfig "internal_temperature" "Internal Temp" (Some "°C") (Some "temperature")
    measurement "sensor" no_options ;;

  makeConfig "inverter_state" "Inverter State" None None None "sensor" no_options ;;

  makeConfig "set_charge_power" "Set Charge Power" (Some "W") None None "number"
    {| opt_min := Some 0; opt_max := Some 2500; opt_step := Some 50 |} ;;
  makeConfig "set_discharge_power" "Set Discharge Power" (Some "W") None None "number"
    {| opt_min := Some 0; opt_max := Some 2500; opt_step := Some 50 |} ;;
  makeConfig "charge_to_soc" "Charge to SOC" (Some "%") None None "number"
    {| opt_min := Some 10; opt_max := Some 100; opt_step := Some 1 |} ;;

  makeConfig "user_work_mode" "User Work Mode" None None None "select" no_options ;;
  makeConfig "force_mode" "Force Mode" None None None "select" no_options ;;
  makeConfig "backup_function" "Backup Function" None None None "select" no_options ;;

  now <- ask (Date_now ext) ;;
  set_autoconfTimestamp now.

(** The label of [value] in [map], or [value] itself with a warning. *)
Definition translate (map : CodeMap) (key : string) (value : float) (table : string)
  : M Env Text :=
  match labelForCode map value with
  | Some label => ret [chars label]
  | None =>
      record (Logger_log_template WARN
                [chars "Value "; digits value;
                 chars (" for " +++ key +++ " not found in " +++ table)]) ;;
      ret [digits value]
  end.

Definition handleData (data : Snapshot) : M Env unit :=
  ensureAutoconf ;;
  let baseTopic := MqttClient_TOPIC_PREFIX +++ "/" +++ identifier in
  forEach data (fun '(key, value) =>
    payload <-
      match js_get CONTROLS key with
      | Own (select _ map) => translate map key value "control map"
      | _ =>
          match js_get READ_ONLY_LOOKUPS key with
          | Own map => translate map key value "lookup map"
          | Inherited =>
              (* [readOnly[key].map] is [undefined]; the message goes on
                 with the property read *)
              throw "Cannot read properties of undefined"
          | Undefined => ret [digits value]
          end
      end ;;
    record (mqtt_publish (baseTopic +++ "/" +++ key) (template payload) false)).

End MqttClient.

(** The listener the constructor of [MqttClient] registers with
    [poller.onData]. *)
Definition onData_listeners {Env : Type} (ext : External Env)
    (identifier : string) (POLL_INTERVAL : option string)
  : list (Snapshot -> M Env unit) :=
  [ handleData ext identifier POLL_INTERVAL ].

(* ------------------------------------------------------------------ *)
(** ** A simulated outside world, for the examples *)

(** A device that answers every read with the registers it holds
    ([holds a] is the 16-bit content of register [a]), unless it is
    unreachable; the clock advances by [step] at every reading. *)
Record Device := {
  clock : Z;
  step : Z;
  reachable : bool;
  opened : bool;
  holds : Z -> Z
}.

Definition byte_of_Z (z : Z) : Byte.byte :=
  match Byte.of_N (Z.to_N (z mod 256)) with
  | Some b => b
  | None => Byte.x00
  end.

Fixpoint registers_buffer (holds : Z -> Z) (start : Z) (n : nat) : Buffer :=
  match n with
  | O => []
  | S n' => byte_of_Z (holds start / 256) :: byte_of_Z (holds start)
            :: registers_buffer holds (start + 1) n'
  end.

Definition simulated : External Device := {|
  Date_now := fun d =>
    (clock d, {| clock := clock d + step d; step := step d; reachable := reachable d;
                 opened := opened d; holds := holds d |});
  ModbusRTU_isOpen := opened;
  ModbusRTU_close := fun d =>
    {| clock := clock d; step := step d; reachable := reachable d;
       opened := false; holds := holds d |};
  ModbusRTU_connectTCP := fun d =>
    if reachable d
    then (inr tt, {| clock := clock d; step := step d; reachable := true;
                     opened := true; holds := holds d |})
    else (inl "connect ECONNREFUSED", d);
  ModbusRTU_readHoldingRegisters := fun start length d =>
    if reachable d
    then (inr (registers_buffer (holds d) start (Z.to_nat length)), d)
    else (inl "Timed out", d);
  ModbusRTU_writeRegister := fun address value d =>
    if reachable d then (inr tt, d) else (inl "Timed out", d);
  mqtt_subscribe_error := fun topic d => (None, d)
|}.

(** The same device behind a link that cuts the answer to the read at
    37004 one byte short. *)
Definition truncating : External Device := {|
  Date_now := Date_now simulated;
  ModbusRTU_isOpen := ModbusRTU_isOpen simulated;
  ModbusRTU_close := ModbusRTU_close simulated;
  ModbusRTU_connectTCP := ModbusRTU_connectTCP simulated;
  ModbusRTU_readHoldingRegisters := fun start length d =>
    match ModbusRTU_readHoldingRegisters simulated start length d with
    | (inr b, d') => (inr (if start =? 37004 then removelast b else b), d')
    | r => r
    end;
  ModbusRTU_writeRegister := ModbusRTU_writeRegister simulated;
  mqtt_subscribe_error := mqtt_subscribe_error simulated
|}.

Definition device (now : Z) (reachable : bool) : Device :=
  {| clock := now; step := 1000; reachable := reachable; opened := false;
     holds := fun a => a mod 7 |}.

(** A world at time [now] in which nothing happened yet. *)
Definition world (now : Z) (reachable connected : bool) (autoconfTimestamp : Z)
  : World Device :=
  mkWorld (device now reachable) connected autoconfTimestamp [].

(* ------------------------------------------------------------------ *)
(** ** Observations on traces *)

(** The events of [w'] that came after those of [w]. *)
Definition events_since {Env} (w w' : World Env) : list Event :=
  skipn (List.length (trace w)) (trace w').

(** The events selected by [sel], in order. *)
Fixpoint collect {X : Type} (sel : Event -> option X) (evs : list Event) : list X :=
  match evs with
  | [] => []
  | e :: evs' =>
      match sel e with
      | Some x => x :: collect sel evs'
      | None => collect sel evs'
      end
  end.

Definition is_emit (e : Event) : option Snapshot :=
  match e with eventEmitter_emit data => Some data | _ => None end.

Definition is_subscribe (e : Event) : option string :=
  match e with mqtt_subscribe topic => Some topic | _ => None end.

Definition is_discovery (e : Event) : option (string * json) :=
  match e with mqtt_publish topic (stringify j) true => Some (topic, j) | _ => None end.

Definition is_telemetry (e : Event) : option (string * Text) :=
  match e with mqtt_publish topic (template t) false => Some (topic, t) | _ => None end.

Definition is_write (e : Event) : option (Z * jsint) :=
  match e with modbus_writeRegister address value => Some (address, value) | _ => None end.

Definition is_warning (e : Event) : option (list string) :=
  match e with Logger_log WARN args => Some args | _ => None end.

(** The snapshots handed to the listeners. *)
Definition emitted : list Event -> list Snapshot := collect is_emit.

(** The topic patterns subscribed to. *)
Definition subscriptions : list Event -> list string := collect is_subscribe.

(** The retained discovery messages published. *)
Definition discovery : list Event -> list (string * json) := collect is_discovery.

(** The telemetry messages published. *)
Definition telemetry : list Event -> list (string * Text) := collect is_telemetry.

(** The register writes handed to the Modbus client. *)
Definition writes : list Event -> list (Z * jsint) := collect is_write.

(** The warnings logged. *)
Definition warnings : list Event -> list (list string) := collect is_warning.

(** [w'] has the trace of [w] and then events that [sel] does not select. *)
Definition grows {Env X} (sel : Event -> option X) (w w' : World Env) : Prop :=
  exists evs, trace w' = trace w ++ evs /\ collect sel evs = [].

(** [w'] has the discovery timestamp of [w]. *)
Definition same_timestamp {Env} (w w' : World Env) : Prop :=
  autoconfTimestamp w' = autoconfTimestamp w.

(** Every run of [m] takes a world to one related by [R]. *)
Definition respects {Env A} (R : World Env -> World Env -> Prop) (m : M Env A) : Prop :=
  forall w r w', m w = (r, w') -> R w w'.

(** The fields of a snapshot, in the order [poll] assigns them. *)
Definition POLL_KEYS : list string :=
  [ "battery_power"; "ac_power"; "battery_voltage"; "battery_current";
    "battery_design_capacity"; "ac_voltage"; "ac_frequency"; "ac_current";
    "soc"; "max_cell_voltage"; "min_cell_voltage"; "total_energy_in";
    "total_energy_out"; "internal_temperature"; "internal_mos1_temperature";
    "internal_mos2_temperature"; "max_cell_temperature"; "min_cell_temperature";
    "inverter_state"; "backup_function"; "force_mode"; "charge_to_soc";
    "set_charge_power"; "set_discharge_power"; "user_work_mode" ].

(** Four hours, in milliseconds. *)
Definition REPUBLISH_INTERVAL : Z := 4 * 60 * 60 * 1000.


(* ------------------------------------------------------------------ *)
(** ** More observations on traces *)

Definition is_connect (e : Event) : option unit :=
  match e with modbus_connectTCP => Some tt | _ => None end.

Definition is_read (e : Event) : option (Z * Z) :=
  match e with modbus_readHoldingRegisters start length => Some (start, length) | _ => None end.

Definition is_timer (e : Event) : option Z :=
  match e with setTimeout delay => Some delay | _ => None end.

Definition is_not_warning (e : Event) : option Event :=
  match e with
  | Logger_log WARN _ => None
  | Logger_log_template WARN _ => None
  | _ => Some e
  end.

(** The connection attempts made. *)
Definition connects : list Event -> list unit := collect is_connect.

(** The blocks asked of the Modbus client, as (start, count). *)
Definition reads : list Event -> list (Z * Z) := collect is_read.

(** The timers set. *)
Definition timers : list Event -> list Z := collect is_timer.

(** The blocks [poll] reads, in the order it reads them. *)
Definition POLL_BLOCKS : list (Z * Z) :=
  [ (30001, 6); (30100, 2); (32105, 1); (32200, 5); (37004, 5); (33000, 4);
    (35000, 3); (35010, 2); (35100, 1); (41200, 1); (42010, 2); (42020, 2);
    (43000, 1) ].

(** The event of reading a block. *)
Definition read_event (block : Z * Z) : Event :=
  modbus_readHoldingRegisters (fst block) (snd block).

(** The simulated device behind a link that never fails. *)
Definition answering : External Device := {|
  Date_now := Date_now simulated;
  ModbusRTU_isOpen := ModbusRTU_isOpen simulated;
  ModbusRTU_close := ModbusRTU_close simulated;
  ModbusRTU_connectTCP := ModbusRTU_connectTCP simulated;
  ModbusRTU_readHoldingRegisters := fun start length d =>
    (inr (registers_buffer (holds d) start (Z.to_nat length)), d);
  ModbusRTU_writeRegister := ModbusRTU_writeRegister simulated;
  mqtt_subscribe_error := mqtt_subscribe_error simulated
|}.

(** The double of [c] holds the integer [c] again. *)
Definition integer_kept (c : Z) : bool :=
  match float_integer (Z2float c) with
  | Some z => z =? c
  | None => false
  end.

(** [integer_kept] on the [n] integers from [c] on. *)
Fixpoint integers_kept (n : nat) (c : Z) : bool :=
  match n with
  | O => true
  | S n' => integer_kept c && integers_kept n' (c + 1)
  end.

Definition is_template_warning (e : Event) : option Text :=
  match e with Logger_log_template WARN message => Some message | _ => None end.

(** The warnings logged with a number in the message. *)
Definition template_warnings : list Event -> list Text := collect is_template_warning.

(** [w'] has the link state of [w]. *)
Definition same_connected {Env} (w w' : World Env) : Prop :=
  connected w' = connected w.

(** The callback [handleData] runs on each entry of the snapshot. *)
Definition publishEntry {Env : Type} (identifier : string) : string * float -> M Env unit :=
  fun '(key, value) =>
    payload <-
      match js_get CONTROLS key with
      | Own (select _ map) => translate map key value "control map"
      | _ =>
          match js_get READ_ONLY_LOOKUPS key with
          | Own map => translate map key value "lookup map"
          | Inherited => throw "Cannot read properties of undefined"
          | Undefined => ret [digits value]
          end
      end ;;
    record (mqtt_publish (MqttClient_TOPIC_PREFIX +++ "/" +++ identifier +++ "/" +++ key)
              (template payload) false).

(** The [payload] the callback of [handleData] publishes for an entry whose
    key is no inherited name: the label of the value in the code table of
    the key, and the value itself when the key has no table or the table
    lacks the value. *)
Definition publishedPayload (key : string) (value : float) : Text :=
  let rendered (map : CodeMap) :=
    match labelForCode map value with
    | Some label => [chars label]
    | None => [digits value]
    end in
  match js_get CONTROLS key with
  | Own (select _ map) => rendered map
  | _ =>
      match js_get READ_ONLY_LOOKUPS key with
      | Own map => rendered map
      | _ => [digits value]
      end
  end.

(** The topic [handleData] publishes the value of [key] on. *)
Definition stateTopic (identifier key : string) : string :=
  MqttClient_TOPIC_PREFIX +++ "/" +++ identifier +++ "/" +++ key.

(** [j[k]] for a JSON value. *)
Definition json_field (k : string) (j : json) : option json :=
  match j with
  | JObject o => assoc k o
  | _ => None
  end.

(** The [device] object of [ensureAutoconf]. *)
Definition autoconfDevice (identifier : string) : json :=
  JObject [ ("manufacturer", JString "Marstek");
            ("model", JString "Venus");
            ("name", JString ("Marstek Venus " +++ identifier));
            ("identifiers", JArray [JString ("marstek2mqtt_" +++ identifier)]) ].

(** The arguments of one call of [makeConfig]. *)
Record Config := {
  cfg_key : string;
  cfg_name : string;
  cfg_unit : option string;
  cfg_devClass : option string;
  cfg_stateClass : option string;
  cfg_type : string;
  cfg_options : ConfigOptions
}.

(** The calls of [makeConfig] in [ensureAutoconf], in order. *)
Definition AUTOCONF : list Config :=
  let measurement := Some "measurement" in
  let sensor key name unit devClass stateClass :=
    {| cfg_key := key; cfg_name := name; cfg_unit := unit; cfg_devClass := devClass;
       cfg_stateClass := stateClass; cfg_type := "sensor"; cfg_options := no_options |} in
  let control key name unit type options :=
    {| cfg_key := key; cfg_name := name; cfg_unit := unit; cfg_devClass := None;
       cfg_stateClass := None; cfg_type := type; cfg_options := options |} in
  [ sensor "ac_power" "AC Power" (Some "W") (Some "power") measurement;
    sensor "battery_power" "Battery Power" (Some "W") (Some "power") measurement;
    sensor "battery_voltage" "Battery Voltage" (Some "V") (Some "voltage") measurement;
    sensor "battery_current" "Battery Current" (Some "A") (Some "current") measurement;
    sensor "ac_voltage" "AC Voltage" (Some "V") (Some "voltage") measurement;
    sensor "ac_current" "AC Current" (Some "A") (Some "current") measurement;
    sensor "ac_frequency" "AC Frequency" (Some "Hz") (Some "frequency") measurement;
    sensor "soc" "State of Charge" (Some "%") (Some "battery") measurement;
    sensor "total_energy_in" "Total Energy In" (Some "kWh") (Some "energy")
      (Some "total_increasing");
    sensor "total_energy_out" "Total Energy Out" (Some "kWh") (Some "energy")
      (Some "total_increasing");
    sensor "internal_temperature" "Internal Temp" (Some "°C") (Some "temperature") measurement;
    sensor "inverter_state" "Inverter State" None None None;
    control "set_charge_power" "Set Charge Power" (Some "W") "number"
      {| opt_min := Some 0; opt_max := Some 2500; opt_step := Some 50 |};
    control "set_discharge_power" "Set Discharge Power" (Some "W") "number"
      {| opt_min := Some 0; opt_max := Some 2500; opt_step := Some 50 |};
    control "charge_to_soc" "Charge to SOC" (Some "%") "number"
      {| opt_min := Some 10; opt_max := Some 100; opt_step := Some 1 |};
    control "user_work_mode" "User Work Mode" None "select" no_options;
    control "force_mode" "Force Mode" None "select" no_options;
    control "backup_function" "Backup Function" None "select" no_options ].

(** The message [makeConfig] publishes for the arguments [c]. *)
Definition autoconfMessage (identifier : string) (POLL_INTERVAL : option string) (c : Config)
  : Event :=
  discoveryMessage identifier POLL_INTERVAL (autoconfDevice identifier)
    (cfg_key c) (cfg_name c) (cfg_unit c) (cfg_devClass c) (cfg_stateClass c)
    (cfg_type c) (cfg_options c).

(* ------------------------------------------------------------------ *)
(** ** Logger *)

Module Logger.

(** The functions of [console] the levels call. *)
Inductive Console := console_debug | console_info | console_warn | console_error.

(** An entry of [Logger.LogLevels]. *)
Record Level := { level : Z; callback : Console }.

Definition LogLevels : Obj Level :=
  [ ("trace", {| level := -2; callback := console_debug |});
    ("debug", {| level := -1; callback := console_debug |});
    ("info", {| level := 0; callback := console_info |});
    ("warn", {| level := 1; callback := console_warn |});
    ("error", {| level := 2; callback := console_error |}) ].

(** [this.logLevel]: what a property read of [LogLevels] gave. *)
Definition State := Lookup Level.

(** The constructor. *)
Definition initial : State := js_get LogLevels "info".

Definition Console_eqb (a b : Console) : bool :=
  match a, b with
  | console_debug, console_debug | console_info, console_info
  | console_warn, console_warn | console_error, console_error => true
  | _, _ => false
  end.

(** [entry === this.logLevel] for an entry of [LogLevels]: the entries are
    objects that differ from one another and from every inherited value. *)
Definition strict_equal (entry : Level) (st : State) : bool :=
  match st with
  | Own l => (level entry =? level l) && Console_eqb (callback entry) (callback l)
  | _ => false
  end.

Definition getLogLevel (st : State) : option string :=
  find (fun key => match js_get LogLevels key with
                   | Own entry => strict_equal entry st
                   | _ => false
                   end) (Object_keys LogLevels).

Definition setLogLevel (value : string) (st : State) : Exn + State :=
  match js_get LogLevels value with
  | Undefined =>
      inl ("Invalid log level '" +++ value +++ "', valid are '"
           +++ join "','" (Object_keys LogLevels) +++ "'")
  | found => inr found
  end.

(** [s.toUpperCase()] on a text of ASCII characters. *)
Definition toUpperCase (s : string) : string :=
  string_of_list_ascii
    (List.map (fun c => let n := nat_of_ascii c in
                        if (Nat.leb 97 n && Nat.leb n 122)%bool
                        then ascii_of_nat (n - 32) else c)
       (list_ascii_of_string s)).

(** [buildLogLinePrefix]; [iso] is [new Date().toISOString()]. *)
Definition buildLogLinePrefix (iso logLevel : string) : string :=
  "[" +++ iso +++ "] [" +++ logLevel +++ "]".

(** [log(level, ...args)] for arguments that are strings, with the level
    named [name]: the function of [console] called and the line handed to
    it, if any. *)
Definition log (iso name : string) (args : list string) (st : State)
  : Exn + option (Console * string) :=
  match st with
  | Undefined => inl "Cannot read properties of undefined (reading 'level')"
  | _ =>
      match js_get LogLevels name with
      | Undefined => inl "Cannot read properties of undefined (reading 'level')"
      | Inherited => inr None
      | Own entry =>
          match st with
          | Own current =>
              if level current <=? level entry
              then inr (Some (callback entry,
                              join " " (buildLogLinePrefix iso (toUpperCase name) :: args)))
              else inr None
          | _ => inr None
          end
      end
  end.

End Logger.

(* ------------------------------------------------------------------ *)
(** ** The earlier [MqttClient] *)

Module Legacy.

(** An entry of [MqttClient.LOOKUP_TABLES]; [inverter_state] has no
    [register]. *)
Record Mapping := { register : option Z; map : CodeMap }.

Definition LOOKUP_TABLES : Obj Mapping :=
  [ ("user_work_mode",
     {| register := Some 43000; map := [("0", "Manual"); ("1", "Anti-Feed"); ("2", "Trade")] |});
    ("force_mode",
     {| register := Some 42010; map := [("0", "Stop"); ("1", "Charge"); ("2", "Discharge")] |});
    ("backup_function",
     {| register := Some 41200; map := [("0", "Enable"); ("1", "Disable")] |});
    ("inverter_state",
     {| register := None;
        map := [("0", "Sleep"); ("1", "Standby"); ("2", "Charge"); ("3", "Discharge");
                ("4", "Backup"); ("5", "OTA"); ("6", "Bypass")] |}) ].

(** [MqttClient.NUMBER_CONTROLS], by the [register] of each entry. *)
Definition NUMBER_CONTROLS : Obj Z :=
  [ ("set_charge_power", 42020);
    ("set_discharge_power", 42021);
    ("charge_to_soc", 42011) ].

Section MqttClient.

Context {Env : Type} (ext : External Env).

(** The handler of the client's [message] event. *)
Definition handleCommand (topic message : string) : M Env unit :=
  try_catch
    (let parts := split "/" topic in
     if negb (Nat.eqb (List.length parts) 4) || negb (String.eqb (nth 2 parts "") "set")
     then ret tt else
     let key := nth 3 parts "" in
     let value := message in
     Logger_info ["Received command for " +++ key +++ ": " +++ value] ;;
     match js_get LOOKUP_TABLES key with
     | Own {| register := None |} | Inherited =>
         (* [mapping.register === undefined] *)
         Logger_warn [key +++ " is read-only"]
     | Own {| register := Some register; map := map |} =>
         match keyForLabel map value with
         | Some intVal => writeToDevice ext register (parseInt intVal None)
         | None =>
             Logger_warn ["Invalid option string '" +++ value +++ "' for " +++ key
                          +++ ". Expected: " +++ join ", " (Object_values map)]
         end
     | Undefined =>
         (* [key] is no inherited name here, so [NUMBER_CONTROLS[key]] is an
            entry or [undefined] *)
         match assoc key NUMBER_CONTROLS with
         | Some register =>
             let intVal := parseInt value (Some 10) in
             if isNaN intVal
             then Logger_warn ["Invalid number '" +++ value +++ "' for " +++ key]
             else writeToDevice ext register intVal
         | None => Logger_warn ["Unknown control key: " +++ key]
         end
     end)
    (fun e => Logger_error ["Error processing command"; e]).

End MqttClient.

End Legacy.

(* ------------------------------------------------------------------ *)
(** ** A base-10 integer, as the specification has it *)

Definition isDecimalDigit (c : ascii) : bool :=
  let n := Z.of_N (N_of_ascii c) in (48 <=? n) && (n <=? 57).

(** The value of a text of decimal digits, continuing [acc]. *)
Fixpoint decimalValue (s : string) (acc : Z) : option Z :=
  match s with
  | EmptyString => Some acc
  | String c r =>
      if isDecimalDigit c
      then decimalValue r (acc * 10 + (Z.of_N (N_of_ascii c) - 48))
      else None
  end.

Definition unsignedDecimal (s : string) : option Z :=
  match s with
  | EmptyString => None
  | _ => decimalValue s 0
  end.

(** The integer a payload is when it is a base-10 integer and no more: a
    sign or none, then one decimal digit or several, to the end of the
    text.  This is the reading of the specification's "parse the string as
    a base-10 integer", set against [parseInt] below. *)
Definition spec_base10_integer (s : string) : option Z :=
  match s with
  | String "-" r => option_map Z.opp (unsignedDecimal r)
  | String "+" r => unsignedDecimal r
  | _ => unsignedDecimal s
  end.

(** The text [parseInt] reads digits from: [s] without white space at the
    start and without a sign. *)
Definition afterSign (s : string) : string :=
  match trimStart s with
  | String "-" r => r
  | String "+" r => r
  | S0 => S0
  end.

(* ------------------------------------------------------------------ *)
(** ** Codes and labels *)

Lemma to_int_nonnil (z : Z) :
  Z.to_int z <> Decimal.Pos Decimal.Nil /\ Z.to_int z <> Decimal.Neg Decimal.Nil.
Proof.
  destruct z; simpl; split; intros H; try discriminate;
    injection H; apply DecimalPos.Unsigned.to_uint_nonnil.
Qed.

Lemma Z_toString_inj (a b : Z) : Z_toString a = Z_toString b -> a = b.
Proof.
  unfold Z_toString. intros H.
  apply (f_equal NilZero.int_of_string) in H.
  destruct (to_int_nonnil a) as [Ha1 Ha2], (to_int_nonnil b) as [Hb1 Hb2].
  rewrite !NilZero.isi in H by assumption.
  injection H as H. now apply DecimalZ.to_int_inj.
Qed.

Lemma js_get_CONTROLS_select (key : string) (register : Z) (map : CodeMap) :
  js_get CONTROLS key = Own (select register map) ->
  (key = "user_work_mode" /\ register = 43000
     /\ map = [("0", "Manual"); ("1", "Anti-Feed"); ("2", "Trade")])
  \/ (key = "force_mode" /\ register = 42010
      /\ map = [("0", "Stop"); ("1", "Charge"); ("2", "Discharge")])
  \/ (key = "backup_function" /\ register = 41200
      /\ map = [("0", "Enable"); ("1", "Disable")]).
Proof.
  unfold js_get, CONTROLS, assoc.
  repeat match goal with
         | |- context [String.eqb key ?k] => destruct (String.eqb_spec key k) as [->|_]
         end;
    intros H; try discriminate H;
    try (destruct (existsb _ _); discriminate H);
    injection H as <- <-; auto 6.
Qed.

Lemma In_keys_code (code : Z) (codes : list Z) :
  In (Z_toString code) (List.map Z_toString codes) -> In code codes.
Proof.
  rewrite in_map_iff. intros (c & Hc & Hin).
  apply Z_toString_inj in Hc. now subst.
Qed.

(** C4.  For every select control and every code that is a key of its
    table, the label [handleData] publishes for the code is the label from
    which [handleCommand] gets the code back. *)
Theorem label_code_roundtrip (key : string) (register : Z) (map : CodeMap) (code : Z) :
  js_get CONTROLS key = Own (select register map) ->
  In (Z_toString code) (Object_keys map) ->
  exists label,
    labelForCode map (Z2float code) = Some label
    /\ codeForLabel map label = Some (Int code).
Proof.
  intros Hkey Hin.
  destruct (js_get_CONTROLS_select _ _ _ Hkey)
    as [(_ & _ & ->) | [(_ & _ & ->) | (_ & _ & ->)]].
  - apply (In_keys_code code [0; 1; 2]) in Hin.
    destruct Hin as [<- | [<- | [<- | []]]]; eexists; (split; [vm_compute; reflexivity|]); vm_compute; reflexivity.
  - apply (In_keys_code code [0; 1; 2]) in Hin.
    destruct Hin as [<- | [<- | [<- | []]]]; eexists; (split; [vm_compute; reflexivity|]); vm_compute; reflexivity.
  - apply (In_keys_code code [0; 1]) in Hin.
    destruct Hin as [<- | [<- | []]]; eexists; (split; [vm_compute; reflexivity|]); vm_compute; reflexivity.
Qed.

(* ------------------------------------------------------------------ *)
(** ** Numbers *)

(** Up to 2^53 the double of an integer is the integer. *)
Lemma toDouble_small (z : Z) : Z.abs z < 2 ^ 53 -> toDouble z = z.
Proof.
  intros H. unfold toDouble. cbv zeta.
  destruct (Z.ltb_spec (Z.abs z) (2 ^ 53)); [reflexivity|lia].
Qed.

(** *** The ceiling of a quotient *)

Lemma ceil_unique (m P k : Z) :
  0 < P -> P * (k - 1) < m <= P * k -> - ((- m) / P) = k.
Proof.
  intros HP H.
  pose proof (Z.div_mod (- m) P ltac:(lia)) as Hd.
  pose proof (Z.mod_pos_bound (- m) P HP) as Hm.
  nia.
Qed.

Lemma ceil_round (p s : Z) :
  0 < p -> 9 <= s ->
  - ((- roundHalfEven (p * 2 ^ s) 1000) / 2 ^ s) = - ((- p) / 1000).
Proof.
  intros Hp Hs.
  assert (HP : 512 <= 2 ^ s) by (change 512 with (2 ^ 9); apply Z.pow_le_mono_r; lia).
  set (P := 2 ^ s) in *. clearbody P.
  apply ceil_unique; [lia|].
  set (k := - ((- p) / 1000)).
  assert (Hk : 1000 * (k - 1) < p <= 1000 * k).
  { unfold k. pose proof (Z.div_mod (- p) 1000 ltac:(lia)).
    pose proof (Z.mod_pos_bound (- p) 1000 ltac:(lia)). lia. }
  clearbody k.
  unfold roundHalfEven. cbv zeta.
  pose proof (Z.div_mod (p * P) 1000 ltac:(lia)) as Hd.
  pose proof (Z.mod_pos_bound (p * P) 1000 ltac:(lia)) as Hm.
  set (q := p * P / 1000) in *. set (r := (p * P) mod 1000) in *. clearbody q r.
  assert (Hlo : P * (1000 * (k - 1)) + P <= p * P) by nia.
  assert (Hhi : p * P <= P * (1000 * k)) by nia.
  destruct ((1000 <? 2 * r) || ((2 * r =? 1000) && Z.odd q)) eqn:Hup.
  - assert (Hr : 1000 <= 2 * r).
    { apply orb_true_iff in Hup. destruct Hup as [H|H].
      - apply Z.ltb_lt in H. lia.
      - apply andb_true_iff in H. destruct H as [H _]. apply Z.eqb_eq in H. lia. }
    nia.
  - assert (Hr : 2 * r <= 1000).
    { apply orb_false_iff in Hup. destruct Hup as [H _]. apply Z.ltb_ge in H. lia. }
    nia.
Qed.

Lemma Math_ceil_div_exact (p : Z) :
  0 < p < 2 ^ 53 -> Math_ceil_div p 1000 = - ((- p) / 1000).
Proof.
  intros Hp. unfold Math_ceil_div.
  assert (Hinf : 2 ^ 53 < Infinity) by (unfold Infinity; apply Z.pow_lt_mono_r; lia).
  rewrite (Z.abs_eq p) by lia.
  destruct (Z.leb_spec Infinity p); [lia|].
  destruct (Z.eqb_spec p 0); [lia|].
  assert (HL : 0 <= Z.log2 p < 53).
  { split; [apply Z.log2_nonneg | apply Z.log2_lt_pow2; lia]. }
  unfold nearestDouble. cbv zeta.
  change (Z.log2 1000) with 9.
  set (L := Z.log2 p) in *. clearbody L.
  destruct (Z.leb_spec 0 (L - 9 - 53 + 1)); [lia|].
  destruct (Z.ltb_spec 0 p); [|lia].
  match goal with
  | |- context [if ?c then L - 9 - 53 + 1 else L - 9 - 53] => destruct c
  end;
    repeat match goal with
           | |- context [0 <=? ?e] => destruct (Z.leb_spec 0 e); [lia|]
           end;
    apply ceil_round; lia.
Qed.

(** *** [parseInt] on base-10 integers *)

Lemma isDecimalDigit_digitValue (c : ascii) :
  isDecimalDigit c = true ->
  digitValue c = Some (Z.of_N (N_of_ascii c) - 48)
  /\ 0 <= Z.of_N (N_of_ascii c) - 48 < 10.
Proof.
  unfold isDecimalDigit, digitValue. cbv zeta. intros H. rewrite H.
  apply andb_true_iff in H. destruct H as [H1 H2].
  apply Z.leb_le in H1, H2. split; [reflexivity|lia].
Qed.

Lemma digitValue_decimal (c : ascii) :
  isDecimalDigit c = false ->
  match digitValue c with Some d => 10 <= d | None => True end.
Proof.
  unfold isDecimalDigit, digitValue. cbv zeta. intros H. rewrite H.
  destruct ((97 <=? Z.of_N (N_of_ascii c)) && (Z.of_N (N_of_ascii c) <=? 122)) eqn:H1.
  - apply andb_true_iff in H1. destruct H1 as [H1 _]. apply Z.leb_le in H1. lia.
  - destruct ((65 <=? Z.of_N (N_of_ascii c)) && (Z.of_N (N_of_ascii c) <=? 90)) eqn:H2;
      [|exact I].
    apply andb_true_iff in H2. destruct H2 as [H2 _]. apply Z.leb_le in H2. lia.
Qed.

Lemma parseDigits_decimal (s : string) (acc z : Z) :
  decimalValue s acc = Some z -> parseDigits 10 s (Int acc) = Int z.
Proof.
  revert acc. induction s as [|c r IH]; intros acc; cbn [decimalValue parseDigits].
  - congruence.
  - destruct (isDecimalDigit c) eqn:Hc; [|discriminate].
    destruct (isDecimalDigit_digitValue c Hc) as [-> Hd].
    destruct (Z.ltb_spec (Z.of_N (N_of_ascii c) - 48) 10); [|lia].
    apply IH.
Qed.

Lemma parseDigits_unsigned (s : string) (z : Z) :
  unsignedDecimal s = Some z -> parseDigits 10 s NaN = Int z.
Proof.
  destruct s as [|c r]; [discriminate|]. cbn [unsignedDecimal decimalValue parseDigits].
  destruct (isDecimalDigit c) eqn:Hc; [|discriminate].
  destruct (isDecimalDigit_digitValue c Hc) as [-> Hd].
  destruct (Z.ltb_spec (Z.of_N (N_of_ascii c) - 48) 10); [|lia].
  cbn [Z.mul Z.add]. apply parseDigits_decimal.
Qed.

(** No white space starts with a digit or a sign. *)
Lemma stripAny_none (c : ascii) (r : string) :
  isDecimalDigit c = true \/ c = "-"%char \/ c = "+"%char ->
  stripAny StrWhiteSpaceChar (String c r) = None.
Proof.
  intros H.
  assert (Hc : forallb (fun p => match p with
                                 | String a _ => negb (Ascii.eqb a c)
                                 | EmptyString => false
                                 end) StrWhiteSpaceChar = true).
  { destruct H as [H | [-> | ->]]; [|reflexivity..].
    destruct c as [[] [] [] [] [] [] [] []]; try discriminate H; reflexivity. }
  revert Hc. generalize StrWhiteSpaceChar as ps.
  induction ps as [|p ps IH]; cbn [forallb stripAny]; [reflexivity|].
  intros Hc. apply andb_true_iff in Hc. destruct Hc as [Hp Hps].
  destruct p as [|a p']; [discriminate|]. cbn [stripPrefix].
  apply negb_true_iff in Hp. rewrite Hp. now apply IH.
Qed.

Lemma trimStart_none (c : ascii) (r : string) :
  isDecimalDigit c = true \/ c = "-"%char \/ c = "+"%char ->
  trimStart (String c r) = String c r.
Proof.
  intros H. unfold trimStart. cbn [String.length trimStart_fuel].
  now rewrite stripAny_none.
Qed.

Lemma unsignedDecimal_digit (s : string) (z : Z) :
  unsignedDecimal s = Some z ->
  exists c r, s = String c r /\ isDecimalDigit c = true.
Proof.
  destruct s as [|c r]; [discriminate|]. cbn [unsignedDecimal decimalValue].
  destruct (isDecimalDigit c) eqn:Hc; [|discriminate]. intros _. now exists c, r.
Qed.

(** On a payload that is a base-10 integer, [parseInt] with radix 10 gives
    that integer, as the double it is. *)
Lemma parseInt_base10 (s : string) (z : Z) :
  spec_base10_integer s = Some z -> parseInt s (Some 10) = Int (toDouble z).
Proof.
  intros H.
  assert (Hrun : forall (negative : bool) (digits : string) (n : Z),
    unsignedDecimal digits = Some n ->
    (let R0 := 10 in
     if negb (R0 =? 0) && ((R0 <? 2) || (36 <? R0)) then NaN else
     let R := if R0 =? 0 then 10 else R0 in
     let strip := (R0 =? 0) || (R0 =? 16) in
     let '(R, S2) :=
       if strip then
         match digits with
         | String "0" (String "x" r) => (16, r)
         | String "0" (String "X" r) => (16, r)
         | _ => (R, digits)
         end
       else (R, digits) in
     match parseDigits R S2 NaN with
     | NaN => NaN
     | Int z => Int (toDouble (if negative then - z else z))
     end) = Int (toDouble (if negative then - n else n))).
  { intros negative digits n Hn.
    cbv beta zeta iota delta [Z.eqb Z.ltb Z.compare Pos.compare Pos.compare_cont Pos.eqb
                                negb andb orb].
    now rewrite (parseDigits_unsigned _ _ Hn). }
  unfold spec_base10_integer in H. unfold parseInt.
  destruct s as [|c r]; [discriminate H|].
  destruct (Ascii.eqb_spec c "-") as [->|Hm]; [|destruct (Ascii.eqb_spec c "+") as [->|Hp]].
  - rewrite trimStart_none by auto.
    destruct (unsignedDecimal r) as [n|] eqn:Hn; [|discriminate H].
    injection H as <-. exact (Hrun true r n Hn).
  - rewrite trimStart_none by auto. exact (Hrun false r z H).
  - assert (Hs : unsignedDecimal (String c r) = Some z).
    { destruct c as [[] [] [] [] [] [] [] []]; try exact H; congruence. }
    destruct (unsignedDecimal_digit _ _ Hs) as (c' & r' & E & Hc). injection E as <- <-.
    rewrite trimStart_none by auto.
    destruct c as [[] [] [] [] [] [] [] []]; try discriminate Hc;
      exact (Hrun false _ z Hs).
Qed.

(** [parseInt] with radix 10 fails exactly when no decimal digit follows
    the white space and the sign. *)
Lemma parseInt_NaN_iff (s : string) :
  parseInt s (Some 10) = NaN
  <-> match afterSign s with
      | String c _ => isDecimalDigit c = false
      | EmptyString => True
      end.
Proof.
  assert (Hdigits : forall digits,
    parseDigits 10 digits NaN = NaN
    <-> match digits with
        | String c _ => isDecimalDigit c = false
        | EmptyString => True
        end).
  { intros [|c r]; cbn [parseDigits]; [tauto|].
    destruct (isDecimalDigit c) eqn:Hc.
    - destruct (isDecimalDigit_digitValue c Hc) as [-> Hd].
      destruct (Z.ltb_spec (Z.of_N (N_of_ascii c) - 48) 10); [|lia].
      split; [|discriminate]. intros Hnan.
      assert (Hint : forall r acc, parseDigits 10 r (Int acc) <> NaN).
      { clear. induction r as [|c r IH]; intros acc; cbn [parseDigits]; [discriminate|].
        destruct (digitValue c) as [d|]; [|discriminate].
        destruct (d <? 10); [apply IH|discriminate]. }
      now apply Hint in Hnan.
    - pose proof (digitValue_decimal c Hc) as Hd.
      destruct (digitValue c) as [d|]; [|tauto].
      destruct (Z.ltb_spec d 10); [lia|tauto]. }
  unfold parseInt, afterSign.
  cbv beta zeta iota delta [Z.eqb Z.ltb Z.compare Pos.compare Pos.compare_cont Pos.eqb
                              negb andb orb].
  destruct (trimStart s) as [|c r].
  - cbn. tauto.
  - destruct (Ascii.eqb_spec c "-") as [->|Hm]; [|destruct (Ascii.eqb_spec c "+") as [->|Hp]].
    + rewrite <- Hdigits. destruct (parseDigits 10 r NaN); split; congruence.
    + rewrite <- Hdigits. destruct (parseDigits 10 r NaN); split; congruence.
    + pose proof (Hdigits (String c r)) as Hd. cbv beta iota in Hd.
      destruct c as [[] [] [] [] [] [] [] []];
        try (now elim Hm); try (now elim Hp);
        cbv beta iota zeta;
        (destruct (parseDigits 10 (String _ r) NaN) as [|z0];
         [ exact Hd
         | split; intros H; [discriminate H | apply Hd in H; discriminate H] ]).
Qed.

(* ------------------------------------------------------------------ *)
(** ** Commands *)

Section CommandProps.

Context {Env : Type} (ext : External Env).

Lemma events_since_app (w w' : World Env) evs :
  trace w' = trace w ++ evs -> events_since w w' = evs.
Proof.
  intros H. unfold events_since. rewrite H.
  rewrite skipn_app, skipn_all, Nat.sub_diag. reflexivity.
Qed.

(** C3.  While the link is down, [writeRegister] throws "Not connected" and
    leaves the world as it was: nothing is logged and the Modbus client is
    not called. *)
Theorem writeRegister_not_connected (address : Z) (value : jsint) (w : World Env) :
  connected w = false ->
  writeRegister ext address value w = (inl "Not connected", w).
Proof.
  intros H. unfold writeRegister, bind, get_connected. rewrite H. reflexivity.
Qed.

Lemma writeToDevice_eq (register : Z) (value : jsint) (w : World Env) :
  writeToDevice ext register value w
  = match writeRegister ext register value w with
    | (inr _, w2) =>
        (inr tt, push (Logger_log INFO ["Successfully wrote " +++ jsint_toString value
                                        +++ " to register " +++ Z_toString register]) w2)
    | (inl err, w2) =>
        (inr tt, push (Logger_log ERROR ["Failed to write to register " +++ Z_toString register;
                                         err]) w2)
    end.
Proof.
  unfold writeToDevice, try_catch, bind.
  destruct (writeRegister ext register value w) as [[err|[]] w2]; reflexivity.
Qed.

Lemma try_catch_inr {A} (m : M Env A) h w a w' :
  m w = (inr a, w') -> try_catch m h w = (inr a, w').
Proof. unfold try_catch. intros ->. reflexivity. Qed.

Lemma handleCommand_segments (topic a b key value : string) (w : World Env) :
  split "/" topic = [a; b; "set"; key] ->
  handleCommand ext topic value w
  = try_catch
      (Logger_info ["Received command for " +++ key +++ ": " +++ value] ;;
       match js_get CONTROLS key with
       | Undefined => Logger_warn ["Unknown control key: " +++ key]
       | Inherited => ret tt
       | Own (select register map) =>
           match keyForLabel map value with
           | Some intVal => writeToDevice ext register (parseInt intVal None)
           | None =>
               Logger_warn ["Invalid option '" +++ value +++ "' for " +++ key
                            +++ ". Expected: " +++ join ", " (Object_values map)]
           end
       | Own (number register) =>
           let intVal := parseInt value (Some 10) in
           if isNaN intVal
           then Logger_warn ["Invalid number '" +++ value +++ "' for " +++ key]
           else writeToDevice ext register intVal
       end)
      (fun e => Logger_error ["Error processing command"; e]) w.
Proof.
  intros H. unfold handleCommand. rewrite H. reflexivity.
Qed.

(** A command for a select control writes [codeForLabel] of the payload. *)
Lemma handleCommand_select (topic a b key value : string) (register : Z) (map : CodeMap)
    (w : World Env) :
  split "/" topic = [a; b; "set"; key] ->
  js_get CONTROLS key = Own (select register map) ->
  handleCommand ext topic value w
  = try_catch
      (Logger_info ["Received command for " +++ key +++ ": " +++ value] ;;
       match codeForLabel map value with
       | Some code => writeToDevice ext register code
       | None =>
           Logger_warn ["Invalid option '" +++ value +++ "' for " +++ key
                        +++ ". Expected: " +++ join ", " (Object_values map)]
       end)
      (fun e => Logger_error ["Error processing command"; e]) w.
Proof.
  intros Hsplit Hkey. rewrite (handleCommand_segments _ _ _ _ _ _ Hsplit), Hkey.
  unfold codeForLabel. destruct (keyForLabel map value); reflexivity.
Qed.

(** What [writeToDevice] adds to the trace: no warning, and the write, if
    the link is up. *)
Lemma writeToDevice_effects (register : Z) (value : jsint) (w : World Env) :
  exists evs, trace (snd (writeToDevice ext register value w)) = trace w ++ evs
              /\ warnings evs = []
              /\ writes evs = if connected w then [(register, value)] else [].
Proof.
  rewrite writeToDevice_eq. unfold writeRegister, bind, get_connected.
  destruct (connected w); simpl.
  - unfold call, Logger_info, record, push; simpl.
    destruct (ModbusRTU_writeRegister ext register value (env w)) as [[e|[]] e']; simpl;
      eexists; (split; [rewrite <- !List.app_assoc; reflexivity | split; reflexivity]).
  - eexists; split; [reflexivity | split; reflexivity].
Qed.

(** C1.  The command [prefix/One/set/force_mode] with payload "Charge"
    finds the key "1" of the label in the table of [force_mode] and calls
    [writeRegister] of the poller with register 42010 and value 1; with the
    link up, that write reaches the Modbus client. *)
Theorem handleCommand_force_mode_Charge (w : World Env) :
  let w1 := push (Logger_log INFO ["Received command for force_mode: Charge"]) w in
  let w' := snd (handleCommand ext "prefix/One/set/force_mode" "Charge" w) in
  js_get CONTROLS "force_mode"
    = Own (select 42010 [("0", "Stop"); ("1", "Charge"); ("2", "Discharge")])
  /\ codeForLabel [("0", "Stop"); ("1", "Charge"); ("2", "Discharge")] "Charge" = Some (Int 1)
  /\ match writeRegister ext 42010 (Int 1) w1 with
     | (inr _, w2) =>
         handleCommand ext "prefix/One/set/force_mode" "Charge" w
         = (inr tt, push (Logger_log INFO ["Successfully wrote 1 to register 42010"]) w2)
     | (inl err, w2) =>
         handleCommand ext "prefix/One/set/force_mode" "Charge" w
         = (inr tt, push (Logger_log ERROR ["Failed to write to register 42010"; err]) w2)
     end
  /\ writes (events_since w w') = (if connected w then [(42010, Int 1)] else []).
Proof.
  cbv zeta.
  split; [reflexivity|]. split; [reflexivity|].
  set (w1 := push (Logger_log INFO ["Received command for force_mode: Charge"]) w).
  assert (Hrun : handleCommand ext "prefix/One/set/force_mode" "Charge" w
                 = writeToDevice ext 42010 (Int 1) w1).
  { pose proof (writeToDevice_eq 42010 (Int 1) w1) as H.
    destruct (writeRegister ext 42010 (Int 1) w1) as [[err|u] w2];
      rewrite H; apply try_catch_inr; exact H. }
  split.
  - rewrite Hrun, writeToDevice_eq.
    destruct (writeRegister ext 42010 (Int 1) w1) as [[err|u] w2]; reflexivity.
  - destruct (writeToDevice_effects 42010 (Int 1) w1) as (evs & Ht & _ & Hw).
    rewrite Hrun.
    erewrite events_since_app
      by (rewrite Ht; unfold w1, push; cbn [trace]; rewrite <- List.app_assoc; reflexivity).
    unfold writes in *. cbn [collect is_write List.app]. exact Hw.
Qed.

(** C6.  The command [prefix/One/set/force_mode] with payload "Bogus", which
    is no label of [force_mode], only logs: the command received and a
    warning that names the options Stop, Charge, Discharge.  Nothing is
    written. *)
Theorem handleCommand_force_mode_Bogus (w : World Env) :
  codeForLabel [("0", "Stop"); ("1", "Charge"); ("2", "Discharge")] "Bogus" = None
  /\ handleCommand ext "prefix/One/set/force_mode" "Bogus" w
     = (inr tt,
        mkWorld (env w) (connected w) (autoconfTimestamp w)
          (trace w ++
           [ Logger_log INFO ["Received command for force_mode: Bogus"];
             Logger_log WARN ["Invalid option 'Bogus' for force_mode. Expected: Stop, Charge, Discharge"] ])).
Proof.
  split; [reflexivity|].
  unfold handleCommand, try_catch, bind, Logger_info, Logger_warn, record, push. simpl.
  rewrite <- List.app_assoc. reflexivity.
Qed.

(** What a command for a number control does, by the result of
    [parseInt(value, 10)]. *)
Lemma handleCommand_number_runs (topic a b key value : string) (register : Z)
    (w : World Env) :
  split "/" topic = [a; b; "set"; key] ->
  js_get CONTROLS key = Own (number register) ->
  let w1 := push (Logger_log INFO ["Received command for " +++ key +++ ": " +++ value]) w in
  let w' := snd (handleCommand ext topic value w) in
  (parseInt value (Some 10) = NaN ->
     handleCommand ext topic value w
     = (inr tt, push (Logger_log WARN ["Invalid number '" +++ value +++ "' for " +++ key]) w1))
  /\ (forall z, parseInt value (Some 10) = Int z ->
        handleCommand ext topic value w = writeToDevice ext register (Int z) w1)
  /\ (parseInt value (Some 10) = NaN <-> warnings (events_since w w') <> [])
  /\ writes (events_since w w')
     = match parseInt value (Some 10) with
       | NaN => []
       | Int z => if connected w then [(register, Int z)] else []
       end.
Proof.
  intros Hsplit Hkey w1 w'.
  assert (Hnan : parseInt value (Some 10) = NaN ->
     handleCommand ext topic value w
     = (inr tt, push (Logger_log WARN ["Invalid number '" +++ value +++ "' for " +++ key]) w1)).
  { intros Hp. rewrite (handleCommand_segments _ _ _ _ _ _ Hsplit), Hkey.
    unfold try_catch, bind, Logger_info, record. cbv zeta. rewrite Hp. reflexivity. }
  assert (Hint : forall z, parseInt value (Some 10) = Int z ->
        handleCommand ext topic value w = writeToDevice ext register (Int z) w1).
  { intros z Hp. rewrite (handleCommand_segments _ _ _ _ _ _ Hsplit), Hkey.
    unfold try_catch at 1. unfold bind, Logger_info, record. cbv zeta. rewrite Hp.
    cbn [isNaN]. fold w1.
    destruct (writeToDevice ext register (Int z) w1) as [[e|[]] w2] eqn:E; [|reflexivity].
    rewrite writeToDevice_eq in E.
    destruct (writeRegister ext register (Int z) w1) as [[?|?] ?]; discriminate E. }
  split; [exact Hnan|]. split; [exact Hint|].
  destruct (parseInt value (Some 10)) as [|z] eqn:Hp.
  - assert (E : events_since w w' =
                [Logger_log INFO ["Received command for " +++ key +++ ": " +++ value];
                 Logger_log WARN ["Invalid number '" +++ value +++ "' for " +++ key]]).
    { apply events_since_app. unfold w'. rewrite (Hnan eq_refl). unfold w1, push. simpl.
      rewrite <- List.app_assoc. reflexivity. }
    rewrite E. split; [ split; [discriminate | reflexivity] | reflexivity ].
  - destruct (writeToDevice_effects register (Int z) w1) as (evs & Ht & Hw & Hwr).
    assert (E : events_since w w' =
                Logger_log INFO ["Received command for " +++ key +++ ": " +++ value] :: evs).
    { apply events_since_app. unfold w'. rewrite (Hint z eq_refl), Ht. unfold w1, push. simpl.
      rewrite <- List.app_assoc. reflexivity. }
    rewrite E. unfold warnings, writes in *. cbn [collect is_warning is_write]. rewrite Hw.
    split; [ split; [discriminate | intros H; now elim H] | exact Hwr ].
Qed.

(** C7, as the code has it.  A command for a number control parses the payload with
    [parseInt(value, 10)]: white space at the start is skipped, a sign is
    read, then the longest run of decimal digits, and what follows them is
    ignored.  The parse fails, with [NaN], exactly when no decimal digit is
    found there.  If it fails, a warning is logged and nothing is written;
    otherwise [writeRegister] of the poller is called with the register of
    the control and the number parsed.  A warning is logged exactly when the
    parse fails.  For a payload that is a base-10 integer and no more, the
    number written is that integer as a double, the integer itself up to
    2^53. *)
Theorem handleCommand_number (topic a b key value : string) (register : Z) (w : World Env) :
  split "/" topic = [a; b; "set"; key] ->
  js_get CONTROLS key = Own (number register) ->
  let w1 := push (Logger_log INFO ["Received command for " +++ key +++ ": " +++ value]) w in
  let w' := snd (handleCommand ext topic value w) in
  (parseInt value (Some 10) = NaN ->
     handleCommand ext topic value w
     = (inr tt, push (Logger_log WARN ["Invalid number '" +++ value +++ "' for " +++ key]) w1))
  /\ (forall z, parseInt value (Some 10) = Int z ->
        handleCommand ext topic value w = writeToDevice ext register (Int z) w1)
  /\ (parseInt value (Some 10) = NaN <-> warnings (events_since w w') <> [])
  /\ writes (events_since w w')
     = match parseInt value (Some 10) with
       | NaN => []
       | Int z => if connected w then [(register, Int z)] else []
       end
  /\ (parseInt value (Some 10) = NaN
      <-> match afterSign value with
          | String c _ => isDecimalDigit c = false
          | EmptyString => True
          end)
  /\ (forall z, spec_base10_integer value = Some z ->
        writes (events_since w w')
        = (if connected w then [(register, Int (toDouble z))] else [])
        /\ (Z.abs z < 2 ^ 53 -> toDouble z = z)).
Proof.
  intros Hsplit Hkey w1 w'.
  destruct (handleCommand_number_runs topic a b key value register w Hsplit Hkey)
    as (H1 & H2 & H3 & H4).
  split; [exact H1|]. split; [exact H2|]. split; [exact H3|]. split; [exact H4|].
  split; [apply parseInt_NaN_iff|].
  intros z Hz. split; [|apply toDouble_small].
  fold w' in H4. rewrite H4, (parseInt_base10 value z Hz). reflexivity.
Qed.
End CommandProps.

(* ------------------------------------------------------------------ *)
(** ** Traces and runs *)

Lemma collect_app {X} (sel : Event -> option X) (a b : list Event) :
  collect sel (a ++ b) = collect sel a ++ collect sel b.
Proof.
  induction a as [|e a IH]; simpl; [reflexivity|].
  destruct (sel e); simpl; now rewrite IH.
Qed.

Section Runs.

Context {Env : Type}.

Lemma bind_inr_inv {A B} (m : M Env A) (k : A -> M Env B) w b w' :
  bind m k w = (inr b, w') ->
  exists a w1, m w = (inr a, w1) /\ k a w1 = (inr b, w').
Proof.
  unfold bind. destruct (m w) as [[e|a] w1]; intros H; [discriminate H|].
  now exists a, w1.
Qed.

Lemma bind_inr {A B} (m : M Env A) (k : A -> M Env B) w a w' :
  m w = (inr a, w') -> bind m k w = k a w'.
Proof. unfold bind. now intros ->. Qed.

Lemma lift_inr_inv {A} (r : Exn + A) (w : World Env) a w' :
  lift r w = (inr a, w') -> r = inr a /\ w' = w.
Proof. unfold lift. intros H. injection H as -> ->. now split. Qed.

(** Relations kept by every step. *)

Lemma grows_refl {X} (sel : Event -> option X) (w : World Env) : grows sel w w.
Proof. exists []. now rewrite List.app_nil_r. Qed.

Lemma grows_trans {X} (sel : Event -> option X) (w1 w2 w3 : World Env) :
  grows sel w1 w2 -> grows sel w2 w3 -> grows sel w1 w3.
Proof.
  intros (a & Ha & Hca) (b & Hb & Hcb). exists (a ++ b). split.
  - now rewrite Hb, Ha, List.app_assoc.
  - now rewrite collect_app, Hca, Hcb.
Qed.

Section Respects.

Variable R : World Env -> World Env -> Prop.
Hypothesis R_refl : forall w, R w w.
Hypothesis R_trans : forall w1 w2 w3, R w1 w2 -> R w2 w3 -> R w1 w3.

Lemma respects_ret {A} (a : A) : respects R (ret a).
Proof. intros w r w' H. injection H as _ <-. apply R_refl. Qed.

Lemma respects_throw {A} (e : Exn) : respects R (@throw Env A e).
Proof. intros w r w' H. injection H as _ <-. apply R_refl. Qed.

Lemma respects_lift {A} (x : Exn + A) : respects R (lift x).
Proof. intros w r w' H. injection H as _ <-. apply R_refl. Qed.

Lemma respects_get_connected : respects R get_connected.
Proof. intros w r w' H. injection H as _ <-. apply R_refl. Qed.

Lemma respects_get_autoconfTimestamp : respects R get_autoconfTimestamp.
Proof. intros w r w' H. injection H as _ <-. apply R_refl. Qed.

Lemma respects_bind {A B} (m : M Env A) (k : A -> M Env B) :
  respects R m -> (forall a, respects R (k a)) -> respects R (bind m k).
Proof.
  intros Hm Hk w r w'. unfold bind.
  destruct (m w) as [[e|a] w1] eqn:E; intros H.
  - injection H as _ <-. eapply Hm, E.
  - eapply R_trans; [eapply Hm, E | eapply Hk, H].
Qed.

Lemma respects_try_catch {A} (m : M Env A) (h : Exn -> M Env A) :
  respects R m -> (forall e, respects R (h e)) -> respects R (try_catch m h).
Proof.
  intros Hm Hh w r w'. unfold try_catch.
  destruct (m w) as [[e|a] w1] eqn:E; intros H.
  - eapply R_trans; [eapply Hm, E | eapply Hh, H].
  - injection H as _ <-. eapply Hm, E.
Qed.

Lemma respects_forEach {A} (l : list A) (f : A -> M Env unit) :
  (forall a, In a l -> respects R (f a)) -> respects R (forEach l f).
Proof.
  intros Hf. induction l as [|a l IH]; simpl.
  - apply respects_ret.
  - apply respects_bind; [apply Hf; now left | intros _; apply IH].
    intros a' Ha'. apply Hf. now right.
Qed.

End Respects.

(** The steps that touch the trace, the outside world or a field. *)

Lemma grows_same_trace {X} (sel : Event -> option X) (w w' : World Env) :
  trace w' = trace w -> grows sel w w'.
Proof. intros H. exists []. now rewrite List.app_nil_r. Qed.

Lemma record_grows {X} (sel : Event -> option X) (e : Event) :
  sel e = None -> respects (grows (Env := Env) sel) (record e).
Proof.
  intros He w r w' H. injection H as _ <-. exists [e]. split; [reflexivity|].
  simpl. now rewrite He.
Qed.

Lemma ask_grows {X A} (sel : Event -> option X) (f : Env -> A * Env) :
  respects (grows sel) (ask f).
Proof.
  intros w r w'. unfold ask. destruct (f (env w)) as [a e]. intros H.
  injection H as _ <-. now apply grows_same_trace.
Qed.

Lemma call_grows {X A} (sel : Event -> option X) (f : Env -> (Exn + A) * Env) :
  respects (grows sel) (call f).
Proof.
  intros w r w'. unfold call. destruct (f (env w)) as [a e]. intros H.
  injection H as _ <-. now apply grows_same_trace.
Qed.

Lemma set_connected_grows {X} (sel : Event -> option X) (b : bool) :
  respects (grows (Env := Env) sel) (set_connected b).
Proof. intros w r w' H. injection H as _ <-. now apply grows_same_trace. Qed.

Lemma set_autoconfTimestamp_grows {X} (sel : Event -> option X) (t : Z) :
  respects (grows (Env := Env) sel) (set_autoconfTimestamp t).
Proof. intros w r w' H. injection H as _ <-. now apply grows_same_trace. Qed.

Lemma same_timestamp_refl (w : World Env) : same_timestamp w w.
Proof. reflexivity. Qed.

Lemma same_timestamp_trans (w1 w2 w3 : World Env) :
  same_timestamp w1 w2 -> same_timestamp w2 w3 -> same_timestamp w1 w3.
Proof. unfold same_timestamp. congruence. Qed.

Lemma record_same_timestamp (e : Event) : respects (same_timestamp (Env := Env)) (record e).
Proof. intros w r w' H. injection H as _ <-. reflexivity. Qed.

End Runs.

(** Splits a computation into its steps, down to the steps above. *)
Ltac grows_steps :=
  repeat first
    [ apply respects_bind; [apply grows_trans | | intros ?]
    | apply respects_try_catch; [apply grows_trans | | intros ?]
    | apply respects_forEach; [apply grows_refl | apply grows_trans | intros ? _]
    | apply respects_ret; apply grows_refl
    | apply respects_throw; apply grows_refl
    | apply respects_lift; apply grows_refl
    | apply respects_get_connected; apply grows_refl
    | apply respects_get_autoconfTimestamp; apply grows_refl
    | apply record_grows; reflexivity
    | apply ask_grows
    | apply call_grows
    | apply set_connected_grows
    | apply set_autoconfTimestamp_grows
    | match goal with
      | |- respects _ (if ?b then _ else _) => destruct b
      | |- respects _ (match ?x with _ => _ end) => destruct x
      | |- respects _ (let '(_, _) := ?x in _) => destruct x
      end ].

(** The same for the discovery timestamp, which only a few steps touch. *)
Ltac timestamp_steps :=
  repeat first
    [ apply respects_bind; [apply same_timestamp_trans | | intros ?]
    | apply respects_forEach; [apply same_timestamp_refl | apply same_timestamp_trans | intros ? _]
    | apply respects_ret; apply same_timestamp_refl
    | apply respects_throw; apply same_timestamp_refl
    | apply record_same_timestamp
    | match goal with
      | |- respects _ (if ?b then _ else _) => destruct b
      | |- respects _ (match ?x with _ => _ end) => destruct x
      end ].

(* ------------------------------------------------------------------ *)
(** ** The poll cycle *)

Section PollerProps.

Context {Env : Type} (ext : External Env).
Variables (interval slaveId : Z).

Lemma connect_quiet : respects (grows is_emit) (connect ext slaveId).
Proof. unfold connect, Logger_info, Logger_error. grows_steps. Qed.

Lemma reconnect_quiet : respects (grows is_emit) (reconnect ext slaveId).
Proof. unfold reconnect. grows_steps. Qed.

Lemma poll_data_quiet : respects (grows is_emit) (poll_data ext).
Proof. unfold poll_data. cbv zeta. grows_steps. Qed.

Lemma readBlock_inr_inv (start length : Z) (w : World Env) (b : Buffer) (w' : World Env) :
  readBlock ext start length w = (inr b, w') ->
  exists e', ModbusRTU_readHoldingRegisters ext start length (env w) = (inr b, e').
Proof.
  unfold readBlock, bind, record, call, push. cbn [env].
  destruct (ModbusRTU_readHoldingRegisters ext start length (env w)) as [r e'].
  intros H. injection H as -> _. now exists e'.
Qed.

(** A poll that returns read the block at 35010 and decoded both cell
    temperatures from its first register; the snapshot has every field. *)
Lemma poll_data_inr_inv (w : World Env) (data : Snapshot) (w' : World Env) :
  poll_data ext w = (inr data, w') ->
  Object_keys data = POLL_KEYS
  /\ exists (temp2 : Buffer) (v : Z) (e e' : Env),
       ModbusRTU_readHoldingRegisters ext 35010 2 e = (inr temp2, e')
       /\ readInt16BE temp2 0 = inr v
       /\ assoc "max_cell_temperature" data = Some (Z2float v * 0.1)%float
       /\ assoc "min_cell_temperature" data = Some (Z2float v * 0.1)%float.
Proof.
  intros H. unfold poll_data in H. cbv zeta in H.
  repeat (apply bind_inr_inv in H; destruct H as (? & ? & ? & H)).
  injection H as <- _.
  split; [reflexivity|].
  match goal with
  | Hr : readBlock ext 35010 2 _ = (inr ?temp2, _),
    H1 : lift (readInt16BE ?temp2 0) _ = (inr ?v1, _),
    H2 : lift (readInt16BE ?temp2 0) _ = (inr ?v2, _) |- _ =>
      apply readBlock_inr_inv in Hr; destruct Hr as (e' & Hr);
      apply lift_inr_inv in H1; destruct H1 as (H1 & _);
      apply lift_inr_inv in H2; destruct H2 as (H2 & _);
      assert (Hv : v2 = v1) by congruence;
      exists temp2, v1; do 2 eexists;
      split; [exact Hr|]; split; [exact H1|];
      rewrite Hv; split; reflexivity
  end.
Qed.

Lemma reconnect_returns (w : World Env) :
  exists w1, reconnect ext slaveId w = (inr tt, w1).
Proof.
  unfold reconnect, bind at 1, get_connected.
  destruct (connected w); cbn [negb].
  - now exists w.
  - unfold connect, try_catch.
    match goal with |- context [let (_, _) := ?m w in _] => destruct (m w) as [[e|[]] w1] end.
    + eexists. reflexivity.
    + now exists w1.
Qed.

Section Listeners.

Variable listeners : list (Snapshot -> M Env unit).


Hypothesis listeners_quiet :
  forall listener, In listener listeners ->
  forall data, respects (grows is_emit) (listener data).

Lemma emitData_emits (data : Snapshot) (w : World Env) :
  exists evs,
    trace (snd (emitData listeners data w)) = trace w ++ eventEmitter_emit data :: evs
    /\ emitted evs = [].
Proof.
  unfold emitData, bind at 1, record.
  destruct (forEach listeners (fun listener => listener data) (push (eventEmitter_emit data) w))
    as [r w'] eqn:E. cbn [snd].
  assert (H : respects (grows is_emit) (forEach listeners (fun listener => listener data))).
  { apply respects_forEach; [apply grows_refl | apply grows_trans |].
    intros l Hl. now apply listeners_quiet. }
  destruct (H _ _ _ E) as (evs & Ht & Hq).
  exists evs. split; [|exact Hq].
  rewrite Ht. unfold push. cbn [trace]. now rewrite <- List.app_assoc.
Qed.

(** What a run of the loop emits: the snapshot of a poll whose reads and
    decodes all returned, and nothing otherwise; after a failed poll the link
    is down. *)
Lemma pollingLoop_emitted (w : World Env) :
  let w1 := snd (reconnect ext slaveId w) in
  let w' := snd (pollingLoop ext interval slaveId listeners w) in
  emitted (events_since w w')
  = (if connected w1
     then match fst (poll_data ext w1) with
          | inr data => [data]
          | inl _ => []
          end
     else [])
  /\ (connected w1 = true -> (exists e, fst (poll_data ext w1) = inl e) -> connected w' = false).
Proof.
  cbv zeta.
  destruct (reconnect_returns w) as (w1 & H1).
  pose proof (reconnect_quiet _ _ _ H1) as (evs1 & Ht1 & Hq1).
  rewrite H1. cbn [snd].
  destruct (pollingLoop ext interval slaveId listeners w) as [r w'] eqn:E. cbn [snd].
  unfold pollingLoop in E. rewrite (bind_inr _ _ _ _ _ H1) in E.
  unfold bind at 1, get_connected in E.
  destruct (connected w1) eqn:Hc.
  - unfold bind at 1, try_catch, poll, bind at 1 in E.
    destruct (poll_data ext w1) as [[e|data] wp] eqn:Hp; cbn [fst];
      pose proof (poll_data_quiet _ _ _ Hp) as (evsp & Htp & Hqp).
    + (* the reads or decodes threw *)
      unfold bind, Logger_warn, record, set_connected, ask, push in E.
      cbn [env connected autoconfTimestamp trace] in E.
      destruct (Date_now ext (env wp)) as [now e2]. injection E as _ <-.
      split; [|reflexivity].
      erewrite events_since_app
        by (cbn [trace]; rewrite Htp, Ht1, <- !List.app_assoc; reflexivity).
      unfold emitted in *. rewrite !collect_app, Hq1, Hqp. reflexivity.
    + (* they returned: the snapshot goes to the listeners *)
      destruct (emitData_emits data wp) as (evse & Hte & Hqe).
      split; [| intros _ (e' & He'); discriminate He'].
      destruct (emitData listeners data wp) as [[e|[]] we]; cbn [snd] in Hte;
        unfold bind, Logger_warn, record, set_connected, ask, push in E;
        cbn [env connected autoconfTimestamp trace] in E;
        match type of E with
        | context [Date_now ext ?e] => destruct (Date_now ext e) as [now e2]
        end; injection E as _ <-;
        (erewrite events_since_app
           by (cbn [trace]; rewrite Hte, Htp, Ht1, <- !List.app_assoc; reflexivity));
        unfold emitted in *;
        repeat (rewrite ?collect_app, ?Hq1, ?Hqp, ?Hqe; cbn [collect is_emit List.app]);
        reflexivity.
  - unfold bind, ret, record, ask, push in E. cbn [env connected autoconfTimestamp trace] in E.
    destruct (Date_now ext (env w1)) as [now e2]. injection E as _ <-.
    split; [| intros H; discriminate H].
    erewrite events_since_app by (cbn [trace]; rewrite Ht1, <- !List.app_assoc; reflexivity).
    unfold emitted in *. rewrite collect_app, Hq1. reflexivity.
Qed.

End Listeners.

End PollerProps.

(* ------------------------------------------------------------------ *)
(** ** Discovery and telemetry *)

Section MqttClientProps.

Context {Env : Type} (ext : External Env).
Variables (identifier : string) (POLL_INTERVAL : option string).

Lemma bind_makeConfig {B} device key name unit devClass stateClass type options
    (k : Datatypes.unit -> M Env B) (w : World Env) :
  bind (makeConfig identifier POLL_INTERVAL device key name unit devClass stateClass type options)
    k w
  = k tt (push (discoveryMessage identifier POLL_INTERVAL device key name unit devClass
                  stateClass type options) w).
Proof. reflexivity. Qed.

Lemma env_push (e : Event) (w : World Env) : env (push e w) = env w.
Proof. reflexivity. Qed.

Lemma connected_push (e : Event) (w : World Env) : connected (push e w) = connected w.
Proof. reflexivity. Qed.

Lemma trace_push (e : Event) (w : World Env) : trace (push e w) = trace w ++ [e].
Proof. reflexivity. Qed.

Lemma stamp_now (w : World Env) (now : Z) (e : Env) :
  Date_now ext (env w) = (now, e) ->
  (now <- ask (Date_now ext) ;; set_autoconfTimestamp now) w
  = (inr tt, mkWorld e (connected w) now (trace w)).
Proof. intros H. unfold bind, ask. rewrite H. reflexivity. Qed.

Lemma ensureAutoconf_fresh (w : World Env) (now : Z) (e1 : Env) :
  Date_now ext (env w) = (now, e1) ->
  now - autoconfTimestamp w <= REPUBLISH_INTERVAL ->
  ensureAutoconf ext identifier POLL_INTERVAL w
  = (inr tt, mkWorld e1 (connected w) (autoconfTimestamp w) (trace w)).
Proof.
  intros Hnow Hle. unfold ensureAutoconf, bind at 1, ask at 1. rewrite Hnow.
  unfold bind at 1, get_autoconfTimestamp. cbn [autoconfTimestamp].
  apply Z.leb_le in Hle. unfold REPUBLISH_INTERVAL in Hle. rewrite Hle. reflexivity.
Qed.

Lemma ensureAutoconf_stale (w : World Env) (now now2 : Z) (e1 e2 : Env) :
  Date_now ext (env w) = (now, e1) ->
  Date_now ext e1 = (now2, e2) ->
  REPUBLISH_INTERVAL < now - autoconfTimestamp w ->
  exists evs,
    ensureAutoconf ext identifier POLL_INTERVAL w
    = (inr tt, mkWorld e2 (connected w) now2 (trace w ++ evs))
    /\ List.length (discovery evs) = 18%nat
    /\ List.length evs = 18%nat
    /\ telemetry evs = [].
Proof.
  intros Hnow Hnow2 Hlt. unfold ensureAutoconf, bind at 1, ask at 1. rewrite Hnow.
  unfold bind at 1, get_autoconfTimestamp. cbn [autoconfTimestamp].
  apply Z.leb_gt in Hlt. unfold REPUBLISH_INTERVAL in Hlt. rewrite Hlt.
  cbv zeta. rewrite !bind_makeConfig.
  erewrite stamp_now by (rewrite !env_push; exact Hnow2).
  rewrite !connected_push, !trace_push. cbn [connected trace].
  eexists. split.
  - rewrite <- !List.app_assoc. cbn [List.app]. reflexivity.
  - repeat split.
Qed.

Lemma ensureAutoconf_returns (w : World Env) :
  exists w1, ensureAutoconf ext identifier POLL_INTERVAL w = (inr tt, w1).
Proof.
  destruct (Date_now ext (env w)) as [t e1] eqn:Hnow.
  destruct (Z_le_gt_dec (t - autoconfTimestamp w) REPUBLISH_INTERVAL) as [Hle|Hgt].
  - eexists. exact (ensureAutoconf_fresh w t e1 Hnow Hle).
  - destruct (Date_now ext e1) as [t2 e2] eqn:Hnow2.
    destruct (ensureAutoconf_stale w t t2 e1 e2 Hnow Hnow2) as (evs & H & _); [lia|].
    eexists. exact H.
Qed.

Lemma handleData_quiet (data : Snapshot) :
  respects (grows is_emit) (handleData ext identifier POLL_INTERVAL data).
Proof.
  unfold handleData, ensureAutoconf, makeConfig, translate. cbv zeta. grows_steps.
Qed.

(** After the discovery step, [handleData] publishes telemetry only and
    leaves the timestamp alone. *)
Lemma handleData_telemetry (data : Snapshot) (w : World Env) :
  exists w1,
    ensureAutoconf ext identifier POLL_INTERVAL w = (inr tt, w1)
    /\ grows is_discovery w1 (snd (handleData ext identifier POLL_INTERVAL data w))
    /\ same_timestamp w1 (snd (handleData ext identifier POLL_INTERVAL data w)).
Proof.
  destruct (ensureAutoconf_returns w) as (w1 & H1). exists w1. split; [exact H1|].
  unfold handleData. rewrite (bind_inr _ _ _ _ _ H1). cbv zeta.
  match goal with
  | |- context [forEach data ?f w1] =>
      destruct (forEach data f w1) as [r w'] eqn:E; cbn [snd];
      assert (Hd : respects (grows is_discovery) (forEach data f))
        by (unfold translate; grows_steps);
      assert (Ht : respects same_timestamp (forEach data f))
        by (unfold translate; timestamp_steps)
  end.
  split; [exact (Hd _ _ _ E) | exact (Ht _ _ _ E)].
Qed.

End MqttClientProps.

(* ------------------------------------------------------------------ *)
(** ** The claims about the running bridge *)

Section BridgeProps.

Context {Env : Type} (ext : External Env).
Variables (interval slaveId : Z) (identifier : string) (POLL_INTERVAL : option string).

Lemma onData_listeners_quiet :
  forall listener, In listener (onData_listeners ext identifier POLL_INTERVAL) ->
  forall data, respects (grows is_emit) (listener data).
Proof.
  intros listener [<- | []] data. apply handleData_quiet.
Qed.

(** C2.  A run of the polling loop in which a block read or a decode of the
    poll cycle raises emits no snapshot and leaves the link disconnected; a
    snapshot that is emitted is the one of a cycle whose reads and decodes
    all returned, and it has every field of the read sequence. *)
Theorem poll_cycle_all_or_nothing (w : World Env) :
  let listeners := onData_listeners ext identifier POLL_INTERVAL in
  let w1 := snd (reconnect ext slaveId w) in
  let w' := snd (pollingLoop ext interval slaveId listeners w) in
  (forall e, connected w1 = true -> fst (poll_data ext w1) = inl e ->
     emitted (events_since w w') = [] /\ connected w' = false)
  /\ (forall data, In data (emitted (events_since w w')) ->
        connected w1 = true
        /\ fst (poll_data ext w1) = inr data
        /\ Object_keys data = POLL_KEYS).
Proof.
  cbv zeta.
  destruct (pollingLoop_emitted ext interval slaveId _ onData_listeners_quiet w) as [He Hc].
  cbv zeta in He, Hc. split.
  - intros e Hcon Hp. split.
    + rewrite He, Hcon, Hp. reflexivity.
    + apply Hc; [exact Hcon | now exists e].
  - intros data Hin. rewrite He in Hin.
    destruct (connected (snd (reconnect ext slaveId w))); [|destruct Hin].
    destruct (poll_data ext (snd (reconnect ext slaveId w))) as [[e|d] wp] eqn:Hp;
      cbn [fst] in Hin |- *; [destruct Hin|].
    destruct Hin as [<- | []].
    split; [reflexivity|]. split; [reflexivity|].
    now destruct (poll_data_inr_inv ext _ _ _ Hp).
Qed.

(** C10.  In every snapshot a run of the polling loop emits, the maximum
    and the minimum cell temperature are the same number: 0.1 times the
    signed 16-bit value at byte 0 of the block read at 35010. *)
Theorem cell_temperatures_equal (w : World Env) (data : Snapshot) :
  let listeners := onData_listeners ext identifier POLL_INTERVAL in
  let w' := snd (pollingLoop ext interval slaveId listeners w) in
  In data (emitted (events_since w w')) ->
  assoc "max_cell_temperature" data = assoc "min_cell_temperature" data
  /\ exists (temp2 : Buffer) (v : Z) (e e' : Env),
       ModbusRTU_readHoldingRegisters ext 35010 2 e = (inr temp2, e')
       /\ readInt16BE temp2 0 = inr v
       /\ assoc "max_cell_temperature" data = Some (Z2float v * 0.1)%float
       /\ assoc "min_cell_temperature" data = Some (Z2float v * 0.1)%float.
Proof.
  cbv zeta. intros Hin.
  destruct (pollingLoop_emitted ext interval slaveId _ onData_listeners_quiet w) as [He _].
  cbv zeta in He. rewrite He in Hin.
  destruct (connected (snd (reconnect ext slaveId w))); [|destruct Hin].
  destruct (poll_data ext (snd (reconnect ext slaveId w))) as [[e|d] wp] eqn:Hp;
    cbn [fst] in Hin; [destruct Hin|].
  destruct Hin as [<- | []].
  destruct (poll_data_inr_inv ext _ _ _ Hp) as (_ & temp2 & v & e & e' & Hr & Hv & Hmax & Hmin).
  split; [now rewrite Hmax, Hmin|].
  now exists temp2, v, e, e'.
Qed.


(** C5.  What [handleData] adds to the trace on a snapshot is first the
    discovery messages [meta], present if and only if more than four hours
    passed since the timestamp, and then the rest, with the telemetry; a
    republish sets the timestamp to the clock read after it, and one second
    after the timestamp nothing is republished. *)
Theorem discovery_republish (data : Snapshot) (w : World Env) :
  let t := fst (Date_now ext (env w)) in
  let t' := fst (Date_now ext (snd (Date_now ext (env w)))) in
  let elapsed := t - autoconfTimestamp w in
  let w' := snd (handleData ext identifier POLL_INTERVAL data w) in
  exists meta rest,
    events_since w w' = meta ++ rest
    /\ List.length (discovery meta) = List.length meta
    /\ telemetry meta = []
    /\ discovery rest = []
    /\ (REPUBLISH_INTERVAL < elapsed <-> meta <> [])
    /\ (REPUBLISH_INTERVAL < elapsed -> autoconfTimestamp w' = t')
    /\ (elapsed <= REPUBLISH_INTERVAL -> autoconfTimestamp w' = autoconfTimestamp w)
    /\ (elapsed = 1000 -> discovery (events_since w w') = []).
Proof.
  cbv zeta.
  destruct (handleData_telemetry ext identifier POLL_INTERVAL data w)
    as (w1 & H1 & (rest & Hrest & Hdrest) & Hts).
  set (w' := snd (handleData ext identifier POLL_INTERVAL data w)) in *.
  destruct (Date_now ext (env w)) as [t e1] eqn:Hnow. cbn [fst snd].
  destruct (Z_le_gt_dec (t - autoconfTimestamp w) REPUBLISH_INTERVAL) as [Hle|Hgt].
  - rewrite (ensureAutoconf_fresh ext identifier POLL_INTERVAL w t e1 Hnow Hle) in H1.
    injection H1 as <-. cbn [trace] in Hrest. unfold same_timestamp in Hts.
    cbn [autoconfTimestamp] in Hts.
    exists [], rest. rewrite (events_since_app _ _ _ Hrest).
    split; [reflexivity|]. split; [reflexivity|]. split; [reflexivity|].
    split; [exact Hdrest|].
    split; [split; [lia | intros H; now elim H]|].
    split; [lia|]. split; [intros _; exact Hts|]. intros _. exact Hdrest.
  - destruct (Date_now ext e1) as [t2 e2] eqn:Hnow2. cbn [fst].
    destruct (ensureAutoconf_stale ext identifier POLL_INTERVAL w t t2 e1 e2 Hnow Hnow2)
      as (meta & Hrun & Hd & Hlen & Htel); [lia|].
    rewrite Hrun in H1. injection H1 as <-. cbn [trace] in Hrest.
    unfold same_timestamp in Hts. cbn [autoconfTimestamp] in Hts.
    exists meta, rest.
    rewrite (events_since_app w w' (meta ++ rest))
      by (rewrite Hrest, List.app_assoc; reflexivity).
    assert (Hne : meta <> []) by (intros ->; discriminate Hlen).
    split; [reflexivity|]. split; [congruence|]. split; [exact Htel|].
    split; [exact Hdrest|].
    split; [split; [intros _; exact Hne | lia]|].
    split; [intros _; exact Hts|]. split; [lia|].
    unfold REPUBLISH_INTERVAL in Hgt. lia.
Qed.

(** C9, as the code has it.  On connecting to the broker the bridge
    subscribes to exactly one pattern, [<prefix>/<identifier>/set/#], with
    the multi-level wildcard. *)
Theorem on_connect_subscribes (w : World Env) :
  let w' := snd (on_connect ext identifier w) in
  subscriptions (events_since w w')
  = [MqttClient_TOPIC_PREFIX +++ "/" +++ identifier +++ "/set/#"].
Proof.
  cbv zeta. unfold on_connect, bind, Logger_info, Logger_error, record, ask, push.
  cbn [env connected autoconfTimestamp trace].
  destruct (mqtt_subscribe_error ext _ (env w)) as [[err|] e'];
    cbn [snd];
    (erewrite events_since_app by (cbn [trace]; rewrite <- !List.app_assoc; reflexivity));
    reflexivity.
Qed.

End BridgeProps.

(* ------------------------------------------------------------------ *)
(** ** The claims on the simulated device *)

Example parseInt_samples :
  parseInt "80" (Some 10) = Int 80
  /\ parseInt "  42abc" (Some 10) = Int 42
  /\ parseInt "-7" (Some 10) = Int (-7)
  /\ parseInt "0x1f" (Some 10) = Int 0
  /\ parseInt "0x1f" None = Int 31
  /\ parseInt "abc" (Some 10) = NaN
  /\ parseInt "" (Some 10) = NaN.
Proof. repeat split. Qed.

(** Beyond 2^53 [parseInt] gives the nearest double, and [Infinity] for
    what is out of range; the rendering of a double has the digits that are
    needed to read it back. *)
Example parseInt_doubles :
  parseInt "9007199254740993" (Some 10) = Int 9007199254740992
  /\ parseInt ("1" +++ string_of_list_ascii (repeat "0"%char 400)) (Some 10) = Int Infinity
  /\ jsint_toString (Int 9007199254740993) = "9007199254740992"
  /\ jsint_toString (Int (2 ^ 60)) = "1152921504606847000"
  /\ jsint_toString (Int (2 ^ 70)) = "1.1805916207174113e+21"
  /\ jsint_toString (Int (- Infinity)) = "-Infinity"
  /\ expire_after (Some "100000000000000000000") = 200000000000000000.
Proof. vm_compute. repeat split. Qed.

(** The block [00 64] read as a signed 16-bit value and scaled by 0.01
    is 1. *)
Example decode_centi_units :
  readInt16BE [Byte.x00; Byte.x64] 0 = inr 100
  /\ (Z2float 100 * 0.01)%float = 1%float.
Proof. split; reflexivity. Qed.

(** A topic below the command level, which [set/#] lets through, is dropped
    by [handleCommand]. *)
Example handleCommand_deeper_topic {Env : Type} (ext : External Env) (w : World Env) :
  handleCommand ext "marstek2mqtt/One/set/force_mode/now" "Charge" w = (inr tt, w).
Proof. reflexivity. Qed.

(** A first snapshot at time [T] publishes the 18 discovery messages and
    stamps the clock; the next one, a second after the stamp, publishes
    none. *)
Example republish_scenario :
  let w := world 1700000000000 true true 0 in
  let w1 := snd (handleData simulated "One" None [("soc", Z2float 55)] w) in
  let w2 := snd (handleData simulated "One" None [("soc", Z2float 56)] w1) in
  List.length (discovery (events_since w w1)) = 18%nat
  /\ autoconfTimestamp w1 = 1700000001000
  /\ fst (Date_now simulated (env w1)) - autoconfTimestamp w1 = 1000
  /\ discovery (events_since w1 w2) = []
  /\ telemetry (events_since w1 w2) = [("marstek2mqtt/One/soc", [digits (Z2float 56)])].
Proof. vm_compute. repeat split. Qed.

(** A poll against a device that stopped answering: nothing is emitted and
    the link is down for the next run. *)
Example unreachable_scenario :
  let w := world 1700000000123 false true 0 in
  let w' := snd (pollingLoop simulated 5000 1 (onData_listeners simulated "One" None) w) in
  emitted (events_since w w') = []
  /\ connected w' = false
  /\ events_since w w'
     = [ modbus_readHoldingRegisters 30001 6;
         Logger_log WARN ["Error during poll cycle"; "Timed out"];
         setTimeout 4877 ].
Proof. vm_compute. repeat split. Qed.

(** A poll in which the block at 37004 comes one byte short: the decode at
    offset 8 throws, nothing is emitted and the link is down. *)
Example short_block_scenario :
  let w := world 1700000000123 true true 0 in
  let w' := snd (pollingLoop truncating 5000 1 (onData_listeners truncating "One" None) w) in
  emitted (events_since w w') = []
  /\ connected w' = false
  /\ warnings (events_since w w') = [["Error during poll cycle"; boundsError 8 7]].
Proof. vm_compute. repeat split. Qed.

Lemma writeRegister_not_connected_witness :
  connected (world 0 true false 0) = false
  /\ writeRegister simulated 42010 (Int 1) (world 0 true false 0)
     = (inl "Not connected", world 0 true false 0).
Proof.
  split; [reflexivity|].
  apply (writeRegister_not_connected simulated 42010 (Int 1) (world 0 true false 0)).
  reflexivity.
Defined.

Lemma label_code_roundtrip_witness :
  js_get CONTROLS "force_mode"
    = Own (select 42010 [("0", "Stop"); ("1", "Charge"); ("2", "Discharge")])
  /\ In (Z_toString 1) (Object_keys [("0", "Stop"); ("1", "Charge"); ("2", "Discharge")])
  /\ exists label,
       labelForCode [("0", "Stop"); ("1", "Charge"); ("2", "Discharge")] (Z2float 1)
         = Some label
       /\ codeForLabel [("0", "Stop"); ("1", "Charge"); ("2", "Discharge")] label
          = Some (Int 1).
Proof.
  split; [reflexivity|].
  split; [vm_compute; right; left; reflexivity|].
  apply (label_code_roundtrip "force_mode" 42010
           [("0", "Stop"); ("1", "Charge"); ("2", "Discharge")] 1).
  - reflexivity.
  - vm_compute. right. left. reflexivity.
Defined.

Lemma handleCommand_number_witness :
  split "/" "marstek2mqtt/One/set/charge_to_soc" = ["marstek2mqtt"; "One"; "set"; "charge_to_soc"]
  /\ js_get CONTROLS "charge_to_soc" = Own (number 42011)
  /\ parseInt "80" (Some 10) = Int 80
  /\ handleCommand simulated "marstek2mqtt/One/set/charge_to_soc" "80" (world 0 true true 0)
     = writeToDevice simulated 42011 (Int 80)
         (push (Logger_log INFO ["Received command for charge_to_soc: 80"])
            (world 0 true true 0)).
Proof.
  split; [reflexivity|]. split; [reflexivity|]. split; [reflexivity|].
  apply (proj1 (proj2
           (handleCommand_number simulated "marstek2mqtt/One/set/charge_to_soc"
              "marstek2mqtt" "One" "charge_to_soc" "80" 42011 (world 0 true true 0)
              eq_refl eq_refl))).
  reflexivity.
Defined.

Lemma cell_temperatures_equal_witness :
  let w := world 1700000000123 true false 0 in
  let w' := snd (pollingLoop simulated 5000 1 (onData_listeners simulated "One" None) w) in
  let data := hd [] (emitted (events_since w w')) in
  In data (emitted (events_since w w'))
  /\ assoc "max_cell_temperature" data = Some 0.30000000000000004%float
  /\ assoc "max_cell_temperature" data = assoc "min_cell_temperature" data.
Proof.
  cbv zeta.
  assert (Hin : In (hd [] (emitted (events_since (world 1700000000123 true false 0)
                       (snd (pollingLoop simulated 5000 1
                               (onData_listeners simulated "One" None)
                               (world 1700000000123 true false 0))))))
                  (emitted (events_since (world 1700000000123 true false 0)
                       (snd (pollingLoop simulated 5000 1
                               (onData_listeners simulated "One" None)
                               (world 1700000000123 true false 0)))))).
  { vm_compute. left. reflexivity. }
  split; [exact Hin|]. split; [vm_compute; reflexivity|].
  exact (proj1 (cell_temperatures_equal simulated 5000 1 "One" None
                  (world 1700000000123 true false 0) _ Hin)).
Defined.

(** C7, as the claim has it: the payload "12abc" is no base-10 integer,
    so parsing it as one fails; yet no warning is logged and 12 is written
    to the register of [charge_to_soc]. *)
Lemma handleCommand_number_trailing_text :
  let w := world 0 true true 0 in
  let w' := snd (handleCommand simulated "marstek2mqtt/One/set/charge_to_soc" "12abc" w) in
  js_get CONTROLS "charge_to_soc" = Own (number 42011)
  /\ spec_base10_integer "12abc" = None
  /\ warnings (events_since w w') = []
  /\ writes (events_since w w') = [(42011, Int 12)].
Proof. vm_compute. repeat split. Qed.

(** C9, as the claim has it: the pattern subscribed to is not the one with
    the single-level wildcard. *)
Lemma on_connect_not_single_level :
  subscriptions
    (events_since (world 0 true false 0)
       (snd (on_connect simulated "One" (world 0 true false 0))))
  <> [MqttClient_TOPIC_PREFIX +++ "/" +++ "One" +++ "/set/+"].
Proof. intros H. vm_compute in H. discriminate H. Qed.

(* ------------------------------------------------------------------ *)
(** ** Register values as property keys *)

Lemma integers_kept_spec (n : nat) (c i : Z) :
  integers_kept n c = true -> c <= i < c + Z.of_nat n -> integer_kept i = true.
Proof.
  revert c. induction n as [|n IH]; intros c H Hi; [lia|].
  cbn [integers_kept] in H. apply andb_true_iff in H. destruct H as [Hc Hn].
  destruct (Z.eq_dec i c) as [->|Hne]; [exact Hc|].
  apply (IH (c + 1)); [exact Hn | lia].
Qed.

Lemma integers_kept_uint16 : integers_kept (Z.to_nat 65536) 0 = true.
Proof. vm_cast_no_check (eq_refl true). Qed.

(** Up to 2^53 a Number that is an integer is rendered by its digits. *)
Lemma Number_toString_small (z : Z) :
  Z.abs z < 2 ^ 53 -> Number_toString z = Z_toString z.
Proof.
  intros Hz. unfold Number_toString, toDouble. cbv zeta.
  destruct (Z.ltb_spec (Z.abs z) (2 ^ 53)) as [_|H]; [|lia].
  assert (Hinf : 2 ^ 53 < Infinity) by (unfold Infinity; apply Z.pow_lt_mono_r; lia).
  destruct (Z.leb_spec Infinity z); [lia|].
  destruct (Z.leb_spec z (- Infinity)); [lia|].
  unfold positive_toString.
  destruct (Z.ltb_spec z 0) as [Hneg|Hpos].
  - destruct (Z.ltb_spec (- z) (2 ^ 53)) as [_|H']; [|lia].
    destruct z as [|p|p]; try lia. reflexivity.
  - destruct (Z.ltb_spec z (2 ^ 53)) as [_|H']; [reflexivity|lia].
Qed.

(** The property key of a 16-bit register value is its decimal rendering. *)
Lemma numberKey_uint16 (c : Z) :
  0 <= c < 65536 -> numberKey (Z2float c) = Some (Z_toString c).
Proof.
  intros Hc.
  assert (H : integer_kept c = true)
    by (apply (integers_kept_spec _ 0 c integers_kept_uint16); lia).
  unfold integer_kept in H. unfold numberKey.
  destruct (float_integer (Z2float c)) as [z|]; [|discriminate H].
  apply Z.eqb_eq in H. subst z.
  destruct (Z.ltb_spec (Z.abs c) (10 ^ 21)); [|lia].
  rewrite Number_toString_small by lia. reflexivity.
Qed.

(* ------------------------------------------------------------------ *)
(** ** The link to the device *)

Section LinkProps.

Context {Env : Type} (ext : External Env).
Variables (interval slaveId : Z).

(** X1.  [connect] never throws.  It closes a session that is open, calls
    [connectTCP] once, and the link is up afterwards exactly when that call
    returned. *)
Theorem connect_outcome (w : World Env) :
  let opened := ModbusRTU_isOpen ext (env w) in
  let e0 := if opened then ModbusRTU_close ext (env w) else env w in
  let closing := if opened then [modbus_close] else [] in
  match ModbusRTU_connectTCP ext e0 with
  | (inr _, e1) =>
      connect ext slaveId w
      = (inr tt,
         mkWorld e1 true (autoconfTimestamp w)
           (trace w ++ closing ++
            [ modbus_connectTCP; modbus_setID slaveId; modbus_setTimeout 2000;
              Logger_log INFO ["Modbus connected"] ]))
  | (inl err, e1) =>
      connect ext slaveId w
      = (inr tt,
         mkWorld e1 false (autoconfTimestamp w)
           (trace w ++ closing ++
            [ modbus_connectTCP; Logger_log ERROR ["Modbus connection failed:"; err] ]))
  end.
Proof.
  cbv zeta. unfold connect, try_catch, bind, ask, call, record, push, set_connected,
    Logger_info, Logger_error, ret.
  cbn [env connected autoconfTimestamp trace].
  destruct (ModbusRTU_isOpen ext (env w)); cbn [env connected autoconfTimestamp trace];
    match goal with
    | |- context [ModbusRTU_connectTCP ext ?e] =>
        destruct (ModbusRTU_connectTCP ext e) as [[err|[]] e1]
    end;
    unfold bind, record, push, set_connected; cbn [env connected autoconfTimestamp trace];
    rewrite <- ?List.app_assoc; reflexivity.
Qed.

(** X7.  With the link up, [writeRegister] hands the address and the value
    to the Modbus client once and returns what the client returns; the link
    stays up even when the write fails. *)
Theorem writeRegister_connected (address : Z) (value : jsint) (w : World Env) :
  connected w = true ->
  let '(r, e') := ModbusRTU_writeRegister ext address value (env w) in
  writeRegister ext address value w
  = (r,
     mkWorld e' true (autoconfTimestamp w)
       (trace w ++
        [ Logger_log INFO ["Writing " +++ jsint_toString value
                           +++ " to register " +++ Z_toString address];
          modbus_writeRegister address value ])).
Proof.
  intros Hc. unfold writeRegister, Logger_info, bind, get_connected.
  rewrite Hc. unfold record, call, push. cbn [negb env connected autoconfTimestamp trace].
  destruct (ModbusRTU_writeRegister ext address value (env w)) as [r e'].
  rewrite Hc, <- List.app_assoc. reflexivity.
Qed.

End LinkProps.

(* ------------------------------------------------------------------ *)
(** ** Runs of the polling loop *)

(** [grows_steps], with [known] tried first at every step. *)
Ltac grows_steps_using known :=
  repeat first
    [ known
    | apply respects_bind; [apply grows_trans | | intros ?]
    | apply respects_try_catch; [apply grows_trans | | intros ?]
    | apply respects_ret; apply grows_refl
    | apply respects_throw; apply grows_refl
    | apply respects_lift; apply grows_refl
    | apply respects_get_connected; apply grows_refl
    | apply respects_get_autoconfTimestamp; apply grows_refl
    | apply record_grows; reflexivity
    | apply ask_grows
    | apply call_grows
    | apply set_connected_grows
    | apply set_autoconfTimestamp_grows
    | match goal with
      | |- respects _ (if ?b then _ else _) => destruct b
      | |- respects _ (match ?x with _ => _ end) => destruct x
      | |- respects _ (let '(_, _) := ?x in _) => destruct x
      end ].

Section TickProps.

Context {Env : Type} (ext : External Env).
Variables (interval slaveId : Z) (identifier : string) (POLL_INTERVAL : option string).

Lemma handleData_no_connect (data : Snapshot) :
  respects (grows is_connect) (handleData ext identifier POLL_INTERVAL data).
Proof.
  unfold handleData, ensureAutoconf, makeConfig, translate. cbv zeta. grows_steps.
Qed.

Lemma handleData_no_read (data : Snapshot) :
  respects (grows is_read) (handleData ext identifier POLL_INTERVAL data).
Proof.
  unfold handleData, ensureAutoconf, makeConfig, translate. cbv zeta. grows_steps.
Qed.

Lemma handleData_no_timer (data : Snapshot) :
  respects (grows is_timer) (handleData ext identifier POLL_INTERVAL data).
Proof.
  unfold handleData, ensureAutoconf, makeConfig, translate. cbv zeta. grows_steps.
Qed.


Lemma poll_data_no_connect : respects (grows is_connect) (poll_data ext).
Proof. unfold poll_data. cbv zeta. grows_steps. Qed.

Lemma poll_data_no_timer : respects (grows is_timer) (poll_data ext).
Proof. unfold poll_data. cbv zeta. grows_steps. Qed.

Lemma reconnect_no_read : respects (grows is_read) (reconnect ext slaveId).
Proof. unfold reconnect. grows_steps. Qed.

Lemma reconnect_no_timer : respects (grows is_timer) (reconnect ext slaveId).
Proof. unfold reconnect. grows_steps. Qed.

Lemma reconnect_no_telemetry : respects (grows is_telemetry) (reconnect ext slaveId).
Proof. unfold reconnect. grows_steps. Qed.

(** What [reconnect] adds: one connection attempt if the link is down,
    nothing if it is up. *)
Lemma reconnect_connects (w : World Env) :
  exists w1 evs,
    reconnect ext slaveId w = (inr tt, w1)
    /\ trace w1 = trace w ++ evs
    /\ connects evs = (if connected w then [] else [tt])
    /\ (connected w = true -> w1 = w).
Proof.
  unfold reconnect, bind at 1, get_connected.
  destruct (connected w) eqn:Hc; cbn [negb].
  - exists w, []. rewrite List.app_nil_r. repeat split.
  - unfold connect, try_catch, bind, ask, call, record, push, set_connected,
      Logger_info, Logger_error, ret.
    cbn [env connected autoconfTimestamp trace].
    destruct (ModbusRTU_isOpen ext (env w)); cbn [env connected autoconfTimestamp trace];
      match goal with
      | |- context [ModbusRTU_connectTCP ext ?e] =>
          destruct (ModbusRTU_connectTCP ext e) as [[err|[]] e1]
      end;
      unfold bind, record, push, set_connected; cbn [env connected autoconfTimestamp trace];
      do 2 eexists;
      (split; [reflexivity|]); cbn [trace];
      (split; [rewrite <- ?List.app_assoc; reflexivity|]);
      (split; [reflexivity | discriminate]).
Qed.

Section AnyListeners.

Variable listeners : list (Snapshot -> M Env unit).

(** A run is a reconnect, then the poll under its handler if the link is
    up, then the clock and the timer. *)
Lemma pollingLoop_parts (w : World Env) :
  exists (w1 w2 : World Env) (t : Z) (e2 : Env),
    reconnect ext slaveId w = (inr tt, w1)
    /\ (if connected w1
        then try_catch (poll ext listeners)
               (fun err => Logger_warn ["Error during poll cycle"; err] ;; set_connected false)
        else ret tt) w1 = (inr tt, w2)
    /\ Date_now ext (env w2) = (t, e2)
    /\ pollingLoop ext interval slaveId listeners w
       = (inr (interval - Z.rem t interval),
          push (setTimeout (interval - Z.rem t interval))
            (mkWorld e2 (connected w2) (autoconfTimestamp w2) (trace w2))).
Proof.
  destruct (reconnect_returns ext slaveId w) as (w1 & H1).
  assert (Hc : exists w2,
    (if connected w1
     then try_catch (poll ext listeners)
            (fun err => Logger_warn ["Error during poll cycle"; err] ;; set_connected false)
     else ret tt) w1 = (inr tt, w2)).
  { destruct (connected w1).
    - unfold try_catch. destruct (poll ext listeners w1) as [[e|[]] wp]; eexists; reflexivity.
    - exists w1. reflexivity. }
  destruct Hc as (w2 & H2).
  destruct (Date_now ext (env w2)) as [t e2] eqn:Hnow.
  exists w1, w2, t, e2. split; [exact H1|]. split; [exact H2|]. split; [exact Hnow|].
  unfold pollingLoop. rewrite (bind_inr _ _ _ _ _ H1).
  unfold bind at 1, get_connected. rewrite (bind_inr _ _ _ _ _ H2).
  unfold bind, ask. rewrite Hnow. reflexivity.
Qed.

(** X3.  When the link is still down after the reconnect, the run reads no
    block, emits nothing and leaves the link down; it only sets the timer. *)
Theorem pollingLoop_link_down (w : World Env) :
  connected (snd (reconnect ext slaveId w)) = false ->
  let w' := snd (pollingLoop ext interval slaveId listeners w) in
  reads (events_since w w') = []
  /\ emitted (events_since w w') = []
  /\ telemetry (events_since w w') = []
  /\ connected w' = false.
Proof.
  intros Hdown. cbv zeta.
  destruct (pollingLoop_parts w) as (w1 & w2 & t & e2 & H1 & H2 & Hnow & Hrun).
  rewrite H1 in Hdown. cbn [snd] in Hdown. rewrite Hdown in H2.
  injection H2 as <-.
  destruct (reconnect_no_read _ _ _ H1) as (evr & Htr & Hr).
  destruct (reconnect_quiet ext slaveId _ _ _ H1) as (eve & Hte & He).
  destruct (reconnect_no_telemetry _ _ _ H1) as (evt & Htt & Ht).
  rewrite Hrun. cbn [snd]. unfold push. cbn [connected].
  repeat split; try exact Hdown.
  - erewrite events_since_app by (cbn [trace]; rewrite Htr, <- List.app_assoc; reflexivity).
    unfold reads in *. rewrite collect_app, Hr. reflexivity.
  - erewrite events_since_app by (cbn [trace]; rewrite Hte, <- List.app_assoc; reflexivity).
    unfold emitted in *. rewrite collect_app, He. reflexivity.
  - erewrite events_since_app by (cbn [trace]; rewrite Htt, <- List.app_assoc; reflexivity).
    unfold telemetry in *. rewrite collect_app, Ht. reflexivity.
Qed.

Lemma forEach_app {A} (l1 l2 : list A) (f : A -> M Env unit) (w : World Env) :
  forEach (l1 ++ l2) f w = (forEach l1 f ;; forEach l2 f) w.
Proof.
  revert w. induction l1 as [|a l1 IH]; intros w; cbn [forEach List.app].
  - reflexivity.
  - unfold bind. destruct (f a w) as [[e|[]] w1]; [reflexivity|].
    rewrite IH. reflexivity.
Qed.

(** X6.  A listener that throws ends the delivery: the listeners registered
    after it are not called with the snapshot, and the run treats the poll
    as failed, logs the error and takes the link down. *)
Theorem listener_failure (before after : list (Snapshot -> M Env unit))
    (failing : Snapshot -> M Env unit) (w w2 w3 w4 : World Env)
    (data : Snapshot) (err : Exn) :
  listeners = before ++ failing :: after ->
  connected (snd (reconnect ext slaveId w)) = true ->
  poll_data ext (snd (reconnect ext slaveId w)) = (inr data, w2) ->
  forEach before (fun listener => listener data) (push (eventEmitter_emit data) w2)
    = (inr tt, w3) ->
  failing data w3 = (inl err, w4) ->
  exists (t : Z) (e2 : Env),
    Date_now ext (env w4) = (t, e2)
    /\ pollingLoop ext interval slaveId listeners w
       = (inr (interval - Z.rem t interval),
          mkWorld e2 false (autoconfTimestamp w4)
            (trace w4 ++
             [ Logger_log WARN ["Error during poll cycle"; err];
               setTimeout (interval - Z.rem t interval) ])).
Proof.
  intros Hl Hc Hp Hb Hf.
  destruct (reconnect_returns ext slaveId w) as (w1 & H1).
  rewrite H1 in Hc, Hp. cbn [snd] in Hc, Hp.
  assert (He : emitData listeners data w2 = (inl err, w4)).
  { unfold emitData, bind at 1, record. rewrite Hl, forEach_app.
    rewrite (bind_inr _ _ _ _ _ Hb). cbn [forEach].
    unfold bind at 1. rewrite Hf. reflexivity. }
  destruct (Date_now ext (env w4)) as [t e2] eqn:Hnow.
  exists t, e2. split; [reflexivity|].
  unfold pollingLoop. rewrite (bind_inr _ _ _ _ _ H1).
  unfold bind at 1, get_connected. rewrite Hc.
  unfold bind at 1, try_catch, poll. rewrite (bind_inr _ _ _ _ _ Hp), He.
  unfold bind, Logger_warn, record, set_connected, ask, push.
  cbn [env connected autoconfTimestamp trace]. rewrite Hnow.
  cbn [env connected autoconfTimestamp trace].
  rewrite <- List.app_assoc. reflexivity.
Qed.

End AnyListeners.

Lemma poll_no_connect :
  respects (grows is_connect) (poll ext (onData_listeners ext identifier POLL_INTERVAL)).
Proof.
  unfold poll, emitData, onData_listeners. cbn [forEach].
  grows_steps_using ltac:(first [apply poll_data_no_connect | apply handleData_no_connect]).
Qed.

Lemma poll_no_timer :
  respects (grows is_timer) (poll ext (onData_listeners ext identifier POLL_INTERVAL)).
Proof.
  unfold poll, emitData, onData_listeners. cbn [forEach].
  grows_steps_using ltac:(first [apply poll_data_no_timer | apply handleData_no_timer]).
Qed.

Lemma cycle_no_connect (w1 : World Env) :
  respects (grows is_connect)
    (if connected w1
     then try_catch (poll ext (onData_listeners ext identifier POLL_INTERVAL))
            (fun err => Logger_warn ["Error during poll cycle"; err] ;; set_connected false)
     else ret tt).
Proof.
  destruct (connected w1); unfold Logger_warn;
    grows_steps_using ltac:(apply poll_no_connect).
Qed.

Lemma cycle_no_timer (w1 : World Env) :
  respects (grows is_timer)
    (if connected w1
     then try_catch (poll ext (onData_listeners ext identifier POLL_INTERVAL))
            (fun err => Logger_warn ["Error during poll cycle"; err] ;; set_connected false)
     else ret tt).
Proof.
  destruct (connected w1); unfold Logger_warn;
    grows_steps_using ltac:(apply poll_no_timer).
Qed.

(** X2.  A run of the polling loop calls [connectTCP] exactly once when the
    link is down at its start, and not at all when the link is up. *)
Theorem pollingLoop_connects (w : World Env) :
  let w' := snd (pollingLoop ext interval slaveId
                   (onData_listeners ext identifier POLL_INTERVAL) w) in
  connects (events_since w w') = (if connected w then [] else [tt]).
Proof.
  cbv zeta.
  destruct (pollingLoop_parts (onData_listeners ext identifier POLL_INTERVAL) w)
    as (w1 & w2 & t & e2 & H1 & H2 & Hnow & Hrun).
  destruct (reconnect_connects w) as (w1' & evs1 & H1' & Ht1 & Hc1 & _).
  rewrite H1 in H1'. injection H1' as <-.
  destruct (cycle_no_connect w1 _ _ _ H2) as (evs2 & Ht2 & Hc2).
  rewrite Hrun. cbn [snd].
  erewrite events_since_app
    by (unfold push; cbn [trace]; rewrite Ht2, Ht1, <- !List.app_assoc; reflexivity).
  unfold connects in *. rewrite !collect_app, Hc1, Hc2. cbn [collect is_connect].
  now rewrite List.app_nil_r.
Qed.

(** One run with the bridge listening: it returns, sets one timer and
    emits at most one snapshot. *)
Lemma pollingLoop_tick (w : World Env) :
  exists (d : Z) (w' : World Env) (evs : list Event),
    pollingLoop ext interval slaveId (onData_listeners ext identifier POLL_INTERVAL) w
    = (inr d, w')
    /\ trace w' = trace w ++ evs
    /\ timers evs = [d]
    /\ (List.length (emitted evs) <= 1)%nat.
Proof.
  destruct (pollingLoop_parts (onData_listeners ext identifier POLL_INTERVAL) w)
    as (w1 & w2 & t & e2 & H1 & H2 & Hnow & Hrun).
  destruct (reconnect_no_timer _ _ _ H1) as (evs1 & Ht1 & Hc1).
  destruct (cycle_no_timer w1 _ _ _ H2) as (evs2 & Ht2 & Hc2).
  eexists _, _, (evs1 ++ evs2 ++ [setTimeout (interval - Z.rem t interval)]).
  split; [exact Hrun|].
  assert (Htr : trace (push (setTimeout (interval - Z.rem t interval))
                         (mkWorld e2 (connected w2) (autoconfTimestamp w2) (trace w2)))
                = trace w ++ evs1 ++ evs2 ++ [setTimeout (interval - Z.rem t interval)]).
  { unfold push. cbn [trace]. rewrite Ht2, Ht1, <- !List.app_assoc. reflexivity. }
  split; [exact Htr|]. split.
  - unfold timers in *. rewrite !collect_app, Hc1, Hc2. reflexivity.
  - pose proof (pollingLoop_emitted ext interval slaveId _
                  (onData_listeners_quiet ext identifier POLL_INTERVAL) w) as [He _].
    cbv zeta in He. rewrite Hrun, H1 in He. cbn [snd] in He.
    rewrite (events_since_app _ _ _ Htr) in He. rewrite He.
    destruct (connected w1); [|cbn [List.length]; repeat constructor].
    destruct (fst (poll_data ext w1)); cbn [List.length]; repeat constructor.
Qed.

(** X8.  The first [n] runs of the loop all return, whatever the device
    does: they set [n] timers, one each, and emit at most [n] snapshots. *)
Theorem loop_runs (n : nat) (w : World Env) :
  exists w',
    loop ext interval slaveId (onData_listeners ext identifier POLL_INTERVAL) n w
    = (inr tt, w')
    /\ List.length (timers (events_since w w')) = n
    /\ (List.length (emitted (events_since w w')) <= n)%nat.
Proof.
  assert (H : exists w' evs,
    loop ext interval slaveId (onData_listeners ext identifier POLL_INTERVAL) n w
    = (inr tt, w')
    /\ trace w' = trace w ++ evs
    /\ List.length (timers evs) = n
    /\ (List.length (emitted evs) <= n)%nat).
  { revert w. induction n as [|n IH]; intros w.
    - exists w, []. rewrite List.app_nil_r. repeat split. cbn. lia.
    - destruct (pollingLoop_tick w) as (d & w1 & evs1 & Hrun & Ht1 & Htm1 & Hem1).
      destruct (IH w1) as (w' & evs & Hloop & Ht & Htm & Hem).
      exists w', (evs1 ++ evs). cbn [loop]. rewrite (bind_inr _ _ _ _ _ Hrun).
      split; [exact Hloop|]. split; [rewrite Ht, Ht1, List.app_assoc; reflexivity|].
      unfold timers, emitted in *. rewrite !collect_app, !List.length_app, Htm1, Htm.
      split; [reflexivity | lia]. }
  destruct H as (w' & evs & Hloop & Ht & Htm & Hem).
  exists w'. rewrite (events_since_app _ _ _ Ht). now repeat split.
Qed.

End TickProps.

(* ------------------------------------------------------------------ *)
(** ** The reads and decodes of a poll *)

Lemma byteAt_Some (b : Buffer) (i : Z) :
  0 <= i < Z.of_nat (List.length b) -> exists x, byteAt b i = Some x.
Proof.
  intros H. unfold byteAt. destruct (Z.ltb_spec i 0); [lia|].
  destruct (nth_error b (Z.to_nat i)) as [x|] eqn:E.
  - eexists. reflexivity.
  - apply nth_error_None in E. lia.
Qed.

Lemma readUInt16BE_returns (b : Buffer) (offset : Z) :
  0 <= offset -> offset + 2 <= Z.of_nat (List.length b) ->
  exists v, readUInt16BE b offset = inr v.
Proof.
  intros H0 H1. unfold readUInt16BE.
  destruct (byteAt_Some b offset) as [x ->]; [lia|].
  destruct (byteAt_Some b (offset + 1)) as [y ->]; [lia|].
  eexists. reflexivity.
Qed.

Lemma readInt16BE_returns (b : Buffer) (offset : Z) :
  0 <= offset -> offset + 2 <= Z.of_nat (List.length b) ->
  exists v, readInt16BE b offset = inr v.
Proof.
  intros H0 H1. unfold readInt16BE.
  destruct (byteAt_Some b offset) as [x ->]; [lia|].
  destruct (byteAt_Some b (offset + 1)) as [y ->]; [lia|].
  eexists. reflexivity.
Qed.

Lemma readUInt32BE_returns (b : Buffer) (offset : Z) :
  0 <= offset -> offset + 4 <= Z.of_nat (List.length b) ->
  exists v, readUInt32BE b offset = inr v.
Proof.
  intros H0 H1. unfold readUInt32BE.
  destruct (byteAt_Some b offset) as [x ->]; [lia|].
  destruct (byteAt_Some b (offset + 3)) as [y ->]; [lia|].
  destruct (byteAt_Some b (offset + 1)) as [x1 ->]; [lia|].
  destruct (byteAt_Some b (offset + 2)) as [x2 ->]; [lia|].
  eexists. reflexivity.
Qed.

Lemma readInt32BE_returns (b : Buffer) (offset : Z) :
  0 <= offset -> offset + 4 <= Z.of_nat (List.length b) ->
  exists v, readInt32BE b offset = inr v.
Proof.
  intros H0 H1. unfold readInt32BE.
  destruct (readUInt32BE_returns b offset H0 H1) as [v ->]. eexists. reflexivity.
Qed.

Lemma reads_read_events (blocks : list (Z * Z)) :
  reads (List.map read_event blocks) = blocks.
Proof.
  induction blocks as [|[s l] blocks IH]; [reflexivity|].
  unfold reads in *. cbn. now rewrite IH.
Qed.

Section PollProps.

Context {Env : Type} (ext : External Env).

Lemma bind_cases {A B} (m : M Env A) (k : A -> M Env B) w r w' :
  bind m k w = (r, w') ->
  (exists e, m w = (inl e, w') /\ r = inl e)
  \/ (exists a w1, m w = (inr a, w1) /\ k a w1 = (r, w')).
Proof.
  unfold bind. destruct (m w) as [[e|a] w1]; intros H.
  - left. injection H as <- <-. now exists e.
  - right. now exists a, w1.
Qed.

Lemma bind_returns {A B} (m : M Env A) (k : A -> M Env B) w a w1 :
  m w = (inr a, w1) ->
  (exists b w', k a w1 = (inr b, w')) ->
  exists b w', bind m k w = (inr b, w').
Proof. intros Hm (b & w' & Hk). exists b, w'. now rewrite (bind_inr _ _ _ _ _ Hm). Qed.

Lemma readBlock_trace (start length : Z) (w : World Env) r w1 :
  readBlock ext start length w = (r, w1) ->
  trace w1 = trace w ++ [read_event (start, length)].
Proof.
  unfold readBlock, bind, record, call, push. cbn [env connected autoconfTimestamp trace].
  destruct (ModbusRTU_readHoldingRegisters ext start length (env w)) as [r0 e'].
  intros H. injection H as _ <-. reflexivity.
Qed.

Lemma lift_world {A} (x : Exn + A) (w : World Env) r w1 :
  lift x w = (r, w1) -> w1 = w.
Proof. unfold lift. intros H. now injection H. Qed.

Ltac prefix_length :=
  first
    [ exists 0%nat; split; [reflexivity|]
    | exists 1%nat; split; [reflexivity|]
    | exists 2%nat; split; [reflexivity|]
    | exists 3%nat; split; [reflexivity|]
    | exists 4%nat; split; [reflexivity|]
    | exists 5%nat; split; [reflexivity|]
    | exists 6%nat; split; [reflexivity|]
    | exists 7%nat; split; [reflexivity|]
    | exists 8%nat; split; [reflexivity|]
    | exists 9%nat; split; [reflexivity|]
    | exists 10%nat; split; [reflexivity|]
    | exists 11%nat; split; [reflexivity|]
    | exists 12%nat; split; [reflexivity|]
    | exists 13%nat; split; [reflexivity|] ].

Lemma poll_data_reads_from (w w0 : World Env) r w' :
  trace w0 = trace w ++ [] ->
  poll_data ext w0 = (r, w') ->
  exists n,
    trace w' = trace w ++ List.map read_event (firstn n POLL_BLOCKS)
    /\ (forall data, r = inr data -> n = 13%nat).
Proof.
  intros Hacc H. unfold poll_data in H. cbv zeta in H.
  repeat
    match type of H with
    | bind _ _ _ = _ =>
        apply bind_cases in H;
        destruct H as [(? & Hm & ->) | (? & ? & Hm & H)];
        [ first [ apply readBlock_trace in Hm; rewrite Hm, Hacc, <- List.app_assoc
                | apply lift_world in Hm; rewrite Hm, Hacc ];
          cbn [List.app]; prefix_length; intros ? Hd; discriminate Hd
        | first [ apply readBlock_trace in Hm;
                  rewrite Hacc, <- List.app_assoc in Hm; cbn [List.app] in Hm;
                  clear Hacc; rename Hm into Hacc
                | apply lift_world in Hm; rewrite Hm in H; clear Hm ] ]
    end.
  unfold ret in H. injection H as <- <-. rewrite Hacc.
  exists 13%nat. split; reflexivity.
Qed.

(** A run of the reads and decodes adds to the trace only reads, and these
    are the first blocks of [POLL_BLOCKS], in order; all thirteen if it
    returns. *)
Lemma poll_data_reads (w : World Env) r w' :
  poll_data ext w = (r, w') ->
  exists n,
    trace w' = trace w ++ List.map read_event (firstn n POLL_BLOCKS)
    /\ (forall data, r = inr data -> n = 13%nat).
Proof. apply poll_data_reads_from. now rewrite List.app_nil_r. Qed.

(** X4.  A poll reads the thirteen blocks of [POLL_BLOCKS] in that order
    and stops at the first read or decode that throws: what it adds to the
    trace is the reads of a prefix of the list, and of the whole list when
    it returns. *)
Theorem poll_reads_in_order (w : World Env) :
  let w' := snd (poll_data ext w) in
  exists n,
    events_since w w' = List.map read_event (firstn n POLL_BLOCKS)
    /\ reads (events_since w w') = firstn n POLL_BLOCKS
    /\ (forall data, fst (poll_data ext w) = inr data -> n = 13%nat).
Proof.
  cbv zeta. destruct (poll_data ext w) as [r w'] eqn:E. cbn [fst snd].
  destruct (poll_data_reads w r w' E) as (n & Ht & Hn).
  exists n. rewrite (events_since_app _ _ _ Ht).
  split; [reflexivity|]. split; [apply reads_read_events | exact Hn].
Qed.

Section WellFormed.

Hypothesis blocks_well_formed :
  forall (start count : Z) (e : Env),
    In (start, count) POLL_BLOCKS ->
    exists (b : Buffer) (e' : Env),
      ModbusRTU_readHoldingRegisters ext start count e = (inr b, e')
      /\ Z.of_nat (List.length b) = 2 * count.

Lemma readBlock_well_formed (start count : Z) (w : World Env) :
  In (start, count) POLL_BLOCKS ->
  exists (b : Buffer) (w1 : World Env),
    readBlock ext start count w = (inr b, w1)
    /\ Z.of_nat (List.length b) = 2 * count.
Proof.
  intros Hin.
  destruct (blocks_well_formed start count (env w) Hin) as (b & e' & Hr & Hlen).
  exists b. eexists. split; [|exact Hlen].
  unfold readBlock, bind, record, call, push. cbn [env connected autoconfTimestamp trace].
  rewrite Hr. reflexivity.
Qed.

(** X5.  When the device answers every read of [POLL_BLOCKS] with a block of
    twice as many bytes as registers asked, no decode is out of bounds:
    the poll returns a snapshot. *)
Theorem poll_data_returns (w : World Env) :
  exists data w', poll_data ext w = (inr data, w').
Proof.
  unfold poll_data. cbv zeta.
  repeat
    match goal with
    | |- exists _ _, bind (readBlock ext ?a ?n) _ ?w0 = _ =>
        let Hrb := fresh "Hrb" in
        destruct (readBlock_well_formed a n w0) as (? & ? & Hrb & ?);
        [ cbv [POLL_BLOCKS In]; tauto
        | eapply bind_returns; [exact Hrb|]; cbv beta ]
    | |- exists _ _, bind (lift (readInt16BE ?b ?o)) _ ?w0 = _ =>
        let Hv := fresh "Hv" in
        destruct (readInt16BE_returns b o) as [? Hv]; [lia | lia |];
        eapply bind_returns; [unfold lift; rewrite Hv; reflexivity|]; cbv beta
    | |- exists _ _, bind (lift (readUInt16BE ?b ?o)) _ ?w0 = _ =>
        let Hv := fresh "Hv" in
        destruct (readUInt16BE_returns b o) as [? Hv]; [lia | lia |];
        eapply bind_returns; [unfold lift; rewrite Hv; reflexivity|]; cbv beta
    | |- exists _ _, bind (lift (readInt32BE ?b ?o)) _ ?w0 = _ =>
        let Hv := fresh "Hv" in
        destruct (readInt32BE_returns b o) as [? Hv]; [lia | lia |];
        eapply bind_returns; [unfold lift; rewrite Hv; reflexivity|]; cbv beta
    | |- exists _ _, bind (lift (readUInt32BE ?b ?o)) _ ?w0 = _ =>
        let Hv := fresh "Hv" in
        destruct (readUInt32BE_returns b o) as [? Hv]; [lia | lia |];
        eapply bind_returns; [unfold lift; rewrite Hv; reflexivity|]; cbv beta
    end.
  do 2 eexists. reflexivity.
Qed.

End WellFormed.

End PollProps.

(* ------------------------------------------------------------------ *)
(** ** Telemetry *)

Lemma js_get_own_or_undefined {A} (o : Obj A) (key : string) :
  existsb (String.eqb key) Object_prototype = false ->
  js_get o key = match assoc key o with Some a => Own a | None => Undefined end.
Proof. intros H. unfold js_get. destruct (assoc key o); [reflexivity|]. now rewrite H. Qed.

Lemma js_get_Own_assoc {A} (o : Obj A) (key : string) (a : A) :
  js_get o key = Own a -> assoc key o = Some a.
Proof.
  unfold js_get. destruct (assoc key o); [congruence|].
  destruct (existsb _ _); discriminate.
Qed.

Section TelemetryProps.

Context {Env : Type} (ext : External Env).
Variables (identifier : string) (POLL_INTERVAL : option string).

Lemma handleData_eq (data : Snapshot) :
  handleData ext identifier POLL_INTERVAL data
  = (ensureAutoconf ext identifier POLL_INTERVAL ;; forEach data (publishEntry identifier)).
Proof. reflexivity. Qed.

Lemma ensureAutoconf_no_telemetry :
  respects (grows is_telemetry) (ensureAutoconf ext identifier POLL_INTERVAL).
Proof. unfold ensureAutoconf, makeConfig. cbv zeta. grows_steps. Qed.

Lemma ensureAutoconf_no_template_warning :
  respects (grows is_template_warning) (ensureAutoconf ext identifier POLL_INTERVAL).
Proof. unfold ensureAutoconf, makeConfig. cbv zeta. grows_steps. Qed.

Lemma ensureAutoconf_same_connected (w : World Env) :
  connected (snd (ensureAutoconf ext identifier POLL_INTERVAL w)) = connected w.
Proof.
  destruct (Date_now ext (env w)) as [t e1] eqn:Hnow.
  destruct (Z_le_gt_dec (t - autoconfTimestamp w) REPUBLISH_INTERVAL) as [Hle|Hgt].
  - rewrite (ensureAutoconf_fresh ext identifier POLL_INTERVAL w t e1 Hnow Hle). reflexivity.
  - destruct (Date_now ext e1) as [t2 e2] eqn:Hnow2.
    destruct (ensureAutoconf_stale ext identifier POLL_INTERVAL w t t2 e1 e2 Hnow Hnow2)
      as (evs & H & _); [lia|].
    rewrite H. reflexivity.
Qed.

(** One entry: possibly a warning, then the message. *)
Lemma publishEntry_returns (key : string) (value : float) (w : World Env) :
  existsb (String.eqb key) Object_prototype = false ->
  exists warning : list Event,
    publishEntry identifier (key, value) w
    = (inr tt,
       mkWorld (env w) (connected w) (autoconfTimestamp w)
         (trace w ++ warning ++
          [mqtt_publish (stateTopic identifier key)
             (template (publishedPayload key value)) false]))
    /\ telemetry warning = [].
Proof.
  intros Hkey.
  unfold publishEntry, translate, publishedPayload. cbv zeta.
  rewrite !js_get_own_or_undefined by exact Hkey.
  destruct (assoc key CONTROLS) as [[register map|register]|];
    [ destruct (labelForCode map value) as [label|]
    | destruct (assoc key READ_ONLY_LOOKUPS) as [map|];
      [destruct (labelForCode map value) as [label|]|] ..].
  all: unfold bind, record, push, ret; cbn [env connected autoconfTimestamp trace].
  all: rewrite <- ?List.app_assoc; cbn [List.app].
  all: lazymatch goal with
       | |- context [Logger_log_template ?l ?m :: mqtt_publish _ _ _ :: _] =>
           exists [Logger_log_template l m]
       | |- context [mqtt_publish _ _ _ :: _] => exists []
       end.
  all: split; reflexivity.
Qed.

(** One entry of a key with a code table, holding a 16-bit code. *)
Lemma publishEntry_code (key table : string) (c : Z) (map : CodeMap) (w : World Env) :
  0 <= c < 65536 ->
  (exists register, js_get CONTROLS key = Own (select register map) /\ table = "control map")
  \/ ((forall register m, js_get CONTROLS key <> Own (select register m))
      /\ js_get READ_ONLY_LOOKUPS key = Own map /\ table = "lookup map") ->
  publishEntry identifier (key, Z2float c) w
  = (inr tt,
     mkWorld (env w) (connected w) (autoconfTimestamp w)
       (trace w ++
        match assoc (Z_toString c) map with
        | Some label =>
            [mqtt_publish (stateTopic identifier key) (template [chars label]) false]
        | None =>
            [Logger_log_template WARN
               [chars "Value "; digits (Z2float c);
                chars (" for " +++ key +++ " not found in " +++ table)];
             mqtt_publish (stateTopic identifier key) (template [digits (Z2float c)]) false]
        end)).
Proof.
  intros Hc Htable.
  assert (Hpayload :
    match js_get CONTROLS key with
    | Own (select _ map) => translate map key (Z2float c) "control map"
    | _ =>
        match js_get READ_ONLY_LOOKUPS key with
        | Own map => translate map key (Z2float c) "lookup map"
        | Inherited => throw "Cannot read properties of undefined"
        | Undefined => ret [digits (Z2float c)]
        end
    end = translate (Env := Env) map key (Z2float c) table).
  { destruct Htable as [(register & H & ->)|(Hno & H & ->)].
    - rewrite H. reflexivity.
    - rewrite H. destruct (js_get CONTROLS key) as [[r m|r]| |]; try reflexivity.
      now destruct (Hno r m). }
  unfold publishEntry, stateTopic. rewrite Hpayload.
  unfold translate, labelForCode. rewrite (numberKey_uint16 c Hc).
  unfold bind, record, push, ret.
  destruct (assoc (Z_toString c) map); cbn [env connected autoconfTimestamp trace];
    rewrite <- ?List.app_assoc; reflexivity.
Qed.

Lemma forEach_publishEntry (data : Snapshot) (w : World Env) :
  (forall key, In key (Object_keys data) ->
     existsb (String.eqb key) Object_prototype = false) ->
  exists (w' : World Env) (evs : list Event),
    forEach data (publishEntry identifier) w = (inr tt, w')
    /\ trace w' = trace w ++ evs
    /\ List.map fst (telemetry evs) = List.map (stateTopic identifier) (Object_keys data)
    /\ connected w' = connected w
    /\ env w' = env w
    /\ autoconfTimestamp w' = autoconfTimestamp w
    /\ telemetry evs
       = List.map (fun '(key, value) =>
                     (stateTopic identifier key, publishedPayload key value)) data.
Proof.
  revert w. induction data as [|[key value] data IH]; intros w Hkeys.
  - exists w, []. rewrite List.app_nil_r. repeat split.
  - destruct (publishEntry_returns key value w (Hkeys key (or_introl eq_refl)))
      as (warning & Hstep & Hwarn).
    destruct (IH (mkWorld (env w) (connected w) (autoconfTimestamp w)
                    (trace w ++ warning ++
                     [mqtt_publish (stateTopic identifier key)
                        (template (publishedPayload key value)) false]))
                 (fun k Hk => Hkeys k (or_intror Hk)))
      as (w' & evs & Hrun & Ht & Htel & Hc & He & Ha & Hpay).
    eexists w', _.
    cbn [forEach]. rewrite (bind_inr _ _ _ _ _ Hstep).
    split; [exact Hrun|].
    split; [rewrite Ht; cbn [trace]; rewrite <- !List.app_assoc; reflexivity|].
    unfold telemetry in *. rewrite !collect_app, Hwarn. cbn [collect is_telemetry List.app].
    split; [cbn [List.map fst Object_keys]; f_equal; exact Htel|].
    split; [exact Hc|]. split; [exact He|]. split; [exact Ha|].
    cbn [List.map]. f_equal. exact Hpay.
Qed.

(** The telemetry of [handleData], entry by entry. *)
Lemma handleData_published (data : Snapshot) (w : World Env) :
  (forall key, In key (Object_keys data) ->
     existsb (String.eqb key) Object_prototype = false) ->
  exists w' : World Env,
    handleData ext identifier POLL_INTERVAL data w = (inr tt, w')
    /\ List.map fst (telemetry (events_since w w'))
       = List.map (stateTopic identifier) (Object_keys data)
    /\ connected w' = connected w
    /\ telemetry (events_since w w')
       = List.map (fun '(key, value) =>
                     (stateTopic identifier key, publishedPayload key value)) data.
Proof.
  intros Hkeys.
  destruct (ensureAutoconf_returns ext identifier POLL_INTERVAL w) as (w1 & H1).
  destruct (forEach_publishEntry data w1 Hkeys)
    as (w' & evs & Hrun & Ht & Htel & Hc & _ & _ & Hpay).
  exists w'. rewrite handleData_eq, (bind_inr _ _ _ _ _ H1). split; [exact Hrun|].
  destruct (ensureAutoconf_no_telemetry w _ _ H1) as (evs1 & Ht1 & Hsel1).
  rewrite (events_since_app w w' (evs1 ++ evs))
    by (rewrite Ht, Ht1, <- List.app_assoc; reflexivity).
  unfold telemetry in *. rewrite collect_app, Hsel1. cbn [List.app].
  split; [exact Htel|]. split; [|exact Hpay].
  rewrite Hc. pose proof (ensureAutoconf_same_connected w) as H. now rewrite H1 in H.
Qed.

(** X9.  [handleData] returns and publishes every entry of the snapshot, in
    the snapshot's order, each on the topic of its key under the device's
    prefix, and no other telemetry, when no key of the snapshot is a name
    every object inherits. *)
Theorem handleData_topics (data : Snapshot) (w : World Env) :
  (forall key, In key (Object_keys data) ->
     existsb (String.eqb key) Object_prototype = false) ->
  exists w' : World Env,
    handleData ext identifier POLL_INTERVAL data w = (inr tt, w')
    /\ List.map fst (telemetry (events_since w w'))
       = List.map (fun key => MqttClient_TOPIC_PREFIX +++ "/" +++ identifier +++ "/" +++ key)
           (Object_keys data)
    /\ connected w' = connected w.
Proof.
  intros Hkeys.
  destruct (handleData_published data w Hkeys) as (w' & Hrun & Htopics & Hc & _).
  exists w'. split; [exact Hrun|]. split; [exact Htopics|exact Hc].
Qed.

(** X10.  An entry of a key with a code table (a select control, or else a
    read-only lookup) that holds a 16-bit code is published as the label of
    the code; a code the table lacks is published as the number it is, and
    a warning naming value, key and table is logged. *)
Theorem handleData_translates (data : Snapshot) (key table : string) (c : Z)
    (map : CodeMap) (w : World Env) :
  (forall key, In key (Object_keys data) ->
     existsb (String.eqb key) Object_prototype = false) ->
  In (key, Z2float c) data ->
  0 <= c < 65536 ->
  (exists register, js_get CONTROLS key = Own (select register map) /\ table = "control map")
  \/ ((forall register m, js_get CONTROLS key <> Own (select register m))
      /\ js_get READ_ONLY_LOOKUPS key = Own map /\ table = "lookup map") ->
  exists w' : World Env,
    handleData ext identifier POLL_INTERVAL data w = (inr tt, w')
    /\ match assoc (Z_toString c) map with
       | Some label =>
           In (MqttClient_TOPIC_PREFIX +++ "/" +++ identifier +++ "/" +++ key,
               [chars label])
              (telemetry (events_since w w'))
       | None =>
           In (MqttClient_TOPIC_PREFIX +++ "/" +++ identifier +++ "/" +++ key,
               [digits (Z2float c)])
              (telemetry (events_since w w'))
           /\ In [chars "Value "; digits (Z2float c);
                  chars (" for " +++ key +++ " not found in " +++ table)]
                 (template_warnings (events_since w w'))
       end.
Proof.
  intros Hkeys Hin Hc Htable.
  destruct (in_split _ _ Hin) as (before & after & ->).
  destruct (ensureAutoconf_returns ext identifier POLL_INTERVAL w) as (w1 & H1).
  destruct (ensureAutoconf_no_telemetry w _ _ H1) as (evs1 & Ht1 & _).
  assert (Hb : forall k, In k (Object_keys before) ->
                 existsb (String.eqb k) Object_prototype = false).
  { intros k Hk. apply Hkeys. unfold Object_keys in *. rewrite List.map_app.
    apply in_or_app. now left. }
  assert (Ha : forall k, In k (Object_keys after) ->
                 existsb (String.eqb k) Object_prototype = false).
  { intros k Hk. apply Hkeys. unfold Object_keys in *. rewrite List.map_app.
    apply in_or_app. right. now right. }
  destruct (forEach_publishEntry before w1 Hb) as (w2 & evs2 & H2 & Ht2 & _).
  pose proof (publishEntry_code key table c map w2 Hc Htable) as H3.
  match type of H3 with _ = (_, ?w) => set (w3 := w) in H3 end.
  destruct (forEach_publishEntry after w3 Ha) as (w' & evs4 & H4 & Ht4 & _).
  exists w'. split.
  { rewrite handleData_eq, (bind_inr _ _ _ _ _ H1), forEach_app, (bind_inr _ _ _ _ _ H2).
    cbn [forEach]. rewrite (bind_inr _ _ _ _ _ H3). exact H4. }
  subst w3. cbn [trace] in Ht4.
  destruct (assoc (Z_toString c) map) as [label|].
  - rewrite (events_since_app w w'
               (evs1 ++ evs2 ++
                [mqtt_publish (stateTopic identifier key) (template [chars label]) false]
                ++ evs4))
      by (rewrite Ht4, Ht2, Ht1, <- !List.app_assoc; reflexivity).
    unfold telemetry. rewrite !collect_app. apply in_or_app. right.
    apply in_or_app. right. apply in_or_app. left. now left.
  - rewrite (events_since_app w w'
               (evs1 ++ evs2 ++
                [Logger_log_template WARN
                   [chars "Value "; digits (Z2float c);
                    chars (" for " +++ key +++ " not found in " +++ table)];
                 mqtt_publish (stateTopic identifier key) (template [digits (Z2float c)]) false]
                ++ evs4))
      by (rewrite Ht4, Ht2, Ht1, <- !List.app_assoc; reflexivity).
    unfold telemetry, template_warnings. rewrite !collect_app. split.
    + apply in_or_app. right. apply in_or_app. right. apply in_or_app. left. now left.
    + apply in_or_app. right. apply in_or_app. right. apply in_or_app. left. now left.
Qed.

End TelemetryProps.

(* ------------------------------------------------------------------ *)
(** ** The link flag *)

Section SameConnected.

Context {Env : Type}.

Lemma same_connected_refl (w : World Env) : same_connected w w.
Proof. reflexivity. Qed.

Lemma same_connected_trans (w1 w2 w3 : World Env) :
  same_connected w1 w2 -> same_connected w2 w3 -> same_connected w1 w3.
Proof. unfold same_connected. congruence. Qed.

Lemma record_same_connected (e : Event) : respects (same_connected (Env := Env)) (record e).
Proof. intros w r w' H. injection H as _ <-. reflexivity. Qed.

Lemma ask_same_connected {A} (f : Env -> A * Env) : respects same_connected (ask f).
Proof.
  intros w r w'. unfold ask. destruct (f (env w)) as [a e]. intros H.
  injection H as _ <-. reflexivity.
Qed.

Lemma call_same_connected {A} (f : Env -> (Exn + A) * Env) : respects same_connected (call f).
Proof.
  intros w r w'. unfold call. destruct (f (env w)) as [a e]. intros H.
  injection H as _ <-. reflexivity.
Qed.

Lemma set_autoconfTimestamp_same_connected (t : Z) :
  respects (same_connected (Env := Env)) (set_autoconfTimestamp t).
Proof. intros w r w' H. injection H as _ <-. reflexivity. Qed.

End SameConnected.

(** Splits a computation that does not assign the link flag into its steps. *)
Ltac connected_steps :=
  repeat first
    [ apply respects_bind; [apply same_connected_trans | | intros ?]
    | apply respects_try_catch; [apply same_connected_trans | | intros ?]
    | apply respects_forEach;
        [apply same_connected_refl | apply same_connected_trans | intros ? _]
    | apply respects_ret; apply same_connected_refl
    | apply respects_throw; apply same_connected_refl
    | apply respects_lift; apply same_connected_refl
    | apply respects_get_connected; apply same_connected_refl
    | apply respects_get_autoconfTimestamp; apply same_connected_refl
    | apply record_same_connected
    | apply ask_same_connected
    | apply call_same_connected
    | apply set_autoconfTimestamp_same_connected
    | match goal with
      | |- respects _ (if ?b then _ else _) => destruct b
      | |- respects _ (match ?x with _ => _ end) => destruct x
      | |- respects _ (let '(_, _) := ?x in _) => destruct x
      end ].

Section CycleProps.

Context {Env : Type} (ext : External Env).
Variables (interval slaveId : Z) (identifier : string) (POLL_INTERVAL : option string).

Lemma poll_data_same_connected : respects same_connected (poll_data ext).
Proof. unfold poll_data, readBlock. cbv zeta. connected_steps. Qed.

Lemma poll_data_no_telemetry : respects (grows is_telemetry) (poll_data ext).
Proof. unfold poll_data, readBlock. cbv zeta. grows_steps. Qed.

Lemma POLL_KEYS_own (key : string) :
  In key POLL_KEYS -> existsb (String.eqb key) Object_prototype = false.
Proof.
  unfold POLL_KEYS. cbn [In]. intros H.
  repeat (destruct H as [<-|H]; [reflexivity|]). destruct H.
Qed.

(** X11.  A run of the polling loop in which the link is up after the
    reconnect and the reads and decodes of the poll all return hands the
    snapshot to the MQTT client, which publishes the 25 fields of the read
    sequence, in that order, each on the topic of its key and with its value
    as the payload: the label of the value for a key with a code table that
    has it, the number itself otherwise.  The snapshot is emitted once, the
    link stays up and the run returns. *)
Theorem bridge_cycle (w : World Env) (data : Snapshot) :
  let listeners := onData_listeners ext identifier POLL_INTERVAL in
  let w1 := snd (reconnect ext slaveId w) in
  connected w1 = true ->
  fst (poll_data ext w1) = inr data ->
  exists (delay : Z) (w' : World Env),
    pollingLoop ext interval slaveId listeners w = (inr delay, w')
    /\ connected w' = true
    /\ emitted (events_since w w') = [data]
    /\ List.map fst (telemetry (events_since w w'))
       = List.map (fun key => MqttClient_TOPIC_PREFIX +++ "/" +++ identifier +++ "/" +++ key)
           POLL_KEYS
    /\ Object_keys data = POLL_KEYS
    /\ telemetry (events_since w w')
       = List.map (fun '(key, value) =>
                     (MqttClient_TOPIC_PREFIX +++ "/" +++ identifier +++ "/" +++ key,
                      publishedPayload key value)) data.
Proof.
  cbv zeta. intros Hcon Hpoll.
  destruct (pollingLoop_parts ext interval slaveId
              (onData_listeners ext identifier POLL_INTERVAL) w)
    as (w1 & w2 & t & e2 & H1 & H2 & Hnow & Hrun).
  rewrite H1 in Hcon, Hpoll. cbn [snd] in Hcon, Hpoll. rewrite Hcon in H2.
  destruct (poll_data ext w1) as [r wp] eqn:Hp. cbn [fst] in Hpoll. subst r.
  destruct (poll_data_inr_inv ext _ _ _ Hp) as [Hkeys _].
  destruct (handleData_published ext identifier POLL_INTERVAL data
              (push (eventEmitter_emit data) wp))
    as (w3 & H3 & Htel & Hc3 & Hpay).
  { intros key Hk. rewrite Hkeys in Hk. now apply POLL_KEYS_own. }
  assert (Hw2 : w2 = w3).
  { unfold try_catch, poll in H2. rewrite (bind_inr _ _ _ _ _ Hp) in H2.
    unfold emitData, bind at 1, record, onData_listeners in H2. cbn [forEach] in H2.
    rewrite (bind_inr _ _ _ _ _ H3) in H2. unfold ret in H2. congruence. }
  subst w3.
  exists (interval - Z.rem t interval). eexists. split; [exact Hrun|].
  destruct (reconnect_quiet ext slaveId _ _ _ H1) as (evs1 & Ht1 & He1).
  destruct (reconnect_no_telemetry ext slaveId _ _ _ H1) as (evs1' & Ht1' & Htel1).
  assert (evs1' = evs1) by (rewrite Ht1 in Ht1'; now apply List.app_inv_head in Ht1').
  subst evs1'.
  destruct (poll_data_quiet ext _ _ _ Hp) as (evsp & Htp & Hep).
  destruct (poll_data_no_telemetry _ _ _ Hp) as (evsp' & Htp' & Htelp).
  assert (evsp' = evsp) by (rewrite Htp in Htp'; now apply List.app_inv_head in Htp').
  subst evsp'.
  destruct (handleData_quiet ext identifier POLL_INTERVAL data _ _ _ H3)
    as (evs3 & Ht3 & He3).
  rewrite (events_since_app _ _ _ Ht3) in Htel, Hpay.
  cbn [trace push] in Ht3.
  split.
  { cbn [connected push]. rewrite Hc3. cbn [connected push].
    pose proof (poll_data_same_connected _ _ _ Hp) as Hs. unfold same_connected in Hs.
    now rewrite Hs. }
  rewrite (events_since_app w _
             (evs1 ++ evsp ++ [eventEmitter_emit data] ++ evs3
              ++ [setTimeout (interval - Z.rem t interval)]))
    by (cbn [trace push]; rewrite Ht3, Htp, Ht1, <- !List.app_assoc; reflexivity).
  unfold emitted, telemetry in *. rewrite !collect_app, He1, Hep, He3, Htel1, Htelp.
  cbn [collect is_emit is_telemetry List.app]. rewrite List.app_nil_r, Htel, Hkeys.
  split; [reflexivity|]. split; [reflexivity|]. split; [reflexivity|exact Hpay].
Qed.

End CycleProps.

(* ------------------------------------------------------------------ *)
(** ** Commands, in general *)

Lemma grows_events_since {Env X} (sel : Event -> option X) (w w' : World Env) :
  grows sel w w' -> collect sel (events_since w w') = [].
Proof. intros (evs & Ht & Hsel). now rewrite (events_since_app w w' evs Ht). Qed.

Section SameTimestamp.

Context {Env : Type}.

Lemma ask_same_timestamp {A} (f : Env -> A * Env) : respects same_timestamp (ask f).
Proof.
  intros w r w'. unfold ask. destruct (f (env w)) as [a e]. intros H.
  injection H as _ <-. reflexivity.
Qed.

Lemma call_same_timestamp {A} (f : Env -> (Exn + A) * Env) : respects same_timestamp (call f).
Proof.
  intros w r w'. unfold call. destruct (f (env w)) as [a e]. intros H.
  injection H as _ <-. reflexivity.
Qed.

End SameTimestamp.

(** Splits a computation that does not assign the discovery timestamp
    into its steps. *)
Ltac stamp_steps :=
  repeat first
    [ apply respects_bind; [apply same_timestamp_trans | | intros ?]
    | apply respects_try_catch; [apply same_timestamp_trans | | intros ?]
    | apply respects_ret; apply same_timestamp_refl
    | apply respects_throw; apply same_timestamp_refl
    | apply respects_get_connected; apply same_timestamp_refl
    | apply record_same_timestamp
    | apply ask_same_timestamp
    | apply call_same_timestamp
    | match goal with
      | |- respects _ (if ?b then _ else _) => destruct b
      | |- respects _ (match ?x with _ => _ end) => destruct x
      end ].

Lemma keyForLabel_In (map : CodeMap) (value k : string) :
  keyForLabel map value = Some k -> In k (Object_keys map) /\ assoc k map = Some value.
Proof.
  unfold keyForLabel. intros H. apply find_some in H. destruct H as [Hin H].
  split; [exact Hin|].
  destruct (assoc k map) as [l|]; [|discriminate].
  apply String.eqb_eq in H. now subst.
Qed.

(** The keys of the tables of the select controls parse to integers. *)
Lemma codeForLabel_select (key : string) (register : Z) (map : CodeMap) (value : string)
    (code : jsint) :
  js_get CONTROLS key = Own (select register map) ->
  codeForLabel map value = Some code ->
  exists z, code = Int z /\ assoc (Z_toString z) map = Some value.
Proof.
  intros Hkey. unfold codeForLabel.
  destruct (keyForLabel map value) as [k|] eqn:Hk; [|discriminate].
  intros H. injection H as <-.
  apply keyForLabel_In in Hk. destruct Hk as [Hin Hassoc].
  destruct (js_get_CONTROLS_select _ _ _ Hkey)
    as [(_ & _ & ->) | [(_ & _ & ->) | (_ & _ & ->)]];
    cbn [Object_keys List.map fst In] in Hin;
    repeat (destruct Hin as [<-|Hin];
            [ first [exists 0; split; [reflexivity|exact Hassoc]
                    | exists 1; split; [reflexivity|exact Hassoc]
                    | exists 2; split; [reflexivity|exact Hassoc]] |]);
    destruct Hin.
Qed.

Section CommandsInGeneral.

Context {Env : Type} (ext : External Env).
Variables (identifier : string).

Lemma writeToDevice_returns (register : Z) (value : jsint) (w : World Env) :
  fst (writeToDevice ext register value w) = inr tt.
Proof.
  rewrite writeToDevice_eq.
  destruct (writeRegister ext register value w) as [[e|[]] w2]; reflexivity.
Qed.

Lemma handleCommand_returns (topic message : string) (w : World Env) :
  fst (handleCommand ext topic message w) = inr tt.
Proof.
  unfold handleCommand, try_catch.
  match goal with |- context [let (_, _) := ?m w in _] => destruct (m w) as [[e|[]] w1] end;
    reflexivity.
Qed.

Lemma handleCommand_same_connected (topic message : string) :
  respects same_connected (handleCommand ext topic message).
Proof.
  unfold handleCommand, writeToDevice, writeRegister, Logger_info, Logger_warn, Logger_error.
  cbv zeta. connected_steps.
Qed.

Lemma handleCommand_same_timestamp (topic message : string) :
  respects same_timestamp (handleCommand ext topic message).
Proof.
  unfold handleCommand, writeToDevice, writeRegister, Logger_info, Logger_warn, Logger_error.
  cbv zeta. stamp_steps.
Qed.

Lemma handleCommand_grows {X} (sel : Event -> option X) (topic message : string) :
  (forall level args, sel (Logger_log level args) = None) ->
  (forall address value, sel (modbus_writeRegister address value) = None) ->
  respects (grows sel) (handleCommand ext topic message).
Proof.
  intros Hlog Hwrite.
  unfold handleCommand, writeToDevice, writeRegister, Logger_info, Logger_warn, Logger_error.
  cbv zeta.
  repeat first
    [ apply respects_bind; [apply grows_trans | | intros ?]
    | apply respects_try_catch; [apply grows_trans | | intros ?]
    | apply respects_ret; apply grows_refl
    | apply respects_throw; apply grows_refl
    | apply respects_get_connected; apply grows_refl
    | apply record_grows; first [apply Hlog | apply Hwrite]
    | apply call_grows
    | match goal with
      | |- respects _ (if ?b then _ else _) => destruct b
      | |- respects _ (match ?x with _ => _ end) => destruct x
      end ].
Qed.

(** The three outcomes of a command: ignored, answered with log lines
    only, or handed to [writeToDevice] with an integer. *)
Lemma handleCommand_cases (topic message : string) (w : World Env) :
  handleCommand ext topic message w = (inr tt, w)
  \/ (exists evs, handleCommand ext topic message w
                  = (inr tt, mkWorld (env w) (connected w) (autoconfTimestamp w)
                               (trace w ++ evs))
                  /\ writes evs = [])
  \/ (exists (a b key : string) (register z : Z),
        split "/" topic = [a; b; "set"; key]
        /\ ((exists map, js_get CONTROLS key = Own (select register map)
                         /\ codeForLabel map message = Some (Int z))
            \/ (js_get CONTROLS key = Own (number register)
                /\ parseInt message (Some 10) = Int z))
        /\ handleCommand ext topic message w
           = writeToDevice ext register (Int z)
               (push (Logger_log INFO ["Received command for " +++ key +++ ": " +++ message]) w)).
Proof.
  destruct (negb (Nat.eqb (List.length (split "/" topic)) 4)
            || negb (String.eqb (nth 2 (split "/" topic) "") "set")) eqn:Hguard.
  { left. unfold handleCommand, try_catch. rewrite Hguard. reflexivity. }
  right.
  apply Bool.orb_false_elim in Hguard. destruct Hguard as [Hlen Hset].
  apply Bool.negb_false_iff in Hlen, Hset.
  apply Nat.eqb_eq in Hlen. apply String.eqb_eq in Hset.
  destruct (split "/" topic) as [|a [|b [|c [|key [|]]]]] eqn:Hsplit; try discriminate Hlen.
  cbn [nth] in Hset. subst c.
  rewrite (handleCommand_segments ext _ _ _ _ _ w Hsplit).
  assert (Hthen : forall register z,
    try_catch
      (Logger_info ["Received command for " +++ key +++ ": " +++ message] ;;
       writeToDevice ext register (Int z))
      (fun e => Logger_error ["Error processing command"; e]) w
    = writeToDevice ext register (Int z)
        (push (Logger_log INFO ["Received command for " +++ key +++ ": " +++ message]) w)).
  { intros register z. unfold try_catch, bind at 1, Logger_info, record.
    pose proof (writeToDevice_returns register (Int z)
                  (push (Logger_log INFO ["Received command for " +++ key +++ ": " +++ message]) w))
      as Hr.
    destruct (writeToDevice ext register (Int z) _) as [r w2]. cbn [fst] in Hr. now subst r. }
  destruct (js_get CONTROLS key) as [[register map|register]| |] eqn:Hkey.
  - destruct (codeForLabel map message) as [code|] eqn:Hcode.
    + right. destruct (codeForLabel_select _ _ _ _ _ Hkey Hcode) as (z & -> & _).
      exists a, b, key, register, z. split; [reflexivity|]. split; [left; now exists map|].
      rewrite <- Hthen. unfold codeForLabel in Hcode.
      destruct (keyForLabel map message); [|discriminate].
      injection Hcode as ->. reflexivity.
    + left. unfold codeForLabel in Hcode.
      destruct (keyForLabel map message); [discriminate|].
      eexists. unfold try_catch, bind, Logger_info, Logger_warn, record, push.
      cbn [env connected autoconfTimestamp trace]. rewrite <- List.app_assoc.
      split; reflexivity.
  - cbv zeta. destruct (parseInt message (Some 10)) as [|z] eqn:Hp; cbn [isNaN].
    + left. eexists. unfold try_catch, bind, Logger_info, Logger_warn, record, push.
      cbn [env connected autoconfTimestamp trace]. rewrite <- List.app_assoc.
      split; reflexivity.
    + right. exists a, b, key, register, z. split; [reflexivity|]. split; [now right|].
      apply Hthen.
  - left. eexists. unfold try_catch, bind, Logger_info, record, push, ret.
    cbn [env connected autoconfTimestamp trace]. split; reflexivity.
  - left. eexists. unfold try_catch, bind, Logger_info, Logger_warn, record, push.
    cbn [env connected autoconfTimestamp trace]. rewrite <- List.app_assoc.
    split; reflexivity.
Qed.

(** X12.  Whatever the topic and the payload, [handleCommand] returns
    without raising, leaves the link flag and the discovery timestamp as
    they were, publishes and emits nothing and reads no block.  It writes
    at most one register: only while the link is up, only for a topic of the
    four segments [a/b/set/key] whose key is a control, only to the register
    of that control, and never [NaN]. *)
Theorem handleCommand_safe (topic message : string) (w : World Env) :
  exists w' : World Env,
    handleCommand ext topic message w = (inr tt, w')
    /\ connected w' = connected w
    /\ autoconfTimestamp w' = autoconfTimestamp w
    /\ telemetry (events_since w w') = []
    /\ discovery (events_since w w') = []
    /\ emitted (events_since w w') = []
    /\ reads (events_since w w') = []
    /\ (writes (events_since w w') = []
        \/ exists (a b key : string) (register z : Z),
             split "/" topic = [a; b; "set"; key]
             /\ ((exists map, js_get CONTROLS key = Own (select register map))
                 \/ js_get CONTROLS key = Own (number register))
             /\ connected w = true
             /\ writes (events_since w w') = [(register, Int z)]).
Proof.
  destruct (handleCommand ext topic message w) as [r w'] eqn:Hrun.
  pose proof (handleCommand_returns topic message w) as Hr.
  rewrite Hrun in Hr. cbn [fst] in Hr. subst r.
  exists w'. split; [reflexivity|].
  split; [exact (handleCommand_same_connected _ _ _ _ _ Hrun)|].
  split; [exact (handleCommand_same_timestamp _ _ _ _ _ Hrun)|].
  split; [apply grows_events_since;
          now apply (handleCommand_grows is_telemetry topic message) with (r := inr tt)|].
  split; [apply grows_events_since;
          now apply (handleCommand_grows is_discovery topic message) with (r := inr tt)|].
  split; [apply grows_events_since;
          now apply (handleCommand_grows is_emit topic message) with (r := inr tt)|].
  split; [apply grows_events_since;
          now apply (handleCommand_grows is_read topic message) with (r := inr tt)|].
  destruct (handleCommand_cases topic message w)
    as [H | [(evs & H & Hw) | (a & b & key & register & z & Hsplit & Hkey & H)]];
    rewrite Hrun in H.
  - left. injection H as ->. unfold events_since. now rewrite skipn_all.
  - left. injection H as ->. now rewrite (events_since_app w _ evs) by reflexivity.
  - set (w1 := push (Logger_log INFO ["Received command for " +++ key +++ ": " +++ message]) w)
      in H.
    destruct (writeToDevice_effects ext register (Int z) w1) as (evs & Ht & _ & Hwr).
    rewrite <- H in Ht. cbn [snd] in Ht.
    assert (E : events_since w w'
                = Logger_log INFO ["Received command for " +++ key +++ ": " +++ message]
                  :: evs).
    { apply events_since_app. rewrite Ht. unfold w1, push. cbn [trace].
      rewrite <- List.app_assoc. reflexivity. }
    rewrite E. unfold writes in *. cbn [collect is_write]. rewrite Hwr.
    unfold w1. cbn [connected push].
    destruct (connected w); [right|now left].
    exists a, b, key, register, z. split; [exact Hsplit|].
    split; [|split; reflexivity].
    destruct Hkey as [(map & Hkey & _) | [Hkey _]]; [left; now exists map | now right].
Qed.

(** X13.  A command for a select control writes the code of the label in
    the payload to the register of the control, if the link is up; a
    payload that is none of the labels writes nothing.  A warning is logged
    exactly when the payload is none of the labels. *)
Theorem handleCommand_select_writes (topic a b key value : string) (register : Z)
    (map : CodeMap) (w : World Env) :
  split "/" topic = [a; b; "set"; key] ->
  js_get CONTROLS key = Own (select register map) ->
  let w' := snd (handleCommand ext topic value w) in
  writes (events_since w w')
  = match codeForLabel map value with
    | Some code => if connected w then [(register, code)] else []
    | None => []
    end
  /\ (codeForLabel map value = None <-> warnings (events_since w w') <> []).
Proof.
  intros Hsplit Hkey. cbv zeta.
  rewrite (handleCommand_select ext _ _ _ _ _ _ _ w Hsplit Hkey).
  set (w1 := push (Logger_log INFO ["Received command for " +++ key +++ ": " +++ value]) w).
  destruct (codeForLabel map value) as [code|].
  - assert (Hrun : try_catch
               (Logger_info ["Received command for " +++ key +++ ": " +++ value] ;;
                writeToDevice ext register code)
               (fun e => Logger_error ["Error processing command"; e]) w
             = writeToDevice ext register code w1).
    { unfold try_catch, bind at 1, Logger_info, record. fold w1.
      pose proof (writeToDevice_returns register code w1) as Hr.
      destruct (writeToDevice ext register code w1) as [r w2]. cbn [fst] in Hr. now subst r. }
    rewrite Hrun.
    destruct (writeToDevice_effects ext register code w1) as (evs & Ht & Hwarn & Hwr).
    rewrite (events_since_app w _
               (Logger_log INFO ["Received command for " +++ key +++ ": " +++ value] :: evs))
      by (rewrite Ht; unfold w1, push; cbn [trace]; rewrite <- List.app_assoc; reflexivity).
    unfold writes, warnings in *. cbn [collect is_write is_warning]. rewrite Hwr, Hwarn.
    split; [reflexivity|]. split; [discriminate | intros H; now elim H].
  - unfold try_catch, bind, Logger_info, Logger_warn, record. cbn [snd].
    rewrite (events_since_app w _
               [Logger_log INFO ["Received command for " +++ key +++ ": " +++ value];
                Logger_log WARN ["Invalid option '" +++ value +++ "' for " +++ key
                                 +++ ". Expected: " +++ join ", " (Object_values map)]])
      by (unfold push; cbn [trace]; rewrite <- List.app_assoc; reflexivity).
    split; [reflexivity|]. split; [discriminate | reflexivity].
Qed.

(** X14.  A command whose key is no entry of [CONTROLS] writes nothing.
    It is answered with the warning "Unknown control key", unless the key
    is a name every object inherits: then nothing but the receipt is
    logged. *)
Theorem handleCommand_no_control (topic a b key value : string) (w : World Env) :
  split "/" topic = [a; b; "set"; key] ->
  assoc key CONTROLS = None ->
  handleCommand ext topic value w
  = (inr tt,
     mkWorld (env w) (connected w) (autoconfTimestamp w)
       (trace w ++
        Logger_log INFO ["Received command for " +++ key +++ ": " +++ value]
        :: (if existsb (String.eqb key) Object_prototype then []
            else [Logger_log WARN ["Unknown control key: " +++ key]]))).
Proof.
  intros Hsplit Hkey.
  rewrite (handleCommand_segments ext _ _ _ _ _ w Hsplit).
  unfold js_get. rewrite Hkey.
  destruct (existsb (String.eqb key) Object_prototype);
    unfold try_catch, bind, Logger_info, Logger_warn, record, push, ret;
    cbn [env connected autoconfTimestamp trace]; rewrite <- ?List.app_assoc; reflexivity.
Qed.

End CommandsInGeneral.

(* ------------------------------------------------------------------ *)
(** ** Labels to codes *)

Lemma assoc_In_keys {A} (o : Obj A) (k : string) :
  assoc k o <> None -> In k (Object_keys o).
Proof.
  unfold Object_keys. induction o as [|[k0 a0] o IH]; cbn [assoc List.map fst In].
  - congruence.
  - destruct (String.eqb_spec k k0) as [->|_]; [now left|]. intros H. right. now apply IH.
Qed.

(** X15.  [keyForLabel] finds a key of the table that holds the label, the
    first such key in the order of the table; it finds none only if no key
    holds the label. *)
Theorem keyForLabel_correct (map : CodeMap) (value : string) :
  match keyForLabel map value with
  | Some k =>
      assoc k map = Some value
      /\ exists before after,
           Object_keys map = before ++ k :: after
           /\ forall k', In k' before -> assoc k' map <> Some value
  | None => forall k, assoc k map <> Some value
  end.
Proof.
  unfold keyForLabel.
  set (holds := fun k => match assoc k map with
                         | Some l => String.eqb l value
                         | None => false
                         end).
  assert (Hholds : forall k, holds k = true <-> assoc k map = Some value).
  { intros k. unfold holds. destruct (assoc k map) as [l|].
    - rewrite String.eqb_eq. split; congruence.
    - split; discriminate. }
  pose proof (assoc_In_keys map) as Hkeys.
  clearbody holds.
  destruct (find holds (Object_keys map)) as [k|] eqn:Hfind.
  - split; [apply Hholds; now apply find_some in Hfind|].
    clear Hkeys. induction (Object_keys map) as [|k0 ks IH]; [discriminate|].
    cbn [find] in Hfind. destruct (holds k0) eqn:H0.
    + injection Hfind as ->. exists [], ks. split; [reflexivity|]. intros k' [].
    + destruct (IH Hfind) as (before & after & -> & Hb).
      exists (k0 :: before), after. split; [reflexivity|].
      intros k' [<-|Hin]; [|now apply Hb].
      rewrite <- Hholds, H0. discriminate.
  - intros k Hk. pose proof (find_none _ _ Hfind k) as Hn.
    rewrite <- Hholds in Hk. rewrite Hn in Hk; [discriminate|].
    apply Hkeys. apply Hholds in Hk. congruence.
Qed.

(** X16.  For every select control, each label of its table is an option a
    command can name: [handleCommand] finds an integer code for it, and
    [handleData] publishes that code as the same label again. *)
Theorem code_label_roundtrip (key : string) (register : Z) (map : CodeMap) (label : string) :
  js_get CONTROLS key = Own (select register map) ->
  In label (Object_values map) ->
  exists code : Z,
    codeForLabel map label = Some (Int code)
    /\ labelForCode map (Z2float code) = Some label.
Proof.
  intros Hkey Hin.
  destruct (js_get_CONTROLS_select _ _ _ Hkey)
    as [(_ & _ & ->) | [(_ & _ & ->) | (_ & _ & ->)]];
    cbn [Object_values List.map snd In] in Hin;
    repeat (destruct Hin as [<-|Hin];
            [ first [ exists 0; split; vm_compute; reflexivity
                    | exists 1; split; vm_compute; reflexivity
                    | exists 2; split; vm_compute; reflexivity ] |]);
    destruct Hin.
Qed.

(* ------------------------------------------------------------------ *)
(** ** Discovery *)

Lemma split_nonnil (sep : ascii) (s : string) : split sep s <> [].
Proof.
  destruct s as [|c r]; cbn [split]; [discriminate|].
  destruct (Ascii.eqb c sep); [discriminate|].
  destruct (split sep r); discriminate.
Qed.

(** Splitting at a separator splits the text before it and the text after it. *)
Lemma split_app_sep (sep : ascii) (a r : string) :
  split sep (a +++ String sep r) = split sep a ++ split sep r.
Proof.
  induction a as [|c a IH]; cbn [String.append split].
  - rewrite Ascii.eqb_refl. reflexivity.
  - destruct (Ascii.eqb c sep).
    + rewrite IH. reflexivity.
    + rewrite IH. pose proof (split_nonnil sep a) as Hne.
      destruct (split sep a) as [|h t]; [now elim Hne|]. reflexivity.
Qed.

Lemma command_topic_split (identifier key : string) :
  split "/" (MqttClient_TOPIC_PREFIX +++ "/" +++ identifier +++ "/set/" +++ key)
  = MqttClient_TOPIC_PREFIX :: split "/" identifier ++ "set" :: split "/" key.
Proof.
  change (MqttClient_TOPIC_PREFIX +++ "/" +++ identifier +++ "/set/" +++ key)
    with (MqttClient_TOPIC_PREFIX +++ String "/" (identifier +++ String "/"
            ("set" +++ String "/" key))).
  rewrite !split_app_sep. reflexivity.
Qed.

Lemma collect_In {X} (sel : Event -> option X) (evs : list Event) (x : X) :
  In x (collect sel evs) -> exists e, In e evs /\ sel e = Some x.
Proof.
  induction evs as [|e evs IH]; cbn [collect]; [intros []|].
  destruct (sel e) as [y|] eqn:He.
  - intros [<-|H].
    + exists e. split; [now left|exact He].
    + destruct (IH H) as (e' & Hin & Hs). exists e'. split; [now right|exact Hs].
  - intros H. destruct (IH H) as (e' & Hin & Hs). exists e'. split; [now right|exact Hs].
Qed.

Lemma In_collect {X} (sel : Event -> option X) (evs : list Event) (e : Event) (x : X) :
  In e evs -> sel e = Some x -> In x (collect sel evs).
Proof.
  induction evs as [|e' evs IH]; cbn [collect In]; [intros []|].
  intros [->|H] Hs.
  - rewrite Hs. now left.
  - destruct (sel e'); [right|]; now apply IH.
Qed.

Lemma assoc_set_prop_other {A} (k k' : string) (v : A) (o : Obj A) :
  k <> k' -> assoc k (set_prop k' v o) = assoc k o.
Proof.
  intros Hne. induction o as [|[k0 v0] o IH]; cbn [set_prop assoc].
  - apply String.eqb_neq in Hne. now rewrite Hne.
  - destruct (String.eqb_spec k' k0) as [->|Hk]; cbn [assoc].
    + apply String.eqb_neq in Hne. now rewrite Hne.
    + now rewrite IH.
Qed.

Lemma assoc_set_prop_same {A} (k : string) (v : A) (o : Obj A) :
  assoc k (set_prop k v o) = Some v.
Proof.
  induction o as [|[k0 v0] o IH]; cbn [set_prop assoc].
  - now rewrite String.eqb_refl.
  - destruct (String.eqb_spec k k0) as [->|Hk]; cbn [assoc].
    + now rewrite String.eqb_refl.
    + apply String.eqb_neq in Hk. now rewrite Hk.
Qed.

Lemma assoc_set_if_other (c : bool) (k k' : string) (v : json) (o : Obj json) :
  k <> k' -> assoc k (set_if c k' v o) = assoc k o.
Proof. intros Hne. destruct c; cbn [set_if]; [now apply assoc_set_prop_other|reflexivity]. Qed.

Ltac other_fields :=
  repeat first [ rewrite assoc_set_if_other by discriminate
               | rewrite assoc_set_prop_other by discriminate ].

Section DiscoveryProps.

Context {Env : Type} (ext : External Env).
Variables (identifier : string) (POLL_INTERVAL : option string).

(** A republish publishes the message of every row of [AUTOCONF], in order. *)
Lemma ensureAutoconf_stale_events (w : World Env) (t t2 : Z) (e1 e2 : Env) :
  Date_now ext (env w) = (t, e1) ->
  Date_now ext e1 = (t2, e2) ->
  REPUBLISH_INTERVAL < t - autoconfTimestamp w ->
  ensureAutoconf ext identifier POLL_INTERVAL w
  = (inr tt, mkWorld e2 (connected w) t2
               (trace w ++ List.map (autoconfMessage identifier POLL_INTERVAL) AUTOCONF)).
Proof.
  intros Hnow Hnow2 Hlt. unfold ensureAutoconf, bind at 1, ask at 1. rewrite Hnow.
  unfold bind at 1, get_autoconfTimestamp. cbn [autoconfTimestamp].
  apply Z.leb_gt in Hlt. unfold REPUBLISH_INTERVAL in Hlt. rewrite Hlt.
  cbv zeta. rewrite !bind_makeConfig.
  erewrite stamp_now by (rewrite !env_push; exact Hnow2).
  rewrite !connected_push, !trace_push. cbn [connected trace].
  rewrite <- !List.app_assoc. cbn [List.app]. reflexivity.
Qed.

Lemma ensureAutoconf_events (w : World Env) :
  let evs := events_since w (snd (ensureAutoconf ext identifier POLL_INTERVAL w)) in
  evs = [] \/ evs = List.map (autoconfMessage identifier POLL_INTERVAL) AUTOCONF.
Proof.
  cbv zeta.
  destruct (Date_now ext (env w)) as [t e1] eqn:Hnow.
  destruct (Z_le_gt_dec (t - autoconfTimestamp w) REPUBLISH_INTERVAL) as [Hle|Hgt].
  - left. rewrite (ensureAutoconf_fresh ext identifier POLL_INTERVAL w t e1 Hnow Hle).
    unfold events_since. cbn [snd trace]. now rewrite skipn_all.
  - right. destruct (Date_now ext e1) as [t2 e2] eqn:Hnow2.
    rewrite (ensureAutoconf_stale_events w t t2 e1 e2 Hnow Hnow2) by lia.
    now apply events_since_app.
Qed.

(** The topic and the fields of the message of one row. *)
Lemma autoconfMessage_fields (c : Config) :
  exists payload : Obj json,
    autoconfMessage identifier POLL_INTERVAL c
    = mqtt_publish ("homeassistant/" +++ cfg_type c +++ "/marstek2mqtt_" +++ identifier
                    +++ "/" +++ cfg_key c +++ "/config")
        (stringify (JObject payload)) true
    /\ assoc "state_topic" payload = Some (JString (stateTopic identifier (cfg_key c)))
    /\ assoc "command_topic" payload
       = (if String.eqb (cfg_type c) "sensor" then None
          else Some (JString (MqttClient_TOPIC_PREFIX +++ "/" +++ identifier
                              +++ "/set/" +++ cfg_key c)))
    /\ assoc "options" payload
       = (if String.eqb (cfg_type c) "sensor" then None else
          match String.eqb (cfg_type c) "select", js_get CONTROLS (cfg_key c) with
          | true, Own (select _ map) => Some (JArray (List.map JString (Object_values map)))
          | _, _ => None
          end)
    /\ assoc "expire_after" payload
       = (if String.eqb (cfg_type c) "sensor"
          then Some (JNumber (expire_after POLL_INTERVAL)) else None).
Proof.
  unfold autoconfMessage, discoveryMessage. cbv zeta.
  eexists. split; [reflexivity|].
  destruct (String.eqb (cfg_type c) "sensor").
  - repeat split; other_fields; try reflexivity. apply assoc_set_prop_same.
  - destruct (String.eqb (cfg_type c) "select"), (js_get CONTROLS (cfg_key c)) as [[r m|r]| |];
      repeat split; other_fields; try reflexivity;
      first [apply assoc_set_prop_same | rewrite assoc_set_prop_same; reflexivity].
Qed.

(** What the rows of [AUTOCONF] are rows of. *)
Lemma AUTOCONF_rows (c : Config) :
  In c AUTOCONF ->
  In (cfg_key c) POLL_KEYS
  /\ split "/" (cfg_key c) = [cfg_key c]
  /\ ((cfg_type c = "sensor" /\ assoc (cfg_key c) CONTROLS = None)
      \/ (cfg_type c = "number"
          /\ exists register, js_get CONTROLS (cfg_key c) = Own (number register))
      \/ (cfg_type c = "select"
          /\ exists register map, js_get CONTROLS (cfg_key c) = Own (select register map))).
Proof.
  unfold AUTOCONF. cbv zeta. cbn [In]. intros H.
  repeat (destruct H as [<-|H];
          [ cbn [cfg_key cfg_type]; split; [unfold POLL_KEYS; cbn [In]; tauto|];
            split; [reflexivity|];
            first [ left; split; reflexivity
                  | right; left; split; [reflexivity|eexists; reflexivity]
                  | right; right; split; [reflexivity|do 2 eexists; reflexivity] ] |]).
  destruct H.
Qed.

(** X17.  Every discovery message [ensureAutoconf] publishes is for one of
    the fields of the poll cycle, and names as state topic the topic on
    which [handleData] publishes that field.  It has a command topic exactly
    when the field is a control; that topic then splits into the four
    segments prefix, identifier, [set] and the key that [handleCommand]
    expects, provided the identifier has no slash in it. *)
Theorem discovery_topics (w : World Env) (topic : string) (j : json) :
  let w' := snd (ensureAutoconf ext identifier POLL_INTERVAL w) in
  split "/" identifier = [identifier] ->
  In (topic, j) (discovery (events_since w w')) ->
  exists key : string,
    In key POLL_KEYS
    /\ json_field "state_topic" j
       = Some (JString (MqttClient_TOPIC_PREFIX +++ "/" +++ identifier +++ "/" +++ key))
    /\ match json_field "command_topic" j with
       | Some t =>
           exists s, t = JString s
                     /\ split "/" s = [MqttClient_TOPIC_PREFIX; identifier; "set"; key]
                     /\ assoc key CONTROLS <> None
       | None => assoc key CONTROLS = None
       end.
Proof.
  cbv zeta. intros Hid Hin.
  destruct (ensureAutoconf_events w) as [E|E]; cbv zeta in E; rewrite E in Hin;
    [destruct Hin|].
  apply collect_In in Hin. destruct Hin as (e & Hin & Hsel).
  apply in_map_iff in Hin. destruct Hin as (c & <- & Hc).
  destruct (autoconfMessage_fields c) as (payload & Hmsg & Hstate & Hcmd & _).
  rewrite Hmsg in Hsel. cbn [is_discovery] in Hsel. injection Hsel as _ <-.
  destruct (AUTOCONF_rows c Hc) as (Hkey & Hsplit & Hkind).
  exists (cfg_key c). split; [exact Hkey|]. split; [exact Hstate|].
  cbn [json_field]. rewrite Hcmd.
  destruct Hkind as [[-> Hno] | [[-> (r & Hr)] | [-> (r & m & Hr)]]]; cbn [String.eqb Ascii.eqb Bool.eqb].
  - exact Hno.
  - eexists. split; [reflexivity|]. split.
    + rewrite command_topic_split, Hid, Hsplit. reflexivity.
    + apply js_get_Own_assoc in Hr. congruence.
  - eexists. split; [reflexivity|]. split.
    + rewrite command_topic_split, Hid, Hsplit. reflexivity.
    + apply js_get_Own_assoc in Hr. congruence.
Qed.

(** X18.  With an identifier that has a slash in it, the command topic
    announced for a key has more than four segments, and [handleCommand]
    ignores every command sent to it: nothing is logged and nothing is
    written. *)
Theorem handleCommand_slash_identifier (key message : string) (w : World Env) :
  split "/" identifier <> [identifier] ->
  handleCommand ext
    (MqttClient_TOPIC_PREFIX +++ "/" +++ identifier +++ "/set/" +++ key) message w
  = (inr tt, w).
Proof.
  intros Hid. unfold handleCommand, try_catch. rewrite command_topic_split.
  assert (Hlen : (2 <= List.length (split "/" identifier))%nat).
  { clear w. revert Hid. generalize identifier as s.
    induction s as [|c s IH]; cbn [split]; [intros H; now elim H|].
    destruct (Ascii.eqb_spec c "/") as [->|Hc].
    - intros _. pose proof (split_nonnil "/" s) as Hne.
      destruct (split "/" s); [now elim Hne|]. cbn [List.length]. lia.
    - intros H. pose proof (split_nonnil "/" s) as Hne.
      destruct (split "/" s) as [|h [|h' t]] eqn:Hs; [now elim Hne| |cbn [List.length]; lia].
      exfalso. apply H. f_equal. f_equal.
      destruct (list_eq_dec string_dec [h] [s]) as [Heq|Hneq].
      + now injection Heq.
      + apply IH in Hneq. cbn [List.length] in Hneq. lia. }
  pose proof (split_nonnil "/" key) as Hk.
  destruct (split "/" key) as [|k ks]; [now elim Hk|].
  assert (Hguard : Nat.eqb (List.length (MqttClient_TOPIC_PREFIX :: split "/" identifier
                                           ++ "set" :: k :: ks)) 4 = false).
  { apply Nat.eqb_neq. cbn [List.length]. rewrite List.length_app. cbn [List.length]. lia. }
  rewrite Hguard. reflexivity.
Qed.

(** X19.  A republish announces every select control with the labels of
    its table as the options, in the order of the table, and with the
    command topic of its key. *)
Theorem discovery_select_options (w : World Env) (key : string) (register : Z)
    (map : CodeMap) :
  let t := fst (Date_now ext (env w)) in
  let w' := snd (ensureAutoconf ext identifier POLL_INTERVAL w) in
  REPUBLISH_INTERVAL < t - autoconfTimestamp w ->
  js_get CONTROLS key = Own (select register map) ->
  exists j : json,
    In ("homeassistant/select/marstek2mqtt_" +++ identifier +++ "/" +++ key +++ "/config", j)
       (discovery (events_since w w'))
    /\ json_field "options" j = Some (JArray (List.map JString (Object_values map)))
    /\ json_field "command_topic" j
       = Some (JString (MqttClient_TOPIC_PREFIX +++ "/" +++ identifier +++ "/set/" +++ key)).
Proof.
  cbv zeta. intros Hlt Hkey.
  destruct (Date_now ext (env w)) as [t e1] eqn:Hnow. cbn [fst] in Hlt.
  destruct (Date_now ext e1) as [t2 e2] eqn:Hnow2.
  rewrite (ensureAutoconf_stale_events w t t2 e1 e2 Hnow Hnow2 Hlt). cbn [snd].
  rewrite (events_since_app w _ (List.map (autoconfMessage identifier POLL_INTERVAL) AUTOCONF))
    by reflexivity.
  assert (Hrow : exists c, In c AUTOCONF /\ cfg_key c = key /\ cfg_type c = "select").
  { pose (row := fun k name =>
      {| cfg_key := k; cfg_name := name; cfg_unit := None; cfg_devClass := None;
         cfg_stateClass := None; cfg_type := "select"; cfg_options := no_options |}).
    destruct (js_get_CONTROLS_select _ _ _ Hkey) as [(-> & _) | [(-> & _) | (-> & _)]].
    - exists (row "user_work_mode" "User Work Mode").
      split; [do 15 right; left; reflexivity | split; reflexivity].
    - exists (row "force_mode" "Force Mode").
      split; [do 16 right; left; reflexivity | split; reflexivity].
    - exists (row "backup_function" "Backup Function").
      split; [do 17 right; left; reflexivity | split; reflexivity]. }
  destruct Hrow as (c & Hc & <- & Htype).
  destruct (autoconfMessage_fields c) as (payload & Hmsg & _ & Hcmd & Hopt & _).
  rewrite Htype in Hmsg, Hcmd, Hopt. cbn [String.eqb Ascii.eqb Bool.eqb] in Hcmd, Hopt.
  rewrite Hkey in Hopt.
  exists (JObject payload). split; [|split; [exact Hopt|exact Hcmd]].
  apply (In_collect is_discovery _ (autoconfMessage identifier POLL_INTERVAL c)).
  - now apply in_map.
  - rewrite Hmsg. reflexivity.
Qed.

(** X20.  A sensor's state expires after twice the poll interval, rounded
    up to whole seconds, plus five seconds: for an interval of [p]
    milliseconds, [p] a positive integer below 2^53, between [2p + 5000]
    and [2p + 7000] milliseconds.  (Up to 2^53 the arithmetic of doubles
    gives the exact ceiling.) *)
Theorem expire_after_bounds (p : Z) :
  parseInt (match POLL_INTERVAL with Some s => s | None => "undefined" end) None = Int p ->
  0 < p < 2 ^ 53 ->
  2 * p + 5000 <= 1000 * expire_after POLL_INTERVAL < 2 * p + 7000.
Proof.
  intros Hp Hpos. unfold expire_after. rewrite Hp.
  destruct (Z.eqb_spec p 0) as [->|_]; [lia|].
  rewrite (Math_ceil_div_exact p Hpos).
  pose proof (Z.div_mod (- p) 1000 ltac:(lia)) as Hd.
  pose proof (Z.mod_pos_bound (- p) 1000 ltac:(lia)) as Hm.
  change (2 ^ 53) with 9007199254740992 in Hpos.
  rewrite (toDouble_small (- (- p / 1000) * 2))
    by (change (2 ^ 53) with 9007199254740992; lia).
  rewrite toDouble_small by (change (2 ^ 53) with 9007199254740992; lia).
  lia.
Qed.

End DiscoveryProps.

(* ------------------------------------------------------------------ *)
(** ** Logger *)

Lemma In_LogLevels (key : string) :
  In key (Object_keys Logger.LogLevels) ->
  key = "trace" \/ key = "debug" \/ key = "info" \/ key = "warn" \/ key = "error".
Proof. cbn. intuition. Qed.

(** X21.  [setLogLevel] accepts each of the five level names, and
    [getLogLevel] then returns the name set; a value that is no property of
    the table is refused with an error that lists the five names. *)
Theorem setLogLevel_getLogLevel (value : string) (st : Logger.State) :
  (In value (Object_keys Logger.LogLevels) ->
   exists st', Logger.setLogLevel value st = inr st'
               /\ Logger.getLogLevel st' = Some value)
  /\ (js_get Logger.LogLevels value = Undefined ->
      Logger.setLogLevel value st
      = inl ("Invalid log level '" +++ value
             +++ "', valid are 'trace','debug','info','warn','error'")).
Proof.
  split.
  - intros Hin. apply In_LogLevels in Hin.
    destruct Hin as [-> | [-> | [-> | [-> | ->]]]]; eexists; split; reflexivity.
  - intros H. unfold Logger.setLogLevel. rewrite H. reflexivity.
Qed.

(** X22.  With a level name set, [log] prints a message exactly when its
    level is the level set or comes after it in the order trace, debug,
    info, warn, error of the table; the line printed is the prefix with the
    time and the level in capitals, then the arguments, joined by blanks. *)
Theorem log_threshold (iso value method : string) (before after : list string)
    (args : list string) (st st' : Logger.State) :
  Object_keys Logger.LogLevels = before ++ value :: after ->
  Logger.setLogLevel value st = inr st' ->
  In method (Object_keys Logger.LogLevels) ->
  exists out,
    Logger.log iso method args st' = inr out
    /\ (out <> None <-> In method (value :: after))
    /\ (forall console line, out = Some (console, line) ->
          line = join " " (("[" +++ iso +++ "] [" +++ Logger.toUpperCase method +++ "]")
                           :: args)).
Proof.
  intros Hkeys Hset Hm. apply In_LogLevels in Hm.
  assert (Hcases :
    (value = "trace" /\ after = ["debug"; "info"; "warn"; "error"])
    \/ (value = "debug" /\ after = ["info"; "warn"; "error"])
    \/ (value = "info" /\ after = ["warn"; "error"])
    \/ (value = "warn" /\ after = ["error"])
    \/ (value = "error" /\ after = [])).
  { cbn in Hkeys.
    destruct before as [|b0 [|b1 [|b2 [|b3 [|b4 [|b5 before]]]]]];
      cbn [List.app] in Hkeys; injection Hkeys; intros; subst; try discriminate; auto 10. }
  destruct Hcases as [[-> ->] | [[-> ->] | [[-> ->] | [[-> ->] | [-> ->]]]]];
    injection Hset as <-;
    destruct Hm as [-> | [-> | [-> | [-> | ->]]]];
    eexists; (split; [reflexivity|]);
    (split; [split; [intros H; first [now elim H | cbn [In]; auto 10]
                    | intros H; first [discriminate
                                      | cbn [In] in H; intuition discriminate]]
            | intros console line H; first [discriminate H | injection H as _ <-; reflexivity]]).
Qed.

(** X23.  [setLogLevel] also accepts a name every object inherits, such as
    [constructor].  After that [getLogLevel] finds no level, and [log]
    prints nothing at any of the five levels. *)
Theorem setLogLevel_inherited (value : string) (st : Logger.State) :
  js_get Logger.LogLevels value = Inherited ->
  exists st',
    Logger.setLogLevel value st = inr st'
    /\ Logger.getLogLevel st' = None
    /\ forall iso method args,
         In method (Object_keys Logger.LogLevels) ->
         Logger.log iso method args st' = inr None.
Proof.
  intros H. exists Inherited. unfold Logger.setLogLevel. rewrite H.
  split; [reflexivity|]. split; [reflexivity|].
  intros iso method args Hm. apply In_LogLevels in Hm.
  destruct Hm as [-> | [-> | [-> | [-> | ->]]]]; reflexivity.
Qed.

(* ------------------------------------------------------------------ *)
(** ** The earlier [handleCommand] *)

Section LegacyProps.

Context {Env : Type} (ext : External Env).

Lemma not_warning_push_warn (args : list string) (w : World Env) :
  collect is_not_warning (trace (push (Logger_log WARN args) w))
  = collect is_not_warning (trace w).
Proof.
  unfold push. cbn [trace]. rewrite collect_app. cbn [collect is_not_warning].
  apply List.app_nil_r.
Qed.

(** X24.  The earlier [handleCommand], with its tables [LOOKUP_TABLES] and
    [NUMBER_CONTROLS], and the present one, with [CONTROLS], do the same
    on every topic and payload but for the warnings they log: the result,
    the state of the outside world, the link flag and the discovery
    timestamp are equal, and so are the events other than warnings, among
    them the register writes. *)
Theorem legacy_handleCommand_agrees (topic message : string) (w : World Env) :
  let old := Legacy.handleCommand ext topic message w in
  let new := handleCommand ext topic message w in
  fst old = fst new
  /\ env (snd old) = env (snd new)
  /\ connected (snd old) = connected (snd new)
  /\ autoconfTimestamp (snd old) = autoconfTimestamp (snd new)
  /\ collect is_not_warning (trace (snd old)) = collect is_not_warning (trace (snd new)).
Proof.
  cbv zeta. unfold Legacy.handleCommand, handleCommand.
  destruct (negb (Nat.eqb (List.length (split "/" topic)) 4)
            || negb (String.eqb (nth 2 (split "/" topic) "") "set"));
    [repeat split|].
  cbv zeta. set (key := nth 3 (split "/" topic) "").
  set (w1 := push (Logger_log INFO ["Received command for " +++ key +++ ": " +++ message]) w).
  assert (Hwarn : forall a b,
    let old := try_catch (Logger_info ["Received command for " +++ key +++ ": " +++ message] ;;
                          Logger_warn a)
                 (fun e => Logger_error ["Error processing command"; e]) w in
    let new := try_catch (Logger_info ["Received command for " +++ key +++ ": " +++ message] ;;
                          Logger_warn b)
                 (fun e => Logger_error ["Error processing command"; e]) w in
    fst old = fst new
    /\ env (snd old) = env (snd new)
    /\ connected (snd old) = connected (snd new)
    /\ autoconfTimestamp (snd old) = autoconfTimestamp (snd new)
    /\ collect is_not_warning (trace (snd old)) = collect is_not_warning (trace (snd new))).
  { intros a b. cbv zeta. unfold try_catch, bind, Logger_info, Logger_warn, record.
    cbn [fst snd]. rewrite !not_warning_push_warn. repeat split. }
  assert (Hquiet : forall a,
    let old := try_catch (Logger_info ["Received command for " +++ key +++ ": " +++ message] ;;
                          Logger_warn a)
                 (fun e => Logger_error ["Error processing command"; e]) w in
    let new := try_catch (Logger_info ["Received command for " +++ key +++ ": " +++ message] ;;
                          ret tt)
                 (fun e => Logger_error ["Error processing command"; e]) w in
    fst old = fst new
    /\ env (snd old) = env (snd new)
    /\ connected (snd old) = connected (snd new)
    /\ autoconfTimestamp (snd old) = autoconfTimestamp (snd new)
    /\ collect is_not_warning (trace (snd old)) = collect is_not_warning (trace (snd new))).
  { intros a. cbv zeta. unfold try_catch, bind, Logger_info, Logger_warn, record, ret.
    cbn [fst snd]. rewrite !not_warning_push_warn. repeat split. }
  cbv zeta in Hwarn, Hquiet.
  unfold js_get, Legacy.LOOKUP_TABLES, Legacy.NUMBER_CONTROLS, CONTROLS, assoc.
  clearbody key.
  destruct (existsb (String.eqb key) Object_prototype) eqn:Hproto;
  repeat match goal with
         | |- context [String.eqb ?x ?k] => is_var x; destruct (String.eqb_spec x k) as [->|_]
         end;
    cbn [Legacy.register Legacy.map];
    try match goal with
        | |- context [keyForLabel ?m message] => destruct (keyForLabel m message)
        end;
    try (cbv zeta; destruct (parseInt message (Some 10)); cbn [isNaN]);
    first [ apply Hwarn | apply Hquiet | solve [repeat split]
          | exfalso; vm_compute in Hproto; discriminate Hproto ].
Qed.

End LegacyProps.

(* ------------------------------------------------------------------ *)
(** ** Controls are read back *)

Lemma js_get_CONTROLS_number (key : string) (register : Z) :
  js_get CONTROLS key = Own (number register) ->
  (key = "set_charge_power" /\ register = 42020)
  \/ (key = "set_discharge_power" /\ register = 42021)
  \/ (key = "charge_to_soc" /\ register = 42011).
Proof.
  unfold js_get, CONTROLS, assoc.
  repeat match goal with
         | |- context [String.eqb key ?k] => destruct (String.eqb_spec key k) as [->|_]
         end;
    intros H; try discriminate H;
    try (destruct (existsb _ _); discriminate H);
    injection H as <-; auto 6.
Qed.

(** Picks the read of the block at [start] and the decode at [offset] among
    the steps of a poll that returned. *)
Ltac read_back ext start count offset :=
  match goal with
  | Hr : readBlock ext start count _ = (inr ?b, _),
    H1 : lift (readUInt16BE ?b offset) _ = (inr ?v, _) |- _ =>
      let e' := fresh "e'" in
      apply readBlock_inr_inv in Hr; destruct Hr as (e' & Hr);
      apply lift_inr_inv in H1; destruct H1 as (H1 & _);
      exists start, count, b, v; do 2 eexists;
      split; [unfold POLL_BLOCKS; cbn [In]; tauto|];
      split; [lia|]; split; [exact Hr|]; split; [exact H1|reflexivity]
  end.

Section ReadBack.

Context {Env : Type} (ext : External Env).

(** X25.  The register a command for a control writes is the register the
    poll cycle reads the state of that control from: in the snapshot of a
    poll, the value under the key of a control is the unsigned 16-bit word
    of the control's register, taken from one of the blocks read. *)
Theorem controls_polled (key : string) (register : Z) (w : World Env)
    (data : Snapshot) (w' : World Env) :
  (exists map, js_get CONTROLS key = Own (select register map))
  \/ js_get CONTROLS key = Own (number register) ->
  poll_data ext w = (inr data, w') ->
  exists (start count : Z) (block : Buffer) (v : Z) (e e' : Env),
    In (start, count) POLL_BLOCKS
    /\ start <= register < start + count
    /\ ModbusRTU_readHoldingRegisters ext start count e = (inr block, e')
    /\ readUInt16BE block (2 * (register - start)) = inr v
    /\ assoc key data = Some (Z2float v).
Proof.
  intros Hkey H. unfold poll_data in H. cbv zeta in H.
  repeat (apply bind_inr_inv in H; destruct H as (? & ? & ? & H)).
  injection H as <- _.
  assert (Hcases :
    (key = "user_work_mode" /\ register = 43000)
    \/ (key = "force_mode" /\ register = 42010)
    \/ (key = "backup_function" /\ register = 41200)
    \/ (key = "set_charge_power" /\ register = 42020)
    \/ (key = "set_discharge_power" /\ register = 42021)
    \/ (key = "charge_to_soc" /\ register = 42011)).
  { destruct Hkey as [(map & Hkey) | Hkey].
    - destruct (js_get_CONTROLS_select _ _ _ Hkey)
        as [(-> & -> & _) | [(-> & -> & _) | (-> & -> & _)]]; auto 10.
    - destruct (js_get_CONTROLS_number _ _ Hkey) as [(-> & ->) | [(-> & ->) | (-> & ->)]];
        auto 10. }
  clear Hkey.
  destruct Hcases
    as [(-> & ->) | [(-> & ->) | [(-> & ->) | [(-> & ->) | [(-> & ->) | (-> & ->)]]]]].
  - read_back ext 43000 1 0.
  - read_back ext 42010 2 0.
  - read_back ext 41200 1 0.
  - read_back ext 42020 2 0.
  - read_back ext 42020 2 2.
  - read_back ext 42010 2 2.
Qed.

End ReadBack.

(* ------------------------------------------------------------------ *)
(** ** The theorems at the simulated device *)

Lemma pollingLoop_link_down_witness :
  let w := world 0 false false 0 in
  let listeners := onData_listeners simulated "One" None in
  let w' := snd (pollingLoop simulated 5000 1 listeners w) in
  connected (snd (reconnect simulated 1 w)) = false
  /\ reads (events_since w w') = []
  /\ emitted (events_since w w') = []
  /\ telemetry (events_since w w') = []
  /\ connected w' = false.
Proof.
  cbv zeta. split; [reflexivity|].
  apply (pollingLoop_link_down simulated 5000 1 (onData_listeners simulated "One" None)
           (world 0 false false 0)).
  reflexivity.
Defined.

Lemma answering_well_formed (start count : Z) (e : Device) :
  In (start, count) POLL_BLOCKS ->
  exists (b : Buffer) (e' : Device),
    ModbusRTU_readHoldingRegisters answering start count e = (inr b, e')
    /\ Z.of_nat (List.length b) = 2 * count.
Proof.
  unfold POLL_BLOCKS. cbn [In]. intros H.
  repeat (destruct H as [H|H]; [injection H as <- <-; do 2 eexists; split; reflexivity|]).
  destruct H.
Qed.

Lemma poll_data_returns_witness :
  (forall (start count : Z) (e : Device),
     In (start, count) POLL_BLOCKS ->
     exists (b : Buffer) (e' : Device),
       ModbusRTU_readHoldingRegisters answering start count e = (inr b, e')
       /\ Z.of_nat (List.length b) = 2 * count)
  /\ exists data w', poll_data answering (world 0 true true 0) = (inr data, w').
Proof.
  split; [exact answering_well_formed|].
  exact (poll_data_returns answering answering_well_formed (world 0 true true 0)).
Defined.

Lemma listener_failure_witness :
  let w := world 0 true true 0 in
  let failing : Snapshot -> M Device unit := fun _ => throw "listener failed" in
  let data := match fst (poll_data simulated w) with inr d => d | inl _ => [] end in
  let w2 := snd (poll_data simulated w) in
  let w3 := push (eventEmitter_emit data) w2 in
  connected (snd (reconnect simulated 1 w)) = true
  /\ poll_data simulated (snd (reconnect simulated 1 w)) = (inr data, w2)
  /\ failing data w3 = (inl "listener failed", w3)
  /\ exists (t : Z) (e2 : Device),
       Date_now simulated (env w3) = (t, e2)
       /\ pollingLoop simulated 5000 1 [failing] w
          = (inr (5000 - Z.rem t 5000),
             mkWorld e2 false (autoconfTimestamp w3)
               (trace w3 ++
                [ Logger_log WARN ["Error during poll cycle"; "listener failed"];
                  setTimeout (5000 - Z.rem t 5000) ])).
Proof.
  cbv zeta.
  assert (Hp : poll_data simulated (snd (reconnect simulated 1 (world 0 true true 0)))
               = (inr match fst (poll_data simulated (world 0 true true 0)) with
                      | inr d => d
                      | inl _ => []
                      end,
                  snd (poll_data simulated (world 0 true true 0))))
    by (vm_compute; reflexivity).
  assert (Hc : connected (snd (reconnect simulated 1 (world 0 true true 0))) = true)
    by reflexivity.
  set (data := match fst (poll_data simulated (world 0 true true 0)) with
               | inr d => d
               | inl _ => []
               end) in *.
  set (w2 := snd (poll_data simulated (world 0 true true 0))) in *.
  clearbody data w2.
  split; [exact Hc|]. split; [exact Hp|]. split; [reflexivity|].
  exact (listener_failure simulated 5000 1 [fun _ => throw "listener failed"]
           [] [] (fun _ => throw "listener failed") (world 0 true true 0) w2
           (push (eventEmitter_emit data) w2) (push (eventEmitter_emit data) w2)
           data "listener failed" eq_refl Hc Hp eq_refl eq_refl).
Defined.

Lemma writeRegister_connected_witness :
  let w := world 0 true true 0 in
  connected w = true
  /\ writeRegister simulated 42010 (Int 1) w
     = (inr tt,
        mkWorld (device 0 true) true 0
          [ Logger_log INFO ["Writing 1 to register 42010"];
            modbus_writeRegister 42010 (Int 1) ]).
Proof.
  cbv zeta. split; [reflexivity|].
  exact (writeRegister_connected simulated 42010 (Int 1) (world 0 true true 0) eq_refl).
Defined.

Lemma handleData_topics_witness :
  let w := world 0 true true 0 in
  let data : Snapshot := [("soc", Z2float 55); ("force_mode", Z2float 1)] in
  (forall key, In key (Object_keys data) ->
     existsb (String.eqb key) Object_prototype = false)
  /\ exists w',
       handleData simulated "One" None data w = (inr tt, w')
       /\ List.map fst (telemetry (events_since w w'))
          = ["marstek2mqtt/One/soc"; "marstek2mqtt/One/force_mode"]
       /\ connected w' = connected w.
Proof.
  cbv zeta.
  assert (Hkeys : forall key,
            In key (Object_keys [("soc", Z2float 55); ("force_mode", Z2float 1)]) ->
            existsb (String.eqb key) Object_prototype = false)
    by (intros key [<-|[<-|[]]]; reflexivity).
  split; [exact Hkeys|].
  exact (handleData_topics simulated "One" None
           [("soc", Z2float 55); ("force_mode", Z2float 1)] (world 0 true true 0) Hkeys).
Defined.

Lemma handleData_translates_witness :
  let w := world 0 true true 0 in
  let data : Snapshot := [("soc", Z2float 55); ("force_mode", Z2float 1)] in
  js_get CONTROLS "force_mode"
    = Own (select 42010 [("0", "Stop"); ("1", "Charge"); ("2", "Discharge")])
  /\ exists w',
       handleData simulated "One" None data w = (inr tt, w')
       /\ In ("marstek2mqtt/One/force_mode", [chars "Charge"])
             (telemetry (events_since w w')).
Proof.
  cbv zeta. split; [reflexivity|].
  apply (handleData_translates simulated "One" None
           [("soc", Z2float 55); ("force_mode", Z2float 1)] "force_mode" "control map" 1
           [("0", "Stop"); ("1", "Charge"); ("2", "Discharge")] (world 0 true true 0)).
  - intros key [<-|[<-|[]]]; reflexivity.
  - right. left. reflexivity.
  - lia.
  - left. exists 42010. split; reflexivity.
Defined.

Lemma bridge_cycle_witness :
  let w := world 0 true true 0 in
  let data := match fst (poll_data simulated w) with inr d => d | inl _ => [] end in
  connected (snd (reconnect simulated 1 w)) = true
  /\ fst (poll_data simulated (snd (reconnect simulated 1 w))) = inr data
  /\ exists (delay : Z) (w' : World Device),
       pollingLoop simulated 5000 1 (onData_listeners simulated "One" None) w = (inr delay, w')
       /\ connected w' = true
       /\ emitted (events_since w w') = [data]
       /\ List.map fst (telemetry (events_since w w'))
          = List.map (fun key => MqttClient_TOPIC_PREFIX +++ "/" +++ "One" +++ "/" +++ key)
              POLL_KEYS
       /\ Object_keys data = POLL_KEYS
       /\ telemetry (events_since w w')
          = List.map (fun '(key, value) =>
                        (MqttClient_TOPIC_PREFIX +++ "/" +++ "One" +++ "/" +++ key,
                         publishedPayload key value)) data.
Proof.
  cbv zeta.
  assert (Hp : fst (poll_data simulated (snd (reconnect simulated 1 (world 0 true true 0))))
               = inr match fst (poll_data simulated (world 0 true true 0)) with
                     | inr d => d
                     | inl _ => []
                     end)
    by (vm_compute; reflexivity).
  assert (Hc : connected (snd (reconnect simulated 1 (world 0 true true 0))) = true)
    by reflexivity.
  set (data := match fst (poll_data simulated (world 0 true true 0)) with
               | inr d => d
               | inl _ => []
               end) in *.
  clearbody data.
  split; [exact Hc|]. split; [exact Hp|].
  exact (bridge_cycle simulated 5000 1 "One" None (world 0 true true 0) data Hc Hp).
Defined.

Lemma handleCommand_select_writes_witness :
  let w := world 0 true true 0 in
  let w' := snd (handleCommand simulated "marstek2mqtt/One/set/force_mode" "Discharge" w) in
  split "/" "marstek2mqtt/One/set/force_mode" = ["marstek2mqtt"; "One"; "set"; "force_mode"]
  /\ js_get CONTROLS "force_mode"
     = Own (select 42010 [("0", "Stop"); ("1", "Charge"); ("2", "Discharge")])
  /\ writes (events_since w w') = [(42010, Int 2)].
Proof.
  cbv zeta. split; [reflexivity|]. split; [reflexivity|].
  exact (proj1 (handleCommand_select_writes simulated "marstek2mqtt/One/set/force_mode"
                  "marstek2mqtt" "One" "force_mode" "Discharge" 42010
                  [("0", "Stop"); ("1", "Charge"); ("2", "Discharge")]
                  (world 0 true true 0) eq_refl eq_refl)).
Defined.

Lemma handleCommand_no_control_witness :
  let w := world 0 true true 0 in
  split "/" "marstek2mqtt/One/set/toString" = ["marstek2mqtt"; "One"; "set"; "toString"]
  /\ assoc "toString" CONTROLS = None
  /\ handleCommand simulated "marstek2mqtt/One/set/toString" "1" w
     = (inr tt,
        mkWorld (env w) (connected w) (autoconfTimestamp w)
          [Logger_log INFO ["Received command for toString: 1"]]).
Proof.
  cbv zeta. split; [reflexivity|]. split; [reflexivity|].
  exact (handleCommand_no_control simulated "marstek2mqtt/One/set/toString"
           "marstek2mqtt" "One" "toString" "1" (world 0 true true 0) eq_refl eq_refl).
Defined.

Lemma code_label_roundtrip_witness :
  js_get CONTROLS "backup_function" = Own (select 41200 [("0", "Enable"); ("1", "Disable")])
  /\ In "Disable" (Object_values [("0", "Enable"); ("1", "Disable")])
  /\ exists code : Z,
       codeForLabel [("0", "Enable"); ("1", "Disable")] "Disable" = Some (Int code)
       /\ labelForCode [("0", "Enable"); ("1", "Disable")] (Z2float code) = Some "Disable".
Proof.
  split; [reflexivity|]. split; [right; left; reflexivity|].
  apply (code_label_roundtrip "backup_function" 41200 [("0", "Enable"); ("1", "Disable")]
           "Disable").
  - reflexivity.
  - right. left. reflexivity.
Defined.

Lemma discovery_topics_witness :
  let w := world 1700000000000 true true 0 in
  let w' := snd (ensureAutoconf simulated "One" None w) in
  let message := hd ("", JBool false) (discovery (events_since w w')) in
  split "/" "One" = ["One"]
  /\ In message (discovery (events_since w w'))
  /\ exists key : string,
       In key POLL_KEYS
       /\ json_field "state_topic" (snd message)
          = Some (JString (MqttClient_TOPIC_PREFIX +++ "/" +++ "One" +++ "/" +++ key))
       /\ match json_field "command_topic" (snd message) with
          | Some t =>
              exists s, t = JString s
                        /\ split "/" s = [MqttClient_TOPIC_PREFIX; "One"; "set"; key]
                        /\ assoc key CONTROLS <> None
          | None => assoc key CONTROLS = None
          end.
Proof.
  cbv zeta.
  assert (Hin :
    In (hd ("", JBool false)
          (discovery
             (events_since (world 1700000000000 true true 0)
                (snd (ensureAutoconf simulated "One" None (world 1700000000000 true true 0))))))
       (discovery
          (events_since (world 1700000000000 true true 0)
             (snd (ensureAutoconf simulated "One" None (world 1700000000000 true true 0))))))
    by (vm_compute; left; reflexivity).
  set (message :=
         hd ("", JBool false)
           (discovery
              (events_since (world 1700000000000 true true 0)
                 (snd (ensureAutoconf simulated "One" None
                         (world 1700000000000 true true 0)))))) in *.
  clearbody message. destruct message as [topic j]. cbn [fst snd].
  split; [reflexivity|]. split; [exact Hin|].
  exact (discovery_topics simulated "One" None (world 1700000000000 true true 0) topic j
           eq_refl Hin).
Defined.

Lemma handleCommand_slash_identifier_witness :
  let w := world 0 true true 0 in
  split "/" "cellar/One" <> ["cellar/One"]
  /\ handleCommand simulated "marstek2mqtt/cellar/One/set/force_mode" "Charge" w = (inr tt, w).
Proof.
  cbv zeta.
  assert (H : split "/" "cellar/One" <> ["cellar/One"]) by discriminate.
  split; [exact H|].
  exact (handleCommand_slash_identifier simulated "cellar/One" "force_mode" "Charge"
           (world 0 true true 0) H).
Defined.

Lemma discovery_select_options_witness :
  let w := world 1700000000000 true true 0 in
  let w' := snd (ensureAutoconf simulated "One" None w) in
  REPUBLISH_INTERVAL < fst (Date_now simulated (env w)) - autoconfTimestamp w
  /\ exists j : json,
       In ("homeassistant/select/marstek2mqtt_One/backup_function/config", j)
          (discovery (events_since w w'))
       /\ json_field "options" j = Some (JArray [JString "Enable"; JString "Disable"])
       /\ json_field "command_topic" j
          = Some (JString "marstek2mqtt/One/set/backup_function").
Proof.
  cbv zeta. split; [reflexivity|].
  apply (discovery_select_options simulated "One" None (world 1700000000000 true true 0)
           "backup_function" 41200 [("0", "Enable"); ("1", "Disable")]).
  - reflexivity.
  - reflexivity.
Defined.

Lemma expire_after_bounds_witness :
  parseInt "2500" None = Int 2500
  /\ 0 < 2500 < 2 ^ 53
  /\ 2 * 2500 + 5000 <= 1000 * expire_after (Some "2500") < 2 * 2500 + 7000.
Proof.
  assert (Hp : 0 < 2500 < 2 ^ 53) by (split; reflexivity).
  split; [reflexivity|]. split; [exact Hp|].
  exact (expire_after_bounds (Some "2500") 2500 eq_refl Hp).
Defined.

Lemma log_threshold_witness :
  let warn := Own {| Logger.level := 1; Logger.callback := Logger.console_warn |} in
  Object_keys Logger.LogLevels = ["trace"; "debug"; "info"] ++ "warn" :: ["error"]
  /\ Logger.setLogLevel "warn" Logger.initial = inr warn
  /\ In "error" (Object_keys Logger.LogLevels)
  /\ exists out,
       Logger.log "2024-01-01T00:00:00.000Z" "error" ["Modbus connection failed:"] warn
       = inr out
       /\ (out <> None <-> In "error" ["warn"; "error"])
       /\ (forall console line, out = Some (console, line) ->
             line = join " " [("[" +++ "2024-01-01T00:00:00.000Z" +++ "] ["
                               +++ Logger.toUpperCase "error" +++ "]");
                              "Modbus connection failed:"]).
Proof.
  cbv zeta. split; [reflexivity|]. split; [reflexivity|].
  split; [do 4 right; left; reflexivity|].
  apply (log_threshold "2024-01-01T00:00:00.000Z" "warn" "error" ["trace"; "debug"; "info"]
           ["error"] ["Modbus connection failed:"] Logger.initial).
  - reflexivity.
  - reflexivity.
  - do 4 right. left. reflexivity.
Defined.

Lemma setLogLevel_inherited_witness :
  js_get Logger.LogLevels "constructor" = Inherited
  /\ exists st',
       Logger.setLogLevel "constructor" Logger.initial = inr st'
       /\ Logger.getLogLevel st' = None
       /\ forall iso method args,
            In method (Object_keys Logger.LogLevels) ->
            Logger.log iso method args st' = inr None.
Proof.
  split; [reflexivity|].
  exact (setLogLevel_inherited "constructor" Logger.initial eq_refl).
Defined.

Lemma controls_polled_witness :
  let w := world 0 true true 0 in
  let data := match fst (poll_data simulated w) with inr d => d | inl _ => [] end in
  js_get CONTROLS "charge_to_soc" = Own (number 42011)
  /\ poll_data simulated w = (inr data, snd (poll_data simulated w))
  /\ exists (start count : Z) (block : Buffer) (v : Z) (e e' : Device),
       In (start, count) POLL_BLOCKS
       /\ start <= 42011 < start + count
       /\ ModbusRTU_readHoldingRegisters simulated start count e = (inr block, e')
       /\ readUInt16BE block (2 * (42011 - start)) = inr v
       /\ assoc "charge_to_soc" data = Some (Z2float v).
Proof.
  cbv zeta.
  assert (Hp : poll_data simulated (world 0 true true 0)
               = (inr match fst (poll_data simulated (world 0 true true 0)) with
                      | inr d => d
                      | inl _ => []
                      end,
                  snd (poll_data simulated (world 0 true true 0))))
    by (vm_compute; reflexivity).
  set (data := match fst (poll_data simulated (world 0 true true 0)) with
               | inr d => d
               | inl _ => []
               end) in *.
  set (w' := snd (poll_data simulated (world 0 true true 0))) in *.
  clearbody data w'.
  split; [reflexivity|]. split; [exact Hp|].
  exact (controls_polled simulated "charge_to_soc" 42011 (world 0 true true 0) data w'
           (or_intror eq_refl) Hp).
Defined.
